(** * sitemap-diff: batch scheduler and digest aggregation

    A shallow embedding of the Cloudflare Worker entry point
    ([performScheduledMonitoring]) and of the Telegram digest code
    ([extractKeywordsWithCount], [extractDomainStats], [sendUnifiedReport],
    [handleNewsCommand]), followed by the properties of the batch cursor,
    of failure isolation and of the keyword and domain statistics. *)

From Stdlib Require Import ZArith List Bool Ascii String Lia Sorted Permutation.
From Stdlib Require Import Numbers.DecimalString.
Import ListNotations.

Local Open Scope string_scope.
Local Open Scope list_scope.
Local Open Scope Z_scope.

(** ** The JavaScript built-ins the code relies on *)

Module JS.

(** A call either returns a value or throws. *)
Inductive Outcome (A : Type) : Type :=
| Returned (a : A)
| Thrown (message : string).
Arguments Returned {A} a.
Arguments Thrown {A} message.

(** [Array.prototype.slice(start, end)] on integer arguments: a negative
    index counts from the end, both ends are clamped to the array, and an
    empty range gives the empty array. *)
Definition slice {A : Type} (arr : list A) (start stop : Z) : list A :=
  let len := Z.of_nat (List.length arr) in
  let k := if start <? 0 then Z.max (len + start) 0 else Z.min start len in
  let final := if stop <? 0 then Z.max (len + stop) 0 else Z.min stop len in
  firstn (Z.to_nat (final - k)) (skipn (Z.to_nat k) arr).

(** [Array.prototype.sort(compareFn)]: stable; [a] stays in front of a later
    [b] unless [compareFn a b] is positive. *)
Fixpoint sort_insert {A : Type} (compareFn : A -> A -> Z) (a : A) (sorted : list A) : list A :=
  match sorted with
  | [] => [a]
  | b :: rest =>
      if compareFn a b <=? 0 then a :: b :: rest
      else b :: sort_insert compareFn a rest
  end.

Fixpoint sort {A : Type} (compareFn : A -> A -> Z) (arr : list A) : list A :=
  match arr with
  | [] => []
  | a :: rest => sort_insert compareFn a (sort compareFn rest)
  end.

(** [String.prototype.split(sep)] for a one-character separator. *)
Fixpoint split (sep : ascii) (s : string) : list string :=
  match s with
  | EmptyString => [EmptyString]
  | String c rest =>
      if Ascii.eqb c sep then EmptyString :: split sep rest
      else match split sep rest with
           | [] => [String c EmptyString]
           | head :: tail => String c head :: tail
           end
  end.

(** [s.includes(c)] for a one-character needle. *)
Fixpoint includes (c : ascii) (s : string) : bool :=
  match s with
  | EmptyString => false
  | String d rest => Ascii.eqb d c || includes c rest
  end.

Definition is_digit (c : ascii) : bool :=
  let n := nat_of_ascii c in (48 <=? n)%nat && (n <=? 57)%nat.

Fixpoint all_digits (s : string) : bool :=
  match s with
  | EmptyString => true
  | String c rest => is_digit c && all_digits rest
  end.

(** [s.match(/^\d+$/)] is truthy. *)
Definition is_numeric (s : string) : bool :=
  match s with
  | EmptyString => false
  | _ => all_digits s
  end.

Definition is_upper (c : ascii) : bool :=
  let n := nat_of_ascii c in (65 <=? n)%nat && (n <=? 90)%nat.

Definition lower_char (c : ascii) : ascii :=
  if is_upper c then ascii_of_nat (nat_of_ascii c + 32) else c.

(** [String.prototype.toLowerCase] on the ASCII text of a URL component. *)
Fixpoint toLowerCase (s : string) : string :=
  match s with
  | EmptyString => EmptyString
  | String c rest => String (lower_char c) (toLowerCase rest)
  end.

(** [s.replace(/-/g, '')]. *)
Fixpoint remove_hyphens (s : string) : string :=
  match s with
  | EmptyString => EmptyString
  | String c rest =>
      if Ascii.eqb c "-" then remove_hyphens rest
      else String c (remove_hyphens rest)
  end.

(** [s.match(/^(w1|w2|...)$/i)] is truthy, on ASCII text. *)
Definition matches_word_i (words : list string) (s : string) : bool :=
  existsb (String.eqb (toLowerCase s)) (List.map toLowerCase words).

(** A [Map] with string keys: entries in insertion order; [set] on a key
    already present keeps its position. *)
Definition Map (V : Type) : Type := list (string * V).

Fixpoint Map_get {V : Type} (m : Map V) (key : string) : option V :=
  match m with
  | [] => None
  | (k, v) :: rest => if String.eqb k key then Some v else Map_get rest key
  end.

Definition Map_has {V : Type} (m : Map V) (key : string) : bool :=
  match Map_get m key with Some _ => true | None => false end.

Fixpoint Map_set {V : Type} (m : Map V) (key : string) (value : V) : Map V :=
  match m with
  | [] => [(key, value)]
  | (k, v) :: rest =>
      if String.eqb k key then (k, value) :: rest
      else (k, v) :: Map_set rest key value
  end.

Definition Map_size {V : Type} (m : Map V) : Z := Z.of_nat (List.length m).

(** [x || 0] on a number that may be [undefined]. *)
Definition or_zero (x : option Z) : Z :=
  match x with
  | Some n => if n =? 0 then 0 else n
  | None => 0
  end.

(** A non-negative integer inside a template literal. *)
Definition show (n : Z) : string := NilEmpty.string_of_int (Z.to_int n).

Definition nl : string := String (ascii_of_nat 10) EmptyString.

End JS.

(** ** URLs

    [new URL(url)] is the platform's parser; the code reads [hostname] and
    [pathname] of the result and relies on its throwing for a malformed
    argument. *)

Record URL : Type := { hostname : string; pathname : string }.

(** An instance of the parser for plain web addresses
    [scheme://host[:port][/path][?query][#fragment]] with scheme http or
    https, a host of letters, digits, dots and hyphens, and a path of
    letters, digits and [/ - _ . ~]; everything else is rejected here. The
    host is lower-cased and an empty path reads ["/"], as the platform does. *)
Module PlainURL.

Fixpoint strip_prefix (prefix s : string) : option string :=
  match prefix, s with
  | EmptyString, _ => Some s
  | String p prefix', String c s' =>
      if Ascii.eqb (JS.lower_char c) p then strip_prefix prefix' s' else None
  | String _ _, EmptyString => None
  end.

(** The longest prefix of [s] without a character of [stops], and the rest. *)
Fixpoint span_until (stops : string) (s : string) : string * string :=
  match s with
  | EmptyString => (EmptyString, EmptyString)
  | String c rest =>
      if JS.includes c stops then (EmptyString, s)
      else let (taken, left) := span_until stops rest in (String c taken, left)
  end.

Definition is_alnum (c : ascii) : bool :=
  let l := JS.lower_char c in
  JS.is_digit c || ((97 <=? nat_of_ascii l)%nat && (nat_of_ascii l <=? 122)%nat).

Fixpoint all_chars (ok : ascii -> bool) (s : string) : bool :=
  match s with
  | EmptyString => true
  | String c rest => ok c && all_chars ok rest
  end.

Definition host_char (c : ascii) : bool := is_alnum c || JS.includes c ".-".
Definition path_char (c : ascii) : bool := is_alnum c || JS.includes c "/-_~.".

Definition has_dot_segment (path : string) : bool :=
  existsb (fun seg => String.eqb seg "." || String.eqb seg "..") (JS.split "/" path).

Definition after_scheme (s : string) : option string :=
  match strip_prefix "https://" s with
  | Some rest => Some rest
  | None => strip_prefix "http://" s
  end.

Definition parse (url : string) : JS.Outcome URL :=
  match after_scheme url with
  | None => JS.Thrown "Invalid URL"
  | Some rest =>
      let (authority, tail) := span_until "/?#" rest in
      let (host, port) := span_until ":" authority in
      let (path, _) := span_until "?#" tail in
      let port_ok :=
        match port with
        | EmptyString => true
        | String _ digits => JS.all_digits digits
        end in
      if negb (String.eqb host "") && all_chars host_char host && port_ok
         && all_chars path_char path && negb (has_dot_segment path)
      then JS.Returned {| hostname := JS.toLowerCase host;
                          pathname := if String.eqb path "" then "/" else path |}
      else JS.Thrown "Invalid URL"
  end.

End PlainURL.

(** ** apps/telegram-bot.js: keyword and domain statistics *)

Module KeywordStat.
Record t : Type := { keyword : string; count : Z }.
End KeywordStat.

Module DomainStat.
Record t : Type := { domain : string; count : Z }.
End DomainStat.

Section Aggregator.

(** [new URL(.)]. *)
Variable newURL : string -> JS.Outcome URL.

Definition stopwords : list string :=
  ["index"; "page"; "post"; "article"; "news"; "blog"].

(** The condition of the [if] on a path segment. *)
Definition meaningful (segment : string) : bool :=
  (2 <? String.length segment)%nat
  && negb (JS.is_numeric segment)
  && negb (JS.includes "." segment)
  && negb (JS.matches_word_i stopwords segment).

(** [map.set(key, (map.get(key) || 0) + 1)]. *)
Definition increment (counts : JS.Map Z) (key : string) : JS.Map Z :=
  JS.Map_set counts key (JS.or_zero (JS.Map_get counts key) + 1).

(** The body of the loop over the segments of one path. *)
Definition countSegment (keywordCounts : JS.Map Z) (segment : string) : JS.Map Z :=
  if meaningful segment then
    let cleanSegment := JS.toLowerCase (JS.remove_hyphens segment) in
    if (2 <? String.length cleanSegment)%nat
    then increment keywordCounts cleanSegment
    else keywordCounts
  else keywordCounts.

(** The [try]/[catch] body of the loop over the URLs: a URL that does not
    parse throws before the table is touched and is ignored. *)
Definition countKeywords (keywordCounts : JS.Map Z) (url : string) : JS.Map Z :=
  match newURL url with
  | JS.Returned urlObj =>
      let path := pathname urlObj in
      let segments :=
        filter (fun segment => (2 <? String.length segment)%nat) (JS.split "/" path) in
      fold_left countSegment segments keywordCounts
  | JS.Thrown _ => keywordCounts
  end.

(** [(a, b) => b.count - a.count]. *)
Definition byCountDesc (a b : KeywordStat.t) : Z :=
  KeywordStat.count b - KeywordStat.count a.

Definition keywordEntry (entry : string * Z) : KeywordStat.t :=
  {| KeywordStat.keyword := fst entry; KeywordStat.count := snd entry |}.

Definition extractKeywordsWithCount (urls : list string) : list KeywordStat.t :=
  let keywordCounts := fold_left countKeywords urls [] in
  JS.slice (JS.sort byCountDesc (List.map keywordEntry keywordCounts)) 0 10.

Definition countDomain (domainCounts : JS.Map Z) (url : string) : JS.Map Z :=
  match newURL url with
  | JS.Returned urlObj => increment domainCounts (hostname urlObj)
  | JS.Thrown _ => domainCounts
  end.

Definition byDomainCountDesc (a b : DomainStat.t) : Z :=
  DomainStat.count b - DomainStat.count a.

Definition domainEntry (entry : string * Z) : DomainStat.t :=
  {| DomainStat.domain := fst entry; DomainStat.count := snd entry |}.

Definition extractDomainStats (urls : list string) : list DomainStat.t :=
  let domainCounts := fold_left countDomain urls [] in
  JS.sort byDomainCountDesc (List.map domainEntry domainCounts).

(** [extractKeywords]: the keywords alone. *)
Definition extractKeywords (urls : list string) : list string :=
  List.map KeywordStat.keyword (extractKeywordsWithCount urls).

End Aggregator.


(** ** Collaborators, the store and the trace of a run *)

Module FeedResult.
(** What [addFeed] and [downloadSitemap] resolve to; [newUrls] may be
    missing, [datedFile] is read for its truth value only. *)
Record t : Type :=
  { success : bool; datedFile : bool; newUrls : option (list string); errorMsg : string }.
End FeedResult.

Module Progress.
Record t : Type :=
  { lastIndex : Z; lastUpdate : string; totalFeeds : Z; processedInThisBatch : Z }.
End Progress.

(** The text kept under a key of the store: what [JSON.stringify] gives for a
    progress record, or text that [JSON.parse] rejects. *)
Inductive KvText : Type :=
| ProgressJSON (progress : Progress.t)
| NotJSON (text : string).

Inductive Event : Type :=
| CallGetFeeds
| CallKvGet (key : string)
| CallKvPut (key : string) (value : KvText)
| CallAddFeed (url : string)
| CallDownloadSitemap (url : string) (forceRefresh : bool)
| CallGetSitemapContent (domain kind : string)
| TelegramSendMessage (chatId text : string)
| TelegramSendDocument (chatId document filename caption : string)
| Timeout (ms : Z).

(** The feed manager: each call answers from the history of the run so far,
    by returning or by throwing. *)
Record RSSManager : Type :=
  { getFeeds : list Event -> JS.Outcome (list string);
    addFeed : list Event -> string -> JS.Outcome FeedResult.t;
    downloadSitemap : list Event -> string -> bool -> JS.Outcome FeedResult.t;
    getSitemapContent : list Event -> string -> string -> JS.Outcome (option string);
    kv_get_throws : list Event -> bool;
    kv_put_throws : list Event -> bool }.

Module TelegramConfig.
Record t : Type := { token : string; targetChat : option string }.
End TelegramConfig.

(** The rest of the platform: whether a request to Telegram comes back ok;
    the message of the error it ends in when it does not
    ([HTTP <status>: <statusText>] for a response that is not ok, the message
    of what [fetch] or [response.json()] threw otherwise); and the clock in
    the three renderings the code asks for ([toISOString()],
    [toLocaleString('zh-CN')] and the same with the two-digit options of the
    report). *)
Record Platform : Type :=
  { telegram_ok : list Event -> bool;
    telegram_error : list Event -> string;
    toISOString : list Event -> string;
    toLocaleString : list Event -> string;
    toLocaleStringOptions : list Event -> string }.

Record World : Type := { kv : string -> option KvText; trace : list Event }.

Definition record (e : Event) (w : World) : World :=
  {| kv := kv w; trace := trace w ++ [e] |}.

Definition store (key : string) (value : KvText) (w : World) : World :=
  {| kv := fun k => if String.eqb k key then Some value else kv w k; trace := trace w |}.

(** Code with local variables [L] running in the world: it returns or throws,
    and what it did to its variables and to the world before a throw stays
    done. *)
Definition M (L A : Type) : Type := L -> World -> JS.Outcome A * L * World.

Definition ret {L A : Type} (a : A) : M L A :=
  fun l w => (JS.Returned a, l, w).

Definition bind {L A B : Type} (m : M L A) (k : A -> M L B) : M L B :=
  fun l w =>
    match m l w with
    | (JS.Returned a, l', w') => k a l' w'
    | (JS.Thrown e, l', w') => (JS.Thrown e, l', w')
    end.

Definition throw {L A : Type} (message : string) : M L A :=
  fun l w => (JS.Thrown message, l, w).

Definition try_catch {L A : Type} (body : M L A) (handler : string -> M L A) : M L A :=
  fun l w =>
    match body l w with
    | (JS.Thrown e, l', w') => handler e l' w'
    | returned => returned
    end.

Definition locals {L : Type} : M L L :=
  fun l w => (JS.Returned l, l, w).

Definition assign {L : Type} (update : L -> L) : M L unit :=
  fun l w => (JS.Returned tt, update l, w).

Definition emit {L : Type} (e : Event) : M L unit :=
  fun l w => (JS.Returned tt, l, record e w).

(** The answer of a collaborator at the current history. *)
Definition answer {L A : Type} (oracle : list Event -> JS.Outcome A) : M L A :=
  fun l w => (oracle (trace w), l, w).

(** A call of a function: it runs on locals of its own. *)
Definition call {L L' A : Type} (init : L') (f : M L' A) : M L A :=
  fun l w => let '(r, _, w') := f init w in (r, l, w').

Definition when {L : Type} (b : bool) (m : M L unit) : M L unit :=
  if b then m else ret tt.

Declare Scope js_scope.
Delimit Scope js_scope with js.
Notation "x <- m ;; k" := (bind m (fun x => k))
  (at level 61, m at next level, right associativity) : js_scope.
Notation "m ;; k" := (bind m (fun _ => k))
  (at level 61, right associativity) : js_scope.
Local Open Scope js_scope.

(** [for (const x of xs) body]. *)
Fixpoint for_of {L X : Type} (xs : list X) (body : X -> M L unit) : M L unit :=
  match xs with
  | [] => ret tt
  | x :: rest => body x ;; for_of rest body
  end.

(** [for (let i = from; i < from + xs.length; i++) body(i, xs[i - from])]. *)
Fixpoint for_index {L X : Type} (from : Z) (xs : list X) (body : Z -> X -> M L unit) : M L unit :=
  match xs with
  | [] => ret tt
  | x :: rest => body from x ;; for_index (from + 1) rest body
  end.

(** [await new Promise(resolve => setTimeout(resolve, ms))]. *)
Definition sleep {L : Type} (ms : Z) : M L unit := emit (Timeout ms).

Definition truthy (s : option string) : bool :=
  match s with
  | Some text => negb (String.eqb text "")
  | None => false
  end.

(** [a || b] on strings that may be [null]. *)
Definition or_else (a b : option string) : option string :=
  if truthy a then a else b.

(** [arr.join(sep)]. *)
Fixpoint join (sep : string) (parts : list string) : string :=
  match parts with
  | [] => ""
  | [part] => part
  | part :: rest => (part ++ sep ++ join sep rest)%string
  end.

(** [arr.map((x, index) => f(x, index))], the index counted from [from]. *)
Fixpoint map_index {X Y : Type} (from : Z) (f : X -> Z -> Y) (xs : list X) : list Y :=
  match xs with
  | [] => []
  | x :: rest => f x from :: map_index (from + 1) f rest
  end.

Definition len {X : Type} (xs : list X) : Z := Z.of_nat (List.length xs).

(** A call to a collaborator: it is recorded, then answered. *)
Definition invoke {L A : Type} (e : Event) (oracle : list Event -> JS.Outcome A) : M L A :=
  emit e ;; answer oracle.

Module DomainData.
Record t : Type := { domain : string; newUrls : list string; totalNew : Z }.
End DomainData.

(** The variables of a [/news] run. *)
Module NewsLocals.
Record t : Type :=
  { domainResults : JS.Map DomainData.t;
    allNewUrls : list string;
    processedCount : Z;
    errorCount : Z }.
End NewsLocals.

(** ** apps/telegram-bot.js: messages and the manual digest *)

Section TelegramBot.

Variable newURL : string -> JS.Outcome URL.
Variable telegramConfig : TelegramConfig.t.
Variable platform : Platform.

(** The request to the Bot API; [options] only shape the request body. *)
Definition sendMessage (chatId text : string) : M unit unit :=
  try_catch
    (emit (TelegramSendMessage chatId text) ;;
     ok <- answer (fun history => JS.Returned (telegram_ok platform history)) ;;
     if ok : bool then ret tt
     else error <- answer (fun history => JS.Returned (telegram_error platform history)) ;;
          throw error)
    (fun error => throw error).

Definition sendDocument (chatId document filename caption : string) : M unit unit :=
  try_catch
    (emit (TelegramSendDocument chatId document filename caption) ;;
     ok <- answer (fun history => JS.Returned (telegram_ok platform history)) ;;
     if ok : bool then ret tt
     else error <- answer (fun history => JS.Returned (telegram_error platform history)) ;;
          throw error)
    (fun error => throw error).

Definition rule : string := "------------------------------------".
Definition doubleRule : string := "====================================".

Definition numbered (url : string) (index : Z) : string :=
  (JS.show (index + 1) ++ ". " ++ url)%string.

Definition headerMessage (domain url : string) (newUrls : list string) : string :=
  ("✨ <b>" ++ domain ++ "</b> ✨" ++ JS.nl ++
   rule ++ JS.nl ++
   "发现新增内容！ (共 " ++ JS.show (len newUrls) ++ " 条)" ++ JS.nl ++
   "来源: " ++ url ++ JS.nl)%string.

Definition urlMessage (urlsToSend newUrls : list string) (maxUrlsToSend : Z) : string :=
  ("🔗 <b>新增链接 (" ++ JS.show (len urlsToSend) ++ "/" ++ JS.show (len newUrls) ++ ")</b>" ++ JS.nl ++
   join JS.nl (map_index 0 numbered urlsToSend) ++
   (if len newUrls >? maxUrlsToSend
    then JS.nl ++ JS.nl ++ "... 还有 " ++ JS.show (len newUrls - maxUrlsToSend) ++ " 个链接未显示"
    else ""))%string.

Definition endMessage (domain : string) : string :=
  ("✨ " ++ domain ++ " 更新推送完成 ✨" ++ JS.nl ++ rule)%string.

Definition sendUpdateNotification (url : string) (newUrls : option (list string))
    (sitemapContent targetChat : option string) (batchMode : bool) : M unit unit :=
  match or_else targetChat (TelegramConfig.targetChat telegramConfig) with
  | None => ret tt
  | Some chatId =>
      if String.eqb chatId "" then ret tt else
      urlObj <- answer (fun _ => newURL url) ;;
      let domain := hostname urlObj in
      match newUrls with
      | None => ret tt
      | Some newUrls =>
          if len newUrls =? 0 then ret tt else
          try_catch
            (match sitemapContent with
             | Some content =>
                 if String.eqb content "" then sendMessage chatId (headerMessage domain url newUrls)
                 else
                   now <- answer (fun history => JS.Returned (toISOString platform history)) ;;
                   let filename :=
                     (domain ++ "_sitemap_" ++ hd "" (JS.split "T" now) ++ ".xml")%string in
                   sendDocument chatId content filename (headerMessage domain url newUrls)
             | None => sendMessage chatId (headerMessage domain url newUrls)
             end ;;
             let maxUrlsToSend := if batchMode then Z.min 5 (len newUrls) else len newUrls in
             let urlsToSend := JS.slice newUrls 0 maxUrlsToSend in
             when (len urlsToSend >? 0)
               (sendMessage chatId (urlMessage urlsToSend newUrls maxUrlsToSend)) ;;
             sleep 500 ;;
             sendMessage chatId (endMessage domain))
            (fun _ => ret tt)
      end
  end.

(** *** The unified report *)

Definition byTotalNewDesc (a b : DomainData.t) : Z :=
  DomainData.totalNew b - DomainData.totalNew a.

Definition sampleLine (url : string) (index : Z) : string :=
  (JS.show (index + 1) ++ ". " ++ url ++ JS.nl)%string.

(** What one turn of the loop over [sortedDomains] appends. *)
Definition domainBlock (domainData : DomainData.t) : string :=
  let sampleUrls := JS.slice (DomainData.newUrls domainData) 0 3 in
  ("🌐 <b>" ++ DomainData.domain domainData ++ "</b>" ++ JS.nl ++
   "新增加 " ++ JS.show (DomainData.totalNew domainData) ++ " 个链接" ++ JS.nl ++
   "链接：" ++ JS.nl ++
   String.concat "" (map_index 0 sampleLine sampleUrls) ++
   (if len (DomainData.newUrls domainData) >? 3
    then "...(还有" ++ JS.show (len (DomainData.newUrls domainData) - 3) ++ "个)" ++ JS.nl
    else "") ++
   JS.nl)%string.

Definition noNewContent : string := ("暂无新增内容" ++ JS.nl ++ JS.nl)%string.

Definition sortedDomains (domainResults : JS.Map DomainData.t) : list DomainData.t :=
  JS.sort byTotalNewDesc
    (filter (fun domain => DomainData.totalNew domain >? 0) (List.map snd domainResults)).

(** The per-domain part of the report: the [if]/[else] on [domainResults.size]. *)
Definition domainBreakdown (domainResults : JS.Map DomainData.t) : string :=
  if JS.Map_size domainResults =? 0 then noNewContent
  else String.concat "" (List.map domainBlock (sortedDomains domainResults)).

Definition keywordLine (stat : KeywordStat.t) (index : Z) : string :=
  (JS.show (index + 1) ++ "、" ++ KeywordStat.keyword stat ++
   " (" ++ JS.show (KeywordStat.count stat) ++ "次)" ++ JS.nl)%string.

Definition keywordBlock (allNewUrls : list string) : string :=
  if len allNewUrls >? 0 then
    let keywordStats := extractKeywordsWithCount newURL allNewUrls in
    ("🏷️ <b>关键词汇总</b>" ++ JS.nl ++
     (if len keywordStats >? 0
      then String.concat "" (map_index 0 keywordLine (JS.slice keywordStats 0 10))
      else "未提取到有效关键词" ++ JS.nl))%string
  else
    ("🏷️ <b>关键词汇总</b>" ++ JS.nl ++ "本次检查无新增内容" ++ JS.nl)%string.

Definition reportHead (reportTime : string) (processedCount errorCount : Z) : string :=
  ("📊 <b>8小时监控汇总报告</b>" ++ JS.nl ++
   "统计日期：" ++ reportTime ++ JS.nl ++
   doubleRule ++ JS.nl ++ JS.nl ++
   "📈 <b>域名检查汇总</b>" ++ JS.nl ++
   "检查完成：" ++ JS.show processedCount ++ " 个sitemap" ++
   (if errorCount >? 0 then "，失败：" ++ JS.show errorCount ++ " 个" else "") ++
   JS.nl ++ JS.nl)%string.

Definition reportFoot (allNewUrls : list string) : string :=
  (JS.nl ++ doubleRule ++ JS.nl ++
   "📊 总计新增：" ++ JS.show (len allNewUrls) ++ " 个链接")%string.

Definition reportMessage (reportTime : string) (domainResults : JS.Map DomainData.t)
    (allNewUrls : list string) (processedCount errorCount : Z) : string :=
  (reportHead reportTime processedCount errorCount ++
   domainBreakdown domainResults ++
   keywordBlock allNewUrls ++
   reportFoot allNewUrls)%string.

Definition sendUnifiedReport (domainResults : JS.Map DomainData.t) (allNewUrls : list string)
    (processedCount errorCount : Z) (targetChat : option string) : M unit unit :=
  match or_else targetChat (TelegramConfig.targetChat telegramConfig) with
  | None => ret tt
  | Some chatId =>
      if String.eqb chatId "" then ret tt else
      try_catch
        (reportTime <-
           answer (fun history => JS.Returned (toLocaleStringOptions platform history)) ;;
         sendMessage chatId
           (reportMessage reportTime domainResults allNewUrls processedCount errorCount))
        (fun _ => ret tt)
  end.

(** *** The keyword summary of a scheduled pass *)

Definition keywordText (keywordStats : list KeywordStat.t) : string :=
  if len keywordStats >? 0 then
    join ", "
      (List.map
         (fun stat =>
            (KeywordStat.keyword stat ++ " (" ++ JS.show (KeywordStat.count stat) ++ "次)")%string)
         keywordStats)
  else "无关键词".

Definition domainText (domainStats : list DomainStat.t) : string :=
  if len domainStats >? 0 then
    join JS.nl
      (List.map
         (fun stat =>
            (DomainStat.domain stat ++ ": " ++ JS.show (DomainStat.count stat) ++ "条")%string)
         domainStats)
  else "无域名统计".

Definition summaryMessage (allNewUrls : list string) (now : string) : string :=
  let keywordStats := extractKeywordsWithCount newURL allNewUrls in
  let domainStats := extractDomainStats newURL allNewUrls in
  ("📊 <b>关键词汇总</b>" ++ JS.nl ++
   doubleRule ++ JS.nl ++
   "📈 总计新增: " ++ JS.show (len allNewUrls) ++ " 条" ++ JS.nl ++ JS.nl ++
   "🏷️ <b>热门关键词</b> (前10个):" ++ JS.nl ++ keywordText keywordStats ++ JS.nl ++ JS.nl ++
   "🌐 <b>域名分布</b>:" ++ JS.nl ++ domainText domainStats ++ JS.nl ++
   doubleRule ++ JS.nl ++
   "⏰ 时间: " ++ now)%string.

Definition sendKeywordsSummary (allNewUrls : option (list string))
    (targetChat : option string) : M unit unit :=
  match or_else targetChat (TelegramConfig.targetChat telegramConfig) with
  | None => ret tt
  | Some chatId =>
      if String.eqb chatId "" then ret tt else
      match allNewUrls with
      | None => ret tt
      | Some allNewUrls =>
          if len allNewUrls =? 0 then ret tt else
          try_catch
            (now <- answer (fun history => JS.Returned (toLocaleString platform history)) ;;
             sendMessage chatId (summaryMessage allNewUrls now))
            (fun _ => ret tt)
      end
  end.

(** *** [/news]: the manual digest over all feeds *)

Definition newsStart : NewsLocals.t :=
  {| NewsLocals.domainResults := [];
     NewsLocals.allNewUrls := [];
     NewsLocals.processedCount := 0;
     NewsLocals.errorCount := 0 |}.

Definition countProcessed (l : NewsLocals.t) : NewsLocals.t :=
  {| NewsLocals.domainResults := NewsLocals.domainResults l;
     NewsLocals.allNewUrls := NewsLocals.allNewUrls l;
     NewsLocals.processedCount := NewsLocals.processedCount l + 1;
     NewsLocals.errorCount := NewsLocals.errorCount l |}.

Definition countError (l : NewsLocals.t) : NewsLocals.t :=
  {| NewsLocals.domainResults := NewsLocals.domainResults l;
     NewsLocals.allNewUrls := NewsLocals.allNewUrls l;
     NewsLocals.processedCount := NewsLocals.processedCount l;
     NewsLocals.errorCount := NewsLocals.errorCount l + 1 |}.

Definition setDomain (domain : string) (data : DomainData.t) (l : NewsLocals.t) : NewsLocals.t :=
  {| NewsLocals.domainResults := JS.Map_set (NewsLocals.domainResults l) domain data;
     NewsLocals.allNewUrls := NewsLocals.allNewUrls l;
     NewsLocals.processedCount := NewsLocals.processedCount l;
     NewsLocals.errorCount := NewsLocals.errorCount l |}.

Definition pushNewUrls (newUrls : list string) (l : NewsLocals.t) : NewsLocals.t :=
  {| NewsLocals.domainResults := NewsLocals.domainResults l;
     NewsLocals.allNewUrls := NewsLocals.allNewUrls l ++ newUrls;
     NewsLocals.processedCount := NewsLocals.processedCount l;
     NewsLocals.errorCount := NewsLocals.errorCount l |}.

(** [domainData.newUrls.push(...newUrls); domainData.totalNew += newUrls.length]
    on the entry the map holds. *)
Definition addNewUrls (newUrls : list string) (domainData : DomainData.t) : DomainData.t :=
  {| DomainData.domain := DomainData.domain domainData;
     DomainData.newUrls := DomainData.newUrls domainData ++ newUrls;
     DomainData.totalNew := DomainData.totalNew domainData + len newUrls |}.

(** The body of the loop over the feeds, with its [try]/[catch]. *)
Definition checkForNews (rssManager : RSSManager) (url : string) : M NewsLocals.t unit :=
  try_catch
    (result <- invoke (CallDownloadSitemap url true)
                 (fun history => downloadSitemap rssManager history url true) ;;
     assign countProcessed ;;
     when (FeedResult.success result)
       (urlObj <- answer (fun _ => newURL url) ;;
        let domain := hostname urlObj in
        l <- locals ;;
        when (negb (JS.Map_has (NewsLocals.domainResults l) domain))
          (assign (setDomain domain
                     {| DomainData.domain := domain;
                        DomainData.newUrls := [];
                        DomainData.totalNew := 0 |})) ;;
        match FeedResult.newUrls result with
        | Some newUrls =>
            when (len newUrls >? 0)
              (l <- locals ;;
               match JS.Map_get (NewsLocals.domainResults l) domain with
               | Some domainData =>
                   assign (setDomain domain (addNewUrls newUrls domainData)) ;;
                   assign (pushNewUrls newUrls)
               | None => throw "TypeError"
               end)
        | None => ret tt
        end))
    (fun _ => assign countError).

Definition newsLoop (rssManager : RSSManager) (feeds : list string) : M NewsLocals.t unit :=
  for_of feeds (checkForNews rssManager).

Definition handleNewsCommand (chatId : string) (rssManager : RSSManager) : M unit unit :=
  call newsStart
    (try_catch
       (feeds <- invoke CallGetFeeds (getFeeds rssManager) ;;
        if len feeds =? 0 then call tt (sendMessage chatId "当前没有监控的sitemap")
        else
          call tt (sendMessage chatId "开始手动触发统一检查...") ;;
          newsLoop rssManager feeds ;;
          l <- locals ;;
          call tt (sendUnifiedReport (NewsLocals.domainResults l) (NewsLocals.allNewUrls l)
                     (NewsLocals.processedCount l) (NewsLocals.errorCount l) (Some chatId)))
       (fun _ => call tt (sendMessage chatId "处理新闻命令失败，请稍后重试"))).

End TelegramBot.

(** ** The worker entry point: the scheduled pass *)

Section Worker.

Variable newURL : string -> JS.Outcome URL.
Variable telegramConfig : TelegramConfig.t.
Variable platform : Platform.

(** The global [rssManager]: [null] until the application is initialised. *)
Variable rssManager : option RSSManager.

Definition BATCH_SIZE : Z := 25.
Definition PROCESSING_KEY : string := "monitoring_progress".

Definition kv_get (manager : RSSManager) (key : string) : M (list string) (option KvText) :=
  emit (CallKvGet key) ;;
  fun l w =>
    if kv_get_throws manager (trace w) then (JS.Thrown "KV get failed", l, w)
    else (JS.Returned (kv w key), l, w).

Definition kv_put (manager : RSSManager) (key : string) (value : KvText) : M (list string) unit :=
  emit (CallKvPut key value) ;;
  fun l w =>
    if kv_put_throws manager (trace w) then (JS.Thrown "KV put failed", l, w)
    else (JS.Returned tt, l, store key value w).

Definition JSON_parse (text : KvText) : M (list string) Progress.t :=
  match text with
  | ProgressJSON progress => ret progress
  | NotJSON _ => throw "SyntaxError"
  end.

(** Lines 72 to 81: the stored position, 0 when there is none or when
    reading it throws. *)
Definition readLastIndex (manager : RSSManager) : M (list string) Z :=
  try_catch
    (progressData <- kv_get manager PROCESSING_KEY ;;
     match progressData with
     | Some (NotJSON "") | None => ret 0
     | Some text =>
         progress <- JSON_parse text ;;
         ret (JS.or_zero (Some (Progress.lastIndex progress)))
     end)
    (fun _ => ret 0).

Definition endIndexOf (batchSize : Z) (feeds : list string) (startIndex : Z) : Z :=
  Z.min (startIndex + batchSize) (len feeds).

Definition nextIndexOf (feeds : list string) (endIndex : Z) : Z :=
  if endIndex >=? len feeds then 0 else endIndex.

(** The body of the loop over the batch, with its [try]/[catch]; the local
    variable is [allNewUrls]. *)
Definition checkFeed (manager : RSSManager) (currentBatch : list string)
    (i : Z) (url : string) : M (list string) unit :=
  try_catch
    (result <- invoke (CallAddFeed url) (fun history => addFeed manager history url) ;;
     (if FeedResult.success result then
        sitemapContent <-
          (if FeedResult.datedFile result then
             urlObj <- answer (fun _ => newURL url) ;;
             let domain := hostname urlObj in
             invoke (CallGetSitemapContent domain "dated")
               (fun history => getSitemapContent manager history domain "dated")
           else ret None) ;;
        match FeedResult.newUrls result with
        | Some newUrls =>
            if len newUrls >? 0 then
              call tt (sendUpdateNotification newURL telegramConfig platform
                         url (Some newUrls) sitemapContent None false) ;;
              assign (fun allNewUrls => allNewUrls ++ newUrls)
            else ret tt
        | None => ret tt
        end
      else ret tt) ;;
     when (i <? len currentBatch - 1) (sleep 200))
    (fun _ => ret tt).

Definition monitoringLoop (manager : RSSManager) (currentBatch : list string) : M (list string) unit :=
  for_index 0 currentBatch (checkFeed manager currentBatch).

Definition saveProgress (manager : RSSManager) (nextIndex : Z) (feeds currentBatch : list string)
    : M (list string) unit :=
  try_catch
    (now <- answer (fun history => JS.Returned (toISOString platform history)) ;;
     kv_put manager PROCESSING_KEY
       (ProgressJSON {| Progress.lastIndex := nextIndex;
                        Progress.lastUpdate := now;
                        Progress.totalFeeds := len feeds;
                        Progress.processedInThisBatch := len currentBatch |}))
    (fun _ => ret tt).

(** The pass, the batch size of line 68 taken as a parameter. *)
Definition performScheduledMonitoringWith (batchSize : Z) : M unit unit :=
  call ([] : list string)
    (try_catch
       (match rssManager with
        | None => ret tt
        | Some manager =>
            feeds <- invoke CallGetFeeds (getFeeds manager) ;;
            if len feeds =? 0 then ret tt
            else
              lastIndex <- readLastIndex manager ;;
              let startIndex := lastIndex in
              let endIndex := endIndexOf batchSize feeds startIndex in
              let currentBatch := JS.slice feeds startIndex endIndex in
              monitoringLoop manager currentBatch ;;
              let nextIndex := nextIndexOf feeds endIndex in
              saveProgress manager nextIndex feeds currentBatch ;;
              allNewUrls <- locals ;;
              when (len allNewUrls >? 0)
                (call tt (sendKeywordsSummary newURL telegramConfig platform
                            (Some allNewUrls) None))
        end)
       (fun _ => ret tt)).

Definition performScheduledMonitoring : M unit unit :=
  performScheduledMonitoringWith BATCH_SIZE.

End Worker.

(** ** apps/telegram-bot.js: the webhook and its commands *)

Module Sender.
(** [message.from]. *)
Record t : Type := { username : option string; id : string; first_name : option string }.
End Sender.

Module Message.
(** [update.message]: [chat_id] is [message.chat.id]; [from] may be missing,
    and is then [undefined]. *)
Record t : Type := { text : option string; chat_id : string; from : option Sender.t }.
End Message.

Module Update.
Record t : Type := { message : option Message.t }.
End Update.

Module HandlerResult.
(** [{ success, error }]. *)
Record t : Type := { success : bool; error : option string }.
End HandlerResult.

(** [s.includes(needle)]. *)
Fixpoint includes_text (needle s : string) : bool :=
  String.prefix needle s
  || match s with
     | EmptyString => false
     | String _ rest => includes_text needle rest
     end.

(** The message of the [TypeError] that V8, the engine of the Workers runtime,
    throws for reading [property] of [value], which is [null] or [undefined]. *)
Definition cannotRead (value property : string) : string :=
  ("Cannot read properties of " ++ value ++ " (reading '" ++ property ++ "')")%string.

Section Webhook.

Variable newURL : string -> JS.Outcome URL.
Variable telegramConfig : TelegramConfig.t.
Variable platform : Platform.

(** [String.prototype.trim]. *)
Variable trim : string -> string.

(** [rssManager.removeFeed(url)]; the call leaves no mark in the trace. *)
Variable removeFeed : list Event -> string -> JS.Outcome FeedResult.t.

Definition rssHelp : string :=
  ("请使用以下命令：" ++ JS.nl ++
   "/rss list - 显示所有监控的sitemap" ++ JS.nl ++
   "/rss add URL - 添加sitemap监控（URL必须以sitemap.xml结尾）" ++ JS.nl ++
   "/rss del URL - 删除sitemap监控")%string.

Definition feedListMessage (feeds : list string) : string :=
  let feedList := join JS.nl (List.map (fun feed => ("- " ++ feed)%string) feeds) in
  ("当前RSS订阅总数" ++ JS.show (len feeds) ++ "个,列表：" ++ JS.nl ++ feedList)%string.

Definition handleRSSCommand (chatId : string) (args : list string)
    (rssManager : option RSSManager) : M unit unit :=
  match args with
  | [] => sendMessage platform chatId rssHelp
  | first :: rest =>
      let cmd := JS.toLowerCase first in
      if String.eqb cmd "list" then
        match rssManager with
        | None => throw (cannotRead "null" "getFeeds")
        | Some manager =>
            feeds <- invoke CallGetFeeds (getFeeds manager) ;;
            if len feeds =? 0 then sendMessage platform chatId "当前没有RSS订阅"
            else sendMessage platform chatId (feedListMessage feeds)
        end
      else if String.eqb cmd "add" then
        match rest with
        | [] =>
            sendMessage platform chatId
              ("请提供sitemap.xml的URL" ++ JS.nl
               ++ "例如：/rss add https://example.com/sitemap.xml")%string
        | url :: _ =>
            if negb (includes_text "sitemap" (JS.toLowerCase url)) then
              sendMessage platform chatId "URL必须包含sitemap关键词"
            else
              match rssManager with
              | None => throw (cannotRead "null" "addFeed")
              | Some manager =>
                  result <- invoke (CallAddFeed url) (fun history => addFeed manager history url) ;;
                  if FeedResult.success result then
                    sendMessage platform chatId ("成功添加sitemap监控：" ++ url)%string ;;
                    sendUpdateNotification newURL telegramConfig platform
                      url (FeedResult.newUrls result) None (Some chatId) false
                  else
                    sendMessage platform chatId
                      ("添加sitemap监控失败：" ++ url ++ JS.nl
                       ++ "原因：" ++ FeedResult.errorMsg result)%string
              end
        end
      else if String.eqb cmd "del" then
        match rest with
        | [] =>
            sendMessage platform chatId
              ("请提供要删除的RSS订阅链接" ++ JS.nl
               ++ "例如：/rss del https://example.com/feed.xml")%string
        | delUrl :: _ =>
            match rssManager with
            | None => throw (cannotRead "null" "removeFeed")
            | Some _ =>
                delResult <- answer (fun history => removeFeed history delUrl) ;;
                if FeedResult.success delResult then
                  sendMessage platform chatId ("成功删除RSS订阅：" ++ delUrl)%string
                else
                  sendMessage platform chatId
                    ("删除RSS订阅失败：" ++ delUrl ++ JS.nl
                     ++ "原因：" ++ FeedResult.errorMsg delResult)%string
            end
        end
      else sendMessage platform chatId "未知的RSS命令，请使用 /rss 查看帮助"
  end.

Definition helpMessage (first_name : option string) : string :=
  ("Hello, " ++ (if truthy first_name
                 then match first_name with Some name => name | None => "" end
                 else "User") ++ "!" ++ JS.nl ++ JS.nl ++
   "这是一个站点监控机器人，支持以下命令：" ++ JS.nl ++
   "/rss list - 显示所有监控的sitemap" ++ JS.nl ++
   "/rss add URL - 添加sitemap监控" ++ JS.nl ++
   "/rss del URL - 删除sitemap监控" ++ JS.nl ++
   "/news - 手动触发关键词汇总")%string.

(** [handleNewsCommand(chatId, rssManager)] on a manager that may be [null]:
    reading the feeds of [null] throws inside its [try], which leaves the
    failure notice. *)
Definition newsCommand (chatId : string) (rssManager : option RSSManager) : M unit unit :=
  match rssManager with
  | Some manager => handleNewsCommand newURL telegramConfig platform chatId manager
  | None => sendMessage platform chatId "处理新闻命令失败，请稍后重试"
  end.

Definition handled : HandlerResult.t :=
  {| HandlerResult.success := true; HandlerResult.error := None |}.

Definition failed (message : string) : HandlerResult.t :=
  {| HandlerResult.success := false; HandlerResult.error := Some message |}.

(** The [switch] on the command word. *)
Definition runCommand (chatId text : string) (sender : Sender.t)
    (rssManager : option RSSManager) : M unit unit :=
  let parts := JS.split " " text in
  let command := JS.toLowerCase (hd "" parts) in
  let args := skipn 1 parts in
  if String.eqb command "/start" || String.eqb command "/help" then
    sendMessage platform chatId (helpMessage (Sender.first_name sender))
  else if String.eqb command "/rss" then handleRSSCommand chatId args rssManager
  else if String.eqb command "/news" then newsCommand chatId rssManager
  else sendMessage platform chatId "未知命令，请使用 /help 查看帮助".

Definition handleTelegramUpdate (update : Update.t) (rssManager : option RSSManager)
    : M unit HandlerResult.t :=
  try_catch
    (match Update.message update with
     | None => ret handled
     | Some message =>
         match Message.text message with
         | None => ret handled
         | Some rawText =>
             if String.eqb rawText "" then ret handled
             else
               let text := trim rawText in
               let chatId := Message.chat_id message in
               match Message.from message with
               | None => throw (cannotRead "undefined" "username")
               | Some sender =>
                   when (String.prefix "/" text) (runCommand chatId text sender rssManager) ;;
                   ret handled
               end
         end
     end)
    (fun error => ret (failed error)).

End Webhook.

(** ** Vocabulary of the properties *)

(** The comparator of a sort on a numeric key, largest first. *)
Definition descending {A : Type} (key : A -> Z) (a b : A) : Z := key b - key a.

(** [a] goes in front of [b]: a larger key, or the same key and a smaller rank. *)
Definition ahead {A : Type} (key : A -> Z) (rank : A -> nat) (a b : A) : Prop :=
  key a > key b \/ (key a = key b /\ (rank a < rank b)%nat).

Section KeywordVocabulary.

Variable newURL : string -> JS.Outcome URL.

Definition parses (url : string) : bool :=
  match newURL url with
  | JS.Returned _ => true
  | JS.Thrown _ => false
  end.

(** The keyword a path segment is counted under, if it is counted. *)
Definition segmentKeywords (segment : string) : list string :=
  List.map fst (countSegment [] segment).

(** The keywords in the order the two loops meet them, with repetitions. *)
Definition keywordOccurrences (urls : list string) : list string :=
  flat_map
    (fun url =>
       match newURL url with
       | JS.Returned urlObj =>
           flat_map segmentKeywords
             (filter (fun segment => (2 <? String.length segment)%nat)
                (JS.split "/" (pathname urlObj)))
       | JS.Thrown _ => []
       end)
    urls.

End KeywordVocabulary.

(** The position at which [keyword] is first met in [occurrences]. *)
Fixpoint firstSeen (keyword : string) (occurrences : list string) : nat :=
  match occurrences with
  | [] => 0
  | k :: rest => if String.eqb k keyword then 0 else S (firstSeen keyword rest)
  end.

Definition wellFormed (stat : KeywordStat.t) : Prop :=
  JS.toLowerCase (KeywordStat.keyword stat) = KeywordStat.keyword stat
  /\ JS.includes "-" (KeywordStat.keyword stat) = false
  /\ (2 < String.length (KeywordStat.keyword stat))%nat
  /\ 1 <= KeywordStat.count stat.

(** *** Reading the trace of a run *)

(** The feeds handed to [addFeed], in order. *)
Definition inspected (history : list Event) : list string :=
  flat_map (fun e => match e with CallAddFeed url => [url] | _ => [] end) history.

(** The feeds handed to [downloadSitemap], in order. *)
Definition downloaded (history : list Event) : list string :=
  flat_map (fun e => match e with CallDownloadSitemap url _ => [url] | _ => [] end) history.

(** The values handed to the store's [put], in order. *)
Definition writes (history : list Event) : list (string * KvText) :=
  flat_map (fun e => match e with CallKvPut key value => [(key, value)] | _ => [] end) history.

Definition notification (e : Event) : bool :=
  match e with
  | TelegramSendMessage _ _ | TelegramSendDocument _ _ _ _ => true
  | _ => false
  end.

(** What went out to the chat, in order. *)
Definition notifications (history : list Event) : list Event :=
  filter notification history.

(** The events next to a feed check: content fetches, messages, pauses. *)
Definition ancillary (e : Event) : bool :=
  match e with
  | CallGetSitemapContent _ _ | TelegramSendMessage _ _
  | TelegramSendDocument _ _ _ _ | Timeout _ => true
  | _ => false
  end.

(** [w'] is [w] after some events that all satisfy [ok], the store untouched. *)
Definition extends (ok : Event -> bool) (w w' : World) : Prop :=
  kv w' = kv w /\ exists events, trace w' = trace w ++ events /\ forallb ok events = true.

(** Code that neither touches the store nor emits an event outside [ok]. *)
Definition quiet {L A : Type} (ok : Event -> bool) (m : M L A) : Prop :=
  forall l w, extends ok w (snd (m l w)).

(** The position a pass starts from when the store holds [data]. *)
Definition lastIndexFrom (data : option KvText) : Z :=
  match data with
  | Some (ProgressJSON progress) => JS.or_zero (Some (Progress.lastIndex progress))
  | _ => 0
  end.

(** *** A sample deployment

    Collaborators that always answer: every feed check succeeds with the
    same new URLs, the store and Telegram never fail, the clock stands
    still. *)

Definition sampleConfig : TelegramConfig.t :=
  {| TelegramConfig.token := "token"; TelegramConfig.targetChat := Some "chat" |}.

Definition samplePlatform : Platform :=
  {| telegram_ok := fun _ => true;
     telegram_error := fun _ => "";
     toISOString := fun _ => "2024-01-02T03:04:05.000Z";
     toLocaleString := fun _ => "2024/1/2 03:04:05";
     toLocaleStringOptions := fun _ => "2024/01/02 03:04:05" |}.

Definition sampleResult (newUrls : list string) : FeedResult.t :=
  {| FeedResult.success := true;
     FeedResult.datedFile := false;
     FeedResult.newUrls := Some newUrls;
     FeedResult.errorMsg := "" |}.

Definition sampleManager (feeds newUrls : list string) : RSSManager :=
  {| getFeeds := fun _ => JS.Returned feeds;
     addFeed := fun _ _ => JS.Returned (sampleResult newUrls);
     downloadSitemap := fun _ _ _ => JS.Returned (sampleResult newUrls);
     getSitemapContent := fun _ _ _ => JS.Returned None;
     kv_get_throws := fun _ => false;
     kv_put_throws := fun _ => false |}.

Definition sampleFeeds : list string :=
  ["https://a.com/sitemap.xml"; "https://b.com/sitemap.xml"; "https://c.com/sitemap.xml"].

Definition sampleProgress (lastIndex totalFeeds : Z) : Progress.t :=
  {| Progress.lastIndex := lastIndex;
     Progress.lastUpdate := "2024-01-01T00:00:00.000Z";
     Progress.totalFeeds := totalFeeds;
     Progress.processedInThisBatch := 0 |}.

(** A fresh run over a store that holds [progress] under the progress key. *)
Definition worldWith (progress : Progress.t) : World :=
  {| kv := fun key =>
             if String.eqb key "monitoring_progress" then Some (ProgressJSON progress) else None;
     trace := [] |}.

Definition emptyWorld : World := {| kv := fun _ => None; trace := [] |}.

(** *** Several passes in a row, and further sample collaborators *)

Section Cycle.

Variable newURL : string -> JS.Outcome URL.
Variable telegramConfig : TelegramConfig.t.
Variable platform : Platform.
Variable rssManager : option RSSManager.
Variable batchSize : Z.

(** The world after [n] passes run one after the other. *)
Fixpoint passes (n : nat) (w : World) : World :=
  match n with
  | O => w
  | S k =>
      snd (performScheduledMonitoringWith newURL telegramConfig platform rssManager
             batchSize tt (passes k w))
  end.

End Cycle.

(** The number of passes from position [i] to the end of [L] feeds. *)
Definition passesToWrap (batchSize L i : Z) : nat :=
  Z.to_nat ((L - i + batchSize - 1) / batchSize).

(** A feed check that brings nothing to announce: it failed, or it has no
    new URL. *)
Definition noNews (result : FeedResult.t) : bool :=
  negb (FeedResult.success result)
  || match FeedResult.newUrls result with
     | Some (_ :: _) => false
     | _ => true
     end.

(** The feeds handed to [downloadSitemap], each with its [forceRefresh]. *)
Definition refreshes (history : list Event) : list (string * bool) :=
  flat_map
    (fun e => match e with CallDownloadSitemap url force => [(url, force)] | _ => [] end)
    history.

(** A manager whose feed list cannot be read. *)
Definition unreachableManager : RSSManager :=
  {| getFeeds := fun _ => JS.Thrown "KV unavailable";
     addFeed := fun _ _ => JS.Thrown "unreachable";
     downloadSitemap := fun _ _ _ => JS.Thrown "unreachable";
     getSitemapContent := fun _ _ _ => JS.Thrown "unreachable";
     kv_get_throws := fun _ => true;
     kv_put_throws := fun _ => true |}.

(** A manager over a store that refuses every write. *)
Definition readOnlyManager (feeds newUrls : list string) : RSSManager :=
  {| getFeeds := fun _ => JS.Returned feeds;
     addFeed := fun _ _ => JS.Returned (sampleResult newUrls);
     downloadSitemap := fun _ _ _ => JS.Returned (sampleResult newUrls);
     getSitemapContent := fun _ _ _ => JS.Returned None;
     kv_get_throws := fun _ => false;
     kv_put_throws := fun _ => true |}.

(** A deployment without a target chat. *)
Definition unconfigured : TelegramConfig.t :=
  {| TelegramConfig.token := "token"; TelegramConfig.targetChat := None |}.

(** A platform on which every request to Telegram fails. *)
Definition offlinePlatform : Platform :=
  {| telegram_ok := fun _ => false;
     telegram_error := fun _ => "HTTP 502: Bad Gateway";
     toISOString := fun _ => "2024-01-02T03:04:05.000Z";
     toLocaleString := fun _ => "2024/1/2 03:04:05";
     toLocaleStringOptions := fun _ => "2024/01/02 03:04:05" |}.

(** A manager over a store that never fails and a feed list that stays the
    same. *)
Definition reliable (manager : RSSManager) (feeds : list string) : Prop :=
  (forall history, getFeeds manager history = JS.Returned feeds)
  /\ (forall history, kv_get_throws manager history = false)
  /\ (forall history, kv_put_throws manager history = false).

(** Events that are not requests to Telegram. *)
Definition offChat (e : Event) : bool := negb (notification e).

(** The host names in the order the domain loop meets them, with repetitions. *)
Definition hostOccurrences (newURL : string -> JS.Outcome URL) (urls : list string)
    : list string :=
  flat_map
    (fun url =>
       match newURL url with
       | JS.Returned urlObj => [hostname urlObj]
       | JS.Thrown _ => []
       end)
    urls.

(** The sum of a list of counts. *)
Definition total (counts : list Z) : Z := fold_right Z.add 0 counts.

(** The first request of an update notification: the header, as the caption
    of the sitemap file when there is one. *)
Definition announcement (platform : Platform) (history : list Event)
    (chatId domain url : string) (newUrls : list string) (sitemapContent : option string)
    : Event :=
  match sitemapContent with
  | Some content =>
      if String.eqb content "" then TelegramSendMessage chatId (headerMessage domain url newUrls)
      else
        TelegramSendDocument chatId content
          (domain ++ "_sitemap_" ++ hd "" (JS.split "T" (toISOString platform history))
           ++ ".xml")%string
          (headerMessage domain url newUrls)
  | None => TelegramSendMessage chatId (headerMessage domain url newUrls)
  end.

(** How many links an update notification lists. *)
Definition linkLimit (batchMode : bool) (newUrls : list string) : Z :=
  if batchMode then Z.min 5 (len newUrls) else len newUrls.

(** *** The books of a [/news] run *)

(** Every entry sits under its own domain and counts the links it holds. *)
Definition consistent (domainResults : JS.Map DomainData.t) : Prop :=
  Forall
    (fun entry =>
       DomainData.domain (snd entry) = fst entry
       /\ DomainData.totalNew (snd entry) = len (DomainData.newUrls (snd entry)))
    domainResults.

(** The new links over all domains. *)
Definition totalNewOf (domainResults : JS.Map DomainData.t) : Z :=
  total (List.map (fun entry => DomainData.totalNew (snd entry)) domainResults).

(** The variables of the run agree with each other. *)
Definition tidy (l : NewsLocals.t) : Prop :=
  consistent (NewsLocals.domainResults l)
  /\ NoDup (List.map fst (NewsLocals.domainResults l))
  /\ totalNewOf (NewsLocals.domainResults l) = len (NewsLocals.allNewUrls l).

(** The forced downloads of a list of feeds, in order. *)
Definition forcedDownloads (feeds : list string) : list Event :=
  List.map (fun url => CallDownloadSitemap url true) feeds.

(** What one turn of the [/news] loop does to the variables of the run. *)
Definition turnOf (l l' : NewsLocals.t) : Prop :=
  (tidy l -> tidy l')
  /\ NewsLocals.processedCount l <= NewsLocals.processedCount l'
     <= NewsLocals.processedCount l + 1
  /\ NewsLocals.errorCount l <= NewsLocals.errorCount l' <= NewsLocals.errorCount l + 1
  /\ NewsLocals.processedCount l + NewsLocals.errorCount l + 1
     <= NewsLocals.processedCount l' + NewsLocals.errorCount l'.

(** *** Reading a webhook run *)

(** Events that neither check a feed nor touch the progress store. *)
Definition benign (e : Event) : bool :=
  match e with
  | CallGetFeeds | CallGetSitemapContent _ _ | TelegramSendMessage _ _
  | TelegramSendDocument _ _ _ _ | Timeout _ => true
  | _ => false
  end.

(** The feed that [/rss] hands to [addFeed], if any. *)
Definition feedToAdd (args : list string) : list string :=
  match args with
  | first :: url :: _ =>
      if String.eqb (JS.toLowerCase first) "add"
         && includes_text "sitemap" (JS.toLowerCase url)
      then [url] else []
  | _ => []
  end.

(** Trimming of text whose white space is blanks only. *)
Fixpoint dropBlanks (s : string) : string :=
  match s with
  | String c rest => if Ascii.eqb c " " then dropBlanks rest else s
  | EmptyString => EmptyString
  end.

Fixpoint reverseText (s acc : string) : string :=
  match s with
  | EmptyString => acc
  | String c rest => reverseText rest (String c acc)
  end.

Definition trimBlanks (s : string) : string :=
  reverseText (dropBlanks (reverseText (dropBlanks s) "")) "".

Definition sampleUpdate (text : string) : Update.t :=
  {| Update.message :=
       Some {| Message.text := Some text;
               Message.chat_id := "chat";
               Message.from := Some {| Sender.username := Some "user";
                                       Sender.id := "1";
                                       Sender.first_name := None |} |} |}.

Definition sampleRemoveFeed : list Event -> string -> JS.Outcome FeedResult.t :=
  fun _ _ => JS.Returned (sampleResult []).

(** What the handler owes its caller for a command that ended in [outcome]. *)
Definition verdict (outcome : JS.Outcome unit) : HandlerResult.t :=
  match outcome with
  | JS.Returned _ => handled
  | JS.Thrown message => failed message
  end.

(** A platform on which the first request to Telegram fails with a
    [TypeError] of [fetch], and every later one succeeds. *)
Definition firstRefused : Platform :=
  {| telegram_ok := fun history => negb (len (notifications history) =? 1);
     telegram_error := fun _ => "fetch failed";
     toISOString := fun _ => "2024-01-02T03:04:05.000Z";
     toLocaleString := fun _ => "2024/1/2 03:04:05";
     toLocaleStringOptions := fun _ => "2024/01/02 03:04:05" |}.

(** *** The pauses between feeds *)

(** The 200 ms pause of the scheduled loop. *)
Definition pause200 (e : Event) : bool :=
  match e with
  | Timeout ms => ms =? 200
  | _ => false
  end.

Definition pauses (history : list Event) : Z := len (filter pause200 history).



(** * Properties *)

(** ** Lists, slices and the stable sort *)

Lemma In_firstn {A : Type} (n : nat) (l : list A) (x : A) :
  In x (firstn n l) -> In x l.
Proof.
  revert l. induction n as [| n IH]; intros [| a l]; simpl; try tauto.
  intros [-> | H]; auto.
Qed.

Lemma In_skipn {A : Type} (n : nat) (l : list A) (x : A) :
  In x (skipn n l) -> In x l.
Proof.
  revert l. induction n as [| n IH]; intros [| a l]; simpl; try tauto.
  intros H. right. now apply IH.
Qed.

Lemma slice_incl {A : Type} (arr : list A) (start stop : Z) (x : A) :
  In x (JS.slice arr start stop) -> In x arr.
Proof.
  unfold JS.slice. intros H.
  apply In_firstn in H. now apply In_skipn in H.
Qed.

Lemma slice_from_0 {A : Type} (arr : list A) (n : nat) :
  JS.slice arr 0 (Z.of_nat n) = firstn n arr.
Proof.
  unfold JS.slice.
  replace (0 <? 0) with false by reflexivity.
  replace (Z.of_nat n <? 0) with false by (symmetry; apply Z.ltb_ge; lia).
  rewrite (Z.min_l 0) by lia. simpl skipn. rewrite Z.sub_0_r.
  destruct (Z.le_ge_cases (Z.of_nat n) (Z.of_nat (List.length arr))) as [Hle | Hge].
  - rewrite Z.min_l by lia. now rewrite Nat2Z.id.
  - rewrite Z.min_r by lia. rewrite Nat2Z.id.
    rewrite firstn_all. symmetry. apply firstn_all2. lia.
Qed.

(** Inside the array, [slice] is the contiguous run from [start] up to [stop]. *)
Lemma slice_inside {A : Type} (arr : list A) (start stop : Z) :
  0 <= start -> 0 <= stop <= Z.of_nat (List.length arr) ->
  JS.slice arr start stop
  = firstn (Z.to_nat (stop - start)) (skipn (Z.to_nat start) arr).
Proof.
  intros Hs He. unfold JS.slice.
  replace (start <? 0) with false by (symmetry; apply Z.ltb_ge; lia).
  replace (stop <? 0) with false by (symmetry; apply Z.ltb_ge; lia).
  rewrite (Z.min_l stop) by lia.
  destruct (Z.le_ge_cases start (Z.of_nat (List.length arr))) as [Hle | Hge].
  - now rewrite Z.min_l by lia.
  - rewrite Z.min_r by lia.
    replace (Z.to_nat (stop - Z.of_nat (List.length arr))) with 0%nat by lia.
    replace (Z.to_nat (stop - start)) with 0%nat by lia.
    reflexivity.
Qed.

(** A start at or beyond the stop selects nothing. *)
Lemma slice_empty {A : Type} (arr : list A) (start stop : Z) :
  0 <= stop <= start -> JS.slice arr start stop = [].
Proof.
  intros H. unfold JS.slice.
  replace (start <? 0) with false by (symmetry; apply Z.ltb_ge; lia).
  replace (stop <? 0) with false by (symmetry; apply Z.ltb_ge; lia).
  replace (Z.to_nat (Z.min stop (Z.of_nat (List.length arr)) - Z.min start (Z.of_nat (List.length arr))))
    with 0%nat by lia.
  reflexivity.
Qed.

Lemma sort_insert_In {A : Type} (compareFn : A -> A -> Z) (a x : A) (sorted : list A) :
  In x (JS.sort_insert compareFn a sorted) <-> x = a \/ In x sorted.
Proof.
  induction sorted as [| b rest IH]; simpl.
  - intuition congruence.
  - destruct (compareFn a b <=? 0); simpl.
    + intuition congruence.
    + rewrite IH. intuition congruence.
Qed.

Lemma sort_In {A : Type} (compareFn : A -> A -> Z) (x : A) (arr : list A) :
  In x (JS.sort compareFn arr) <-> In x arr.
Proof.
  induction arr as [| a rest IH]; simpl.
  - tauto.
  - rewrite sort_insert_In, IH. intuition congruence.
Qed.

Lemma StronglySorted_firstn {A : Type} (R : A -> A -> Prop) (n : nat) (l : list A) :
  StronglySorted R l -> StronglySorted R (firstn n l).
Proof.
  revert l. induction n as [| n IH]; intros l H; simpl.
  - constructor.
  - destruct l as [| a l]; [constructor |].
    inversion H as [| ? ? Hl Ha]; subst.
    constructor; [now apply IH |].
    rewrite Forall_forall in *. intros x Hx. apply Ha. now apply In_firstn in Hx.
Qed.

Lemma StronglySorted_nth_error {A : Type} (R : A -> A -> Prop) (l : list A) :
  StronglySorted R l ->
  forall (i j : nat) (a b : A),
    (i < j)%nat -> nth_error l i = Some a -> nth_error l j = Some b -> R a b.
Proof.
  induction 1 as [| x l Hl IH Hx]; intros i j a b Hij Hi Hj.
  - destruct i; discriminate.
  - destruct j as [| j]; [lia |]. simpl in Hj.
    destruct i as [| i]; simpl in Hi.
    + injection Hi as <-. rewrite Forall_forall in Hx. apply Hx.
      eapply nth_error_In; eauto.
    + apply (IH i j a b); [lia | assumption | assumption].
Qed.

Lemma StronglySorted_map {A B : Type} (R : B -> B -> Prop) (f : A -> B) (l : list A) :
  StronglySorted (fun x y => R (f x) (f y)) l -> StronglySorted R (List.map f l).
Proof.
  induction 1 as [| x l Hl IH Hx]; simpl; constructor; auto.
  rewrite Forall_forall in *. intros y Hy.
  apply in_map_iff in Hy as [z [<- Hz]]. now apply Hx.
Qed.

(** The sort on a descending numeric key: what came first stays first among
    equal keys. [rank] is any measure that grows along the input. *)
Section StableSort.

Variable A : Type.
Variable key : A -> Z.
Variable rank : A -> nat.

Lemma sort_insert_ahead (a : A) (sorted : list A) :
  StronglySorted (ahead key rank) sorted ->
  Forall (fun b => (rank a < rank b)%nat) sorted ->
  StronglySorted (ahead key rank) (JS.sort_insert (descending key) a sorted).
Proof.
  induction 1 as [| b rest Hrest IH Hb]; intros Hrank; simpl.
  - repeat constructor.
  - inversion Hrank as [| ? ? Hab Hrank']; subst.
    destruct (descending key a b <=? 0) eqn:Hcmp; unfold descending in Hcmp.
    + apply Z.leb_le in Hcmp.
      constructor; [now constructor |].
      constructor.
      * unfold ahead. lia.
      * rewrite Forall_forall in *. intros c Hc.
        specialize (Hb c Hc). specialize (Hrank' c Hc). unfold ahead in *. lia.
    + apply Z.leb_gt in Hcmp.
      constructor; [now apply IH |].
      rewrite Forall_forall in *. intros c Hc.
      apply sort_insert_In in Hc as [-> | Hc].
      * unfold ahead. lia.
      * now apply Hb.
Qed.

Lemma sort_ahead (arr : list A) :
  StronglySorted (fun a b => (rank a < rank b)%nat) arr ->
  StronglySorted (ahead key rank) (JS.sort (descending key) arr).
Proof.
  induction 1 as [| a rest Hrest IH Ha]; simpl.
  - constructor.
  - apply sort_insert_ahead; [exact IH |].
    rewrite Forall_forall in *. intros b Hb.
    apply sort_In in Hb. now apply Ha.
Qed.

End StableSort.

Lemma StronglySorted_unmap {A B : Type} (R : B -> B -> Prop) (f : A -> B) (l : list A) :
  StronglySorted R (List.map f l) -> StronglySorted (fun x y => R (f x) (f y)) l.
Proof.
  induction l as [| a l IH]; simpl; intros H.
  - constructor.
  - inversion H as [| ? ? Hl Ha]; subst. constructor; [now apply IH |].
    rewrite Forall_forall in *. intros y Hy. apply Ha. now apply in_map.
Qed.

Lemma StronglySorted_within {A : Type} (R R' : A -> A -> Prop) (l : list A) :
  (forall a b, In a l -> In b l -> R a b -> R' a b) ->
  StronglySorted R l -> StronglySorted R' l.
Proof.
  intros Hsub H. induction H as [| a l Hl IH Ha].
  - constructor.
  - constructor.
    + apply IH. intros x y Hx Hy. apply Hsub; now right.
    + rewrite Forall_forall in *. intros y Hy.
      apply Hsub; [now left | now right | now apply Ha].
Qed.

Lemma StronglySorted_snoc {A : Type} (R : A -> A -> Prop) (l : list A) (z : A) :
  StronglySorted R l -> Forall (fun a => R a z) l -> StronglySorted R (l ++ [z]).
Proof.
  induction 1 as [| a l Hl IH Ha]; intros Hz; simpl.
  - repeat constructor.
  - inversion Hz as [| ? ? Haz Hz']; subst.
    constructor; [now apply IH |].
    apply Forall_app. split; [exact Ha | now repeat constructor].
Qed.

Lemma fold_left_flat_map {A B C : Type} (f : A -> C -> A) (g : B -> list C)
    (l : list B) (acc : A) :
  fold_left (fun a x => fold_left f (g x) a) l acc = fold_left f (flat_map g l) acc.
Proof.
  revert acc. induction l as [| x l IH]; intros acc; simpl.
  - reflexivity.
  - now rewrite fold_left_app, IH.
Qed.

Lemma fold_left_ext_in {A B : Type} (f g : A -> B -> A) (l : list B) (acc : A) :
  (forall a x, In x l -> f a x = g a x) -> fold_left f l acc = fold_left g l acc.
Proof.
  revert acc. induction l as [| x l IH]; intros acc H; simpl.
  - reflexivity.
  - rewrite H by now left. apply IH. intros a y Hy. apply H. now right.
Qed.

(** Skipping the elements that leave the accumulator alone. *)
Lemma fold_left_filter {A B : Type} (f : A -> B -> A) (keep : B -> bool) (l : list B) (acc : A) :
  (forall a x, keep x = false -> f a x = a) ->
  fold_left f l acc = fold_left f (filter keep l) acc.
Proof.
  intros Hskip. revert acc. induction l as [| x l IH]; intros acc; simpl.
  - reflexivity.
  - destruct (keep x) eqn:Hx; simpl.
    + apply IH.
    + rewrite Hskip by exact Hx. apply IH.
Qed.

(** ** The insertion-ordered table *)

Lemma Map_get_None {V : Type} (m : JS.Map V) (key : string) :
  JS.Map_get m key = None <-> ~ In key (List.map fst m).
Proof.
  induction m as [| [k v] rest IH]; simpl.
  - tauto.
  - destruct (String.eqb k key) eqn:Hk.
    + apply String.eqb_eq in Hk. split; [discriminate | intros H; exfalso; apply H; now left].
    + apply String.eqb_neq in Hk. rewrite IH. tauto.
Qed.

Lemma Map_set_keys {V : Type} (m : JS.Map V) (key : string) (value : V) :
  List.map fst (JS.Map_set m key value)
  = match JS.Map_get m key with
    | Some _ => List.map fst m
    | None => List.map fst m ++ [key]
    end.
Proof.
  induction m as [| [k v] rest IH]; simpl.
  - reflexivity.
  - destruct (String.eqb k key) eqn:Hk; simpl.
    + reflexivity.
    + rewrite IH. now destruct (JS.Map_get rest key).
Qed.

Lemma Map_get_In {V : Type} (m : JS.Map V) (key : string) (value : V) :
  JS.Map_get m key = Some value -> In (key, value) m.
Proof.
  induction m as [| [k v] rest IH]; simpl; [discriminate |].
  destruct (String.eqb k key) eqn:Hk.
  - apply String.eqb_eq in Hk. intros [= <-]. left. now subst.
  - intros H. right. now apply IH.
Qed.

Lemma Map_set_Forall {V : Type} (P : string * V -> Prop) (m : JS.Map V)
    (key : string) (value : V) :
  Forall P m -> P (key, value) -> Forall P (JS.Map_set m key value).
Proof.
  intros Hm Hnew. induction Hm as [| [k v] rest Hkv Hrest IH]; simpl.
  - now repeat constructor.
  - destruct (String.eqb k key) eqn:Hk.
    + apply String.eqb_eq in Hk. subst k. now constructor.
    + now constructor.
Qed.

(** ** First occurrences *)

Lemma firstSeen_app (keyword : string) (s t : list string) :
  In keyword s -> firstSeen keyword (s ++ t) = firstSeen keyword s.
Proof.
  induction s as [| k s IH]; simpl; [tauto |].
  destruct (String.eqb k keyword) eqn:Hk; [reflexivity |].
  apply String.eqb_neq in Hk. intros [H | H]; [congruence |]. now rewrite IH.
Qed.

Lemma firstSeen_lt (keyword : string) (s : list string) :
  In keyword s -> (firstSeen keyword s < List.length s)%nat.
Proof.
  induction s as [| k s IH]; simpl; [tauto |].
  destruct (String.eqb k keyword) eqn:Hk; [lia |].
  apply String.eqb_neq in Hk. intros [H | H]; [congruence |].
  specialize (IH H). lia.
Qed.

Lemma firstSeen_new (keyword : string) (s : list string) :
  ~ In keyword s -> firstSeen keyword (s ++ [keyword]) = List.length s.
Proof.
  induction s as [| k s IH]; simpl; intros H.
  - now rewrite String.eqb_refl.
  - destruct (String.eqb k keyword) eqn:Hk.
    + apply String.eqb_eq in Hk. tauto.
    + rewrite IH; tauto.
Qed.

(** The table the counting loop builds from a run of keywords: its keys are
    the keywords met, in the order they were first met. *)
Lemma tally_keys (occurrences : list string) :
  let table := fold_left increment occurrences [] in
  (forall k, In k (List.map fst table) <-> In k occurrences)
  /\ StronglySorted
       (fun a b => (firstSeen a occurrences < firstSeen b occurrences)%nat)
       (List.map fst table).
Proof.
  induction occurrences as [| k s [IHkeys IHsorted]] using rev_ind; simpl.
  - split; [tauto | constructor].
  - rewrite fold_left_app. simpl. unfold increment at 1 3.
    rewrite Map_set_keys.
    destruct (JS.Map_get (fold_left increment s []) k) eqn:Hget.
    + assert (Hk : In k s).
      { apply IHkeys. destruct (in_dec string_dec k (List.map fst (fold_left increment s []))) as [H | H];
          [exact H | apply Map_get_None in H; congruence]. }
      split.
      * intros x. rewrite IHkeys, in_app_iff. simpl. intuition congruence.
      * eapply StronglySorted_within; [| exact IHsorted].
        intros a b Ha Hb. apply IHkeys in Ha, Hb.
        now rewrite !firstSeen_app.
    + assert (Hk : ~ In k s).
      { rewrite <- IHkeys. now apply Map_get_None. }
      split.
      * intros x. rewrite !in_app_iff, IHkeys. tauto.
      * apply StronglySorted_snoc.
        -- eapply StronglySorted_within; [| exact IHsorted].
           intros a b Ha Hb. apply IHkeys in Ha, Hb.
           now rewrite !firstSeen_app.
        -- rewrite Forall_forall. intros a Ha. apply IHkeys in Ha.
           rewrite firstSeen_app by exact Ha. rewrite firstSeen_new by exact Hk.
           now apply firstSeen_lt.
Qed.

Lemma Map_set_In {V : Type} (m : JS.Map V) (key k : string) (value v : V) :
  NoDup (List.map fst m) ->
  In (k, v) (JS.Map_set m key value) ->
  (k = key /\ v = value) \/ (k <> key /\ In (k, v) m).
Proof.
  induction m as [| [k1 v1] rest IH]; simpl; intros Hnodup Hin.
  - destruct Hin as [[= <- <-] | []]. now left.
  - inversion Hnodup as [| ? ? Hfresh Hrest]; subst.
    destruct (String.eqb k1 key) eqn:Hk.
    + apply String.eqb_eq in Hk. subst k1.
      destruct Hin as [[= <- <-] | Hin]; [now left |].
      right. split; [| now right].
      intros ->. apply Hfresh. now apply (in_map fst) in Hin.
    + apply String.eqb_neq in Hk.
      destruct Hin as [[= <- <-] | Hin]; [right; split; [exact Hk | now left] |].
      destruct (IH Hrest Hin) as [? | [? ?]]; [now left | right; split; [| right]]; assumption.
Qed.

Lemma tally_NoDup (occurrences : list string) :
  NoDup (List.map fst (fold_left increment occurrences [])).
Proof.
  induction occurrences as [| k s IH] using rev_ind; simpl; [constructor |].
  rewrite fold_left_app. simpl. unfold increment at 1. rewrite Map_set_keys.
  destruct (JS.Map_get (fold_left increment s []) k) eqn:Hget; [exact IH |].
  apply Map_get_None in Hget.
  apply NoDup_rev in IH. rewrite <- (rev_involutive (_ ++ [k])).
  apply NoDup_rev. rewrite rev_app_distr. simpl.
  constructor; [now rewrite <- in_rev | exact IH].
Qed.

(** Each count in the table is the number of times its keyword was met. *)
Lemma tally_counts (occurrences : list string) (k : string) (n : Z) :
  In (k, n) (fold_left increment occurrences []) ->
  n = Z.of_nat (count_occ string_dec occurrences k).
Proof.
  revert k n. induction occurrences as [| k0 s IH] using rev_ind; intros k n; simpl; [tauto |].
  rewrite fold_left_app. simpl. unfold increment at 1. intros Hin.
  rewrite count_occ_app. simpl.
  apply Map_set_In in Hin; [| apply tally_NoDup].
  destruct Hin as [[-> ->] | [Hne Hin]].
  - destruct (string_dec k0 k0) as [_ | []]; [| reflexivity].
    destruct (JS.Map_get (fold_left increment s []) k0) as [n0 |] eqn:Hget.
    + apply Map_get_In in Hget. rewrite (IH _ _ Hget).
      simpl. destruct (_ =? 0) eqn:Hz; [apply Z.eqb_eq in Hz |]; lia.
    + apply Map_get_None in Hget.
      assert (Hs : ~ In k0 s) by (now rewrite <- (proj1 (tally_keys s))).
      apply (count_occ_not_In string_dec) in Hs. rewrite Hs. reflexivity.
  - destruct (string_dec k0 k) as [-> | _]; [congruence |].
    rewrite (IH _ _ Hin). lia.
Qed.

(** Every count in the table is at least 1, and a property of the keywords
    met is a property of the keys. *)
Lemma tally_Forall (P : string -> Prop) (occurrences : list string) :
  Forall P occurrences ->
  Forall (fun entry => P (fst entry) /\ 1 <= snd entry) (fold_left increment occurrences []).
Proof.
  induction occurrences as [| k s IH] using rev_ind; intros H; simpl.
  - constructor.
  - apply Forall_app in H as [Hs Hk]. inversion Hk as [| ? ? Pk _]; subst.
    rewrite fold_left_app. simpl. unfold increment at 1.
    specialize (IH Hs).
    apply Map_set_Forall; [exact IH |]. simpl. split; [exact Pk |].
    destruct (JS.Map_get (fold_left increment s []) k) as [n |] eqn:Hget; simpl; [| lia].
    apply Map_get_In in Hget. rewrite Forall_forall in IH.
    specialize (IH _ Hget). simpl in IH.
    destruct (n =? 0) eqn:Hn; lia.
Qed.

(** ** Keyword and domain statistics *)

Lemma lower_char_idem (c : ascii) : JS.lower_char (JS.lower_char c) = JS.lower_char c.
Proof. destruct c as [[] [] [] [] [] [] [] []]; reflexivity. Qed.

Lemma lower_char_hyphen (c : ascii) : Ascii.eqb (JS.lower_char c) "-" = Ascii.eqb c "-".
Proof. destruct c as [[] [] [] [] [] [] [] []]; reflexivity. Qed.

Lemma toLowerCase_idem (s : string) : JS.toLowerCase (JS.toLowerCase s) = JS.toLowerCase s.
Proof.
  induction s as [| c s IH]; simpl; [reflexivity |].
  now rewrite lower_char_idem, IH.
Qed.

Lemma no_hyphen_left (s : string) :
  JS.includes "-" (JS.toLowerCase (JS.remove_hyphens s)) = false.
Proof.
  induction s as [| c s IH]; simpl; [reflexivity |].
  destruct (Ascii.eqb c "-") eqn:Hc; simpl; [exact IH |].
  now rewrite lower_char_hyphen, Hc, IH.
Qed.

Section KeywordFacts.

Variable newURL : string -> JS.Outcome URL.

Lemma countSegment_occurrences (keywordCounts : JS.Map Z) (segment : string) :
  countSegment keywordCounts segment
  = fold_left increment (segmentKeywords segment) keywordCounts.
Proof.
  unfold segmentKeywords, countSegment.
  destruct (meaningful segment); [| reflexivity].
  destruct (2 <? String.length (JS.toLowerCase (JS.remove_hyphens segment)))%nat; reflexivity.
Qed.

Lemma segmentKeywords_shape (segment k : string) :
  In k (segmentKeywords segment) ->
  k = JS.toLowerCase (JS.remove_hyphens segment) /\ (2 < String.length k)%nat.
Proof.
  unfold segmentKeywords, countSegment.
  destruct (meaningful segment); [| simpl; tauto].
  destruct (2 <? String.length (JS.toLowerCase (JS.remove_hyphens segment)))%nat eqn:Hlen;
    simpl; [| tauto].
  intros [<- | []]. split; [reflexivity | now apply Nat.ltb_lt].
Qed.

Lemma countKeywords_occurrences (urls : list string) (keywordCounts : JS.Map Z) :
  fold_left (countKeywords newURL) urls keywordCounts
  = fold_left increment (keywordOccurrences newURL urls) keywordCounts.
Proof.
  unfold keywordOccurrences. rewrite <- fold_left_flat_map.
  apply fold_left_ext_in. intros table url _. unfold countKeywords.
  destruct (newURL url) as [urlObj | e]; [| reflexivity].
  rewrite <- fold_left_flat_map.
  apply fold_left_ext_in. intros. apply countSegment_occurrences.
Qed.

Lemma keywordOccurrences_shape (urls : list string) :
  Forall
    (fun k => JS.toLowerCase k = k /\ JS.includes "-" k = false /\ (2 < String.length k)%nat)
    (keywordOccurrences newURL urls).
Proof.
  rewrite Forall_forall. intros k Hk. unfold keywordOccurrences in Hk.
  apply in_flat_map in Hk as [url [_ Hk]].
  destruct (newURL url) as [urlObj | e]; [| destruct Hk].
  apply in_flat_map in Hk as [segment [_ Hk]].
  apply segmentKeywords_shape in Hk as [-> Hlen].
  repeat split; [apply toLowerCase_idem | apply no_hyphen_left | exact Hlen].
Qed.

Lemma extract_as_sort (urls : list string) :
  extractKeywordsWithCount newURL urls
  = firstn 10
      (JS.sort (descending KeywordStat.count)
         (List.map keywordEntry (fold_left increment (keywordOccurrences newURL urls) []))).
Proof.
  unfold extractKeywordsWithCount. rewrite countKeywords_occurrences.
  exact (slice_from_0 _ 10).
Qed.

End KeywordFacts.

(** C4. For the two URLs of the example, parsed into host [a.com] and the
    paths [/2024/tech-news/hello-world] and [/shop/tech], keyword extraction
    returns exactly technews:1, helloworld:1, shop:1, tech:1 (2024 dropped
    as numeric, the hyphens removed), and domain extraction returns exactly
    a.com:2. *)
Theorem example_statistics (newURL : string -> JS.Outcome URL) :
  newURL "https://a.com/2024/tech-news/hello-world"
    = JS.Returned {| hostname := "a.com"; pathname := "/2024/tech-news/hello-world" |} ->
  newURL "https://a.com/shop/tech"
    = JS.Returned {| hostname := "a.com"; pathname := "/shop/tech" |} ->
  extractKeywordsWithCount newURL
    ["https://a.com/2024/tech-news/hello-world"; "https://a.com/shop/tech"]
  = [ {| KeywordStat.keyword := "technews"; KeywordStat.count := 1 |};
      {| KeywordStat.keyword := "helloworld"; KeywordStat.count := 1 |};
      {| KeywordStat.keyword := "shop"; KeywordStat.count := 1 |};
      {| KeywordStat.keyword := "tech"; KeywordStat.count := 1 |} ]
  /\ extractDomainStats newURL
       ["https://a.com/2024/tech-news/hello-world"; "https://a.com/shop/tech"]
     = [ {| DomainStat.domain := "a.com"; DomainStat.count := 2 |} ].
Proof.
  intros H1 H2. split.
  - unfold extractKeywordsWithCount. cbn [fold_left].
    unfold countKeywords. rewrite H1, H2. reflexivity.
  - unfold extractDomainStats. cbn [fold_left].
    unfold countDomain. rewrite H1, H2. reflexivity.
Qed.

Lemma example_statistics_witness :
  extractKeywordsWithCount PlainURL.parse
    ["https://a.com/2024/tech-news/hello-world"; "https://a.com/shop/tech"]
  = [ {| KeywordStat.keyword := "technews"; KeywordStat.count := 1 |};
      {| KeywordStat.keyword := "helloworld"; KeywordStat.count := 1 |};
      {| KeywordStat.keyword := "shop"; KeywordStat.count := 1 |};
      {| KeywordStat.keyword := "tech"; KeywordStat.count := 1 |} ]
  /\ extractDomainStats PlainURL.parse
       ["https://a.com/2024/tech-news/hello-world"; "https://a.com/shop/tech"]
     = [ {| DomainStat.domain := "a.com"; DomainStat.count := 2 |} ].
Proof.
  apply (example_statistics PlainURL.parse); reflexivity.
Defined.

(** C5. The keyword statistics hold at most 10 entries; an entry never has a
    smaller count than a later one; of two entries with the same count the
    one in front is the one whose keyword was met first; and each entry
    counts how often its keyword was met. *)
Theorem keywords_ranked (newURL : string -> JS.Outcome URL) (urls : list string) :
  let stats := extractKeywordsWithCount newURL urls in
  let occurrences := keywordOccurrences newURL urls in
  (List.length stats <= 10)%nat
  /\ (forall (i j : nat) (a b : KeywordStat.t),
       (i < j)%nat -> nth_error stats i = Some a -> nth_error stats j = Some b ->
       KeywordStat.count a >= KeywordStat.count b
       /\ (KeywordStat.count a = KeywordStat.count b ->
           (firstSeen (KeywordStat.keyword a) occurrences
            < firstSeen (KeywordStat.keyword b) occurrences)%nat))
  /\ forall a : KeywordStat.t,
       In a stats ->
       In (KeywordStat.keyword a) occurrences
       /\ KeywordStat.count a
          = Z.of_nat (count_occ string_dec occurrences (KeywordStat.keyword a)).
Proof.
  intros stats occurrences. subst stats. rewrite extract_as_sort.
  split; [| split].
  - apply firstn_le_length.
  - set (rank := fun stat => firstSeen (KeywordStat.keyword stat) occurrences).
    assert (Hsorted :
      StronglySorted (ahead KeywordStat.count rank)
        (firstn 10
           (JS.sort (descending KeywordStat.count)
              (List.map keywordEntry
                 (fold_left increment (keywordOccurrences newURL urls) []))))).
    { apply StronglySorted_firstn, sort_ahead, StronglySorted_map.
      apply StronglySorted_unmap with (f := fst)
        (R := fun a b => (firstSeen a occurrences < firstSeen b occurrences)%nat).
      apply (tally_keys occurrences). }
    intros i j a b Hij Hi Hj.
    pose proof (StronglySorted_nth_error _ _ Hsorted i j a b Hij Hi Hj) as Hab.
    unfold ahead, rank in Hab. split; [lia |]. intros Heq. lia.
  - intros a Ha.
    apply In_firstn, sort_In, in_map_iff in Ha as [[k n] [<- Hentry]]. simpl. split.
    + apply (proj1 (tally_keys occurrences)). now apply (in_map fst) in Hentry.
    + now apply tally_counts.
Qed.

(** C10. Every entry of the keyword statistics is well-formed: its keyword is
    lower-case, has no hyphen and is longer than 2 characters, and its count
    is at least 1. *)
Theorem keywords_wellFormed (newURL : string -> JS.Outcome URL) (urls : list string) :
  Forall wellFormed (extractKeywordsWithCount newURL urls).
Proof.
  rewrite Forall_forall. intros stat Hstat.
  rewrite extract_as_sort in Hstat.
  apply In_firstn, sort_In, in_map_iff in Hstat as [[k n] [<- Hentry]].
  pose proof (tally_Forall _ _ (keywordOccurrences_shape newURL urls)) as Htable.
  rewrite Forall_forall in Htable. specialize (Htable _ Hentry). simpl in Htable.
  unfold wellFormed. simpl. tauto.
Qed.

(** C8. A URL that does not parse adds nothing to the keyword table nor to
    the domain table: both statistics are those of the parseable URLs alone,
    and both functions return them whatever the list holds. *)
Theorem malformed_urls_ignored (newURL : string -> JS.Outcome URL) (urls : list string) :
  extractKeywordsWithCount newURL urls
  = extractKeywordsWithCount newURL (filter (parses newURL) urls)
  /\ extractDomainStats newURL urls
     = extractDomainStats newURL (filter (parses newURL) urls).
Proof.
  split.
  - unfold extractKeywordsWithCount.
    rewrite (fold_left_filter (countKeywords newURL) (parses newURL)); [reflexivity |].
    intros table url. unfold parses, countKeywords.
    now destruct (newURL url).
  - unfold extractDomainStats.
    rewrite (fold_left_filter (countDomain newURL) (parses newURL)); [reflexivity |].
    intros table url. unfold parses, countDomain.
    now destruct (newURL url).
Qed.

(** ** Runs and their traces *)

Lemma extends_refl (ok : Event -> bool) (w : World) : extends ok w w.
Proof. split; [reflexivity |]. exists []. now rewrite app_nil_r. Qed.

Lemma extends_trans (ok : Event -> bool) (w1 w2 w3 : World) :
  extends ok w1 w2 -> extends ok w2 w3 -> extends ok w1 w3.
Proof.
  intros [Hkv1 [ev1 [Ht1 Hok1]]] [Hkv2 [ev2 [Ht2 Hok2]]]. split; [congruence |].
  exists (ev1 ++ ev2). rewrite Ht2, Ht1, <- app_assoc. split; [reflexivity |].
  rewrite forallb_app. now rewrite Hok1, Hok2.
Qed.

Lemma extends_record (ok : Event -> bool) (e : Event) (w : World) :
  ok e = true -> extends ok w (record e w).
Proof.
  intros He. split; [reflexivity |]. exists [e]. simpl. now rewrite He.
Qed.

Lemma extends_weaken (ok ok' : Event -> bool) (w w' : World) :
  (forall e, ok e = true -> ok' e = true) -> extends ok w w' -> extends ok' w w'.
Proof.
  intros Hsub [Hkv [events [Ht Hok]]]. split; [exact Hkv |].
  exists events. split; [exact Ht |].
  rewrite forallb_forall in *. auto.
Qed.

Section Quiet.

Context {L : Type} (ok : Event -> bool).

Lemma quiet_ret {A : Type} (a : A) : quiet ok (ret a : M L A).
Proof. intros l w. apply extends_refl. Qed.

Lemma quiet_throw {A : Type} (e : string) : quiet ok (throw e : M L A).
Proof. intros l w. apply extends_refl. Qed.

Lemma quiet_locals : quiet ok (locals : M L L).
Proof. intros l w. apply extends_refl. Qed.

Lemma quiet_assign (update : L -> L) : quiet ok (assign update).
Proof. intros l w. apply extends_refl. Qed.

Lemma quiet_answer {A : Type} (oracle : list Event -> JS.Outcome A) :
  quiet ok (answer oracle : M L A).
Proof. intros l w. apply extends_refl. Qed.

Lemma quiet_emit (e : Event) : ok e = true -> quiet ok (emit e : M L unit).
Proof. intros He l w. now apply extends_record. Qed.

Lemma quiet_bind {A B : Type} (m : M L A) (k : A -> M L B) :
  quiet ok m -> (forall a, quiet ok (k a)) -> quiet ok (bind m k).
Proof.
  intros Hm Hk l w. unfold bind. specialize (Hm l w).
  destruct (m l w) as [[[a | e] l'] w']; simpl in *.
  - eapply extends_trans; [exact Hm | apply Hk].
  - exact Hm.
Qed.

Lemma quiet_try_catch {A : Type} (body : M L A) (handler : string -> M L A) :
  quiet ok body -> (forall e, quiet ok (handler e)) -> quiet ok (try_catch body handler).
Proof.
  intros Hm Hh l w. unfold try_catch. specialize (Hm l w).
  destruct (body l w) as [[[a | e] l'] w']; simpl in *.
  - exact Hm.
  - eapply extends_trans; [exact Hm | apply Hh].
Qed.

Lemma quiet_call {L' A : Type} (init : L') (f : M L' A) :
  quiet ok f -> quiet ok (call init f : M L A).
Proof.
  intros Hf l w. unfold call. specialize (Hf init w).
  destruct (f init w) as [[r l'] w']. exact Hf.
Qed.

Lemma quiet_when (b : bool) (m : M L unit) : quiet ok m -> quiet ok (when b m).
Proof. intros Hm. destruct b; [exact Hm | apply quiet_ret]. Qed.

Lemma quiet_for_of {X : Type} (xs : list X) (body : X -> M L unit) :
  (forall x, quiet ok (body x)) -> quiet ok (for_of xs body).
Proof.
  intros Hbody. induction xs as [| x rest IH]; simpl.
  - apply quiet_ret.
  - apply quiet_bind; [apply Hbody | intros _; exact IH].
Qed.

End Quiet.

(** One step of a proof that a piece of code is [quiet]. *)
Ltac quiet_step :=
  first
    [ apply quiet_ret | apply quiet_throw | apply quiet_locals | apply quiet_assign
    | apply quiet_answer
    | apply quiet_emit; reflexivity
    | apply quiet_bind; [| intros ?]
    | apply quiet_try_catch; [| intros ?]
    | apply quiet_call
    | apply quiet_when
    | match goal with
      | |- quiet _ (match ?x with _ => _ end) => destruct x
      | |- quiet _ (if ?b then _ else _) => destruct b
      end ].

Lemma sendMessage_quiet (platform : Platform) (chatId text : string) :
  quiet notification (sendMessage platform chatId text).
Proof. unfold sendMessage. repeat quiet_step. Qed.

Lemma sendDocument_quiet (platform : Platform) (chatId document filename caption : string) :
  quiet notification (sendDocument platform chatId document filename caption).
Proof. unfold sendDocument. repeat quiet_step. Qed.

Lemma quiet_weaken {L A : Type} (ok ok' : Event -> bool) (m : M L A) :
  (forall e, ok e = true -> ok' e = true) -> quiet ok m -> quiet ok' m.
Proof. intros Hsub Hm l w. eapply extends_weaken; [exact Hsub | apply Hm]. Qed.

Lemma notification_ancillary (e : Event) : notification e = true -> ancillary e = true.
Proof. now destruct e. Qed.

Section NotifierFacts.

Variable newURL : string -> JS.Outcome URL.
Variable telegramConfig : TelegramConfig.t.
Variable platform : Platform.

Lemma sendUpdateNotification_quiet (url : string) (newUrls : option (list string))
    (sitemapContent targetChat : option string) (batchMode : bool) :
  quiet ancillary
    (sendUpdateNotification newURL telegramConfig platform
       url newUrls sitemapContent targetChat batchMode).
Proof.
  unfold sendUpdateNotification, sleep.
  repeat first
    [ apply (quiet_weaken notification ancillary);
      [ exact notification_ancillary
      | first [apply sendMessage_quiet | apply sendDocument_quiet] ]
    | quiet_step ].
Qed.

Lemma sendKeywordsSummary_quiet (allNewUrls : option (list string)) (targetChat : option string) :
  quiet notification (sendKeywordsSummary newURL telegramConfig platform allNewUrls targetChat).
Proof.
  unfold sendKeywordsSummary.
  repeat first [apply sendMessage_quiet | quiet_step].
Qed.

Lemma sendUnifiedReport_quiet (domainResults : JS.Map DomainData.t) (allNewUrls : list string)
    (processedCount errorCount : Z) (targetChat : option string) :
  quiet notification
    (sendUnifiedReport newURL telegramConfig platform
       domainResults allNewUrls processedCount errorCount targetChat).
Proof.
  unfold sendUnifiedReport.
  repeat first [apply sendMessage_quiet | quiet_step].
Qed.

End NotifierFacts.

(** A [try] whose handler only updates local variables leaves the world as
    its body left it, and returns. *)
Lemma try_catch_handled {L : Type} (body : M L unit) (handler : string -> M L unit) :
  (forall e l w, exists l', handler e l w = (JS.Returned tt, l', w)) ->
  forall l w, exists l', try_catch body handler l w = (JS.Returned tt, l', snd (body l w)).
Proof.
  intros Hh l w. unfold try_catch.
  destruct (body l w) as [[[[] | e] l'] w']; simpl.
  - now exists l'.
  - apply Hh.
Qed.

(** After a call to a collaborator, whether it returns or throws, only the
    continuation's events follow. *)
Lemma after_invoke {L A B : Type} (ok : Event -> bool) (e : Event)
    (oracle : list Event -> JS.Outcome A) (k : A -> M L B) (l : L) (w : World) :
  (forall a, quiet ok (k a)) ->
  extends ok (record e w) (snd (bind (invoke e oracle) k l w)).
Proof.
  intros Hk. unfold bind, invoke, emit, answer, bind. simpl.
  destruct (oracle (trace w ++ [e])) as [a | e'].
  - apply Hk.
  - apply extends_refl.
Qed.

Lemma invoke_returned {L A B : Type} (e : Event) (oracle : list Event -> JS.Outcome A)
    (k : A -> M L B) (l : L) (w : World) (a : A) :
  oracle (trace w ++ [e]) = JS.Returned a ->
  bind (invoke e oracle) k l w = k a l (record e w).
Proof.
  intros H. unfold bind, invoke, emit, answer, bind. simpl. now rewrite H.
Qed.

Lemma bind_returned {L A B : Type} (m : M L A) (k : A -> M L B)
    (l l' : L) (w w' : World) (a : A) :
  m l w = (JS.Returned a, l', w') -> bind m k l w = k a l' w'.
Proof. intros H. unfold bind. now rewrite H. Qed.

Lemma inspected_app (h1 h2 : list Event) : inspected (h1 ++ h2) = inspected h1 ++ inspected h2.
Proof. apply flat_map_app. Qed.

Lemma downloaded_app (h1 h2 : list Event) : downloaded (h1 ++ h2) = downloaded h1 ++ downloaded h2.
Proof. apply flat_map_app. Qed.

Lemma writes_app (h1 h2 : list Event) : writes (h1 ++ h2) = writes h1 ++ writes h2.
Proof. apply flat_map_app. Qed.

Lemma notifications_app (h1 h2 : list Event) :
  notifications (h1 ++ h2) = notifications h1 ++ notifications h2.
Proof. apply filter_app. Qed.

(** Ancillary events are neither feed checks nor store writes. *)
Lemma ancillary_silent (events : list Event) :
  forallb ancillary events = true ->
  inspected events = [] /\ downloaded events = [] /\ writes events = [].
Proof.
  induction events as [| e rest IH]; simpl; [tauto |].
  intros H. apply andb_true_iff in H as [He Hrest].
  destruct (IH Hrest) as [H1 [H2 H3]].
  destruct e; try discriminate; simpl; auto.
Qed.

Lemma extends_ancillary (w w' : World) :
  extends ancillary w w' ->
  kv w' = kv w
  /\ inspected (trace w') = inspected (trace w)
  /\ downloaded (trace w') = downloaded (trace w)
  /\ writes (trace w') = writes (trace w).
Proof.
  intros [Hkv [events [Ht Hok]]].
  destruct (ancillary_silent _ Hok) as [H1 [H2 H3]].
  rewrite Ht, inspected_app, downloaded_app, writes_app, H1, H2, H3, !app_nil_r.
  auto.
Qed.

(** ** The two feed loops *)

Section Loops.

Variable newURL : string -> JS.Outcome URL.
Variable telegramConfig : TelegramConfig.t.
Variable platform : Platform.

(** One turn of the scheduled loop returns and hands exactly its feed to
    [addFeed], whatever the collaborators answer. *)
Lemma checkFeed_runs (manager : RSSManager) (currentBatch : list string)
    (i : Z) (url : string) (allNewUrls : list string) (w : World) :
  exists allNewUrls' w',
    checkFeed newURL telegramConfig platform manager currentBatch i url allNewUrls w
    = (JS.Returned tt, allNewUrls', w')
    /\ extends ancillary (record (CallAddFeed url) w) w'.
Proof.
  unfold checkFeed.
  match goal with
  | |- context [try_catch ?body ?handler] =>
      destruct (try_catch_handled body handler) with (l := allNewUrls) (w := w) as [l' Hrun]
  end.
  { intros e l0 w0. now exists l0. }
  eexists. eexists. split; [exact Hrun |].
  apply after_invoke. intros result.
  unfold sleep.
  repeat first [apply sendUpdateNotification_quiet | quiet_step].
Qed.

Lemma monitoringLoop_runs (manager : RSSManager) (whole : list string) :
  forall (batch : list string) (i : Z) (allNewUrls : list string) (w : World),
  exists allNewUrls' w',
    for_index i batch (checkFeed newURL telegramConfig platform manager whole) allNewUrls w
    = (JS.Returned tt, allNewUrls', w')
    /\ kv w' = kv w
    /\ inspected (trace w') = inspected (trace w) ++ batch
    /\ writes (trace w') = writes (trace w).
Proof.
  induction batch as [| url rest IH]; intros i allNewUrls w; simpl.
  - exists allNewUrls, w. rewrite app_nil_r. auto.
  - destruct (checkFeed_runs manager whole i url allNewUrls w) as [l1 [w1 [Hrun Hext]]].
    rewrite (bind_returned _ _ _ _ _ _ _ Hrun).
    destruct (IH (i + 1) l1 w1) as [l2 [w2 [Hloop [Hkv [Hins Hwr]]]]].
    exists l2, w2. split; [exact Hloop |].
    apply extends_ancillary in Hext as [Hkv1 [Hins1 [_ Hwr1]]].
    simpl in Hkv1, Hins1, Hwr1. rewrite inspected_app in Hins1. rewrite writes_app in Hwr1.
    simpl in Hins1, Hwr1. rewrite app_nil_r in Hwr1.
    repeat split.
    + congruence.
    + rewrite Hins, Hins1, <- app_assoc. reflexivity.
    + congruence.
Qed.

(** One turn of the [/news] loop returns and hands exactly its feed to
    [downloadSitemap]. *)
Lemma checkForNews_runs (manager : RSSManager) (url : string) (l : NewsLocals.t) (w : World) :
  exists l' w',
    checkForNews newURL manager url l w = (JS.Returned tt, l', w')
    /\ extends ancillary (record (CallDownloadSitemap url true) w) w'.
Proof.
  unfold checkForNews.
  match goal with
  | |- context [try_catch ?body ?handler] =>
      destruct (try_catch_handled body handler) with (l := l) (w := w) as [l' Hrun]
  end.
  { intros e l0 w0. now exists (countError l0). }
  eexists. eexists. split; [exact Hrun |].
  apply after_invoke. intros result.
  repeat quiet_step.
Qed.

Lemma newsLoop_runs (manager : RSSManager) :
  forall (feeds : list string) (l : NewsLocals.t) (w : World),
  exists l' w',
    newsLoop newURL manager feeds l w = (JS.Returned tt, l', w')
    /\ kv w' = kv w
    /\ downloaded (trace w') = downloaded (trace w) ++ feeds
    /\ writes (trace w') = writes (trace w).
Proof.
  unfold newsLoop.
  induction feeds as [| url rest IH]; intros l w; simpl.
  - exists l, w. rewrite app_nil_r. auto.
  - destruct (checkForNews_runs manager url l w) as [l1 [w1 [Hrun Hext]]].
    rewrite (bind_returned _ _ _ _ _ _ _ Hrun).
    destruct (IH l1 w1) as [l2 [w2 [Hloop [Hkv [Hdl Hwr]]]]].
    exists l2, w2. split; [exact Hloop |].
    apply extends_ancillary in Hext as [Hkv1 [_ [Hdl1 Hwr1]]].
    simpl in Hkv1, Hdl1, Hwr1. rewrite downloaded_app in Hdl1. rewrite writes_app in Hwr1.
    simpl in Hdl1, Hwr1. rewrite app_nil_r in Hwr1.
    repeat split.
    + congruence.
    + rewrite Hdl, Hdl1, <- app_assoc. reflexivity.
    + congruence.
Qed.

End Loops.

(** C6. In both feed loops a failure while checking one feed is caught inside
    the turn: whatever the collaborators do, by returning or by throwing,
    the loop returns and every feed of the slice has been handed to the
    check, in order. *)
Theorem failures_isolated (newURL : string -> JS.Outcome URL)
    (telegramConfig : TelegramConfig.t) (platform : Platform) (manager : RSSManager)
    (feeds : list string) (w : World) :
  (forall allNewUrls : list string,
     exists allNewUrls' w',
       monitoringLoop newURL telegramConfig platform manager feeds allNewUrls w
       = (JS.Returned tt, allNewUrls', w')
       /\ inspected (trace w') = inspected (trace w) ++ feeds)
  /\ (forall l : NewsLocals.t,
        exists l' w',
          newsLoop newURL manager feeds l w = (JS.Returned tt, l', w')
          /\ downloaded (trace w') = downloaded (trace w) ++ feeds).
Proof.
  split.
  - intros allNewUrls. unfold monitoringLoop.
    destruct (monitoringLoop_runs newURL telegramConfig platform manager feeds feeds 0 allNewUrls w)
      as [l' [w' [Hrun [_ [Hins _]]]]].
    now exists l', w'.
  - intros l.
    destruct (newsLoop_runs newURL manager feeds l w) as [l' [w' [Hrun [_ [Hdl _]]]]].
    now exists l', w'.
Qed.

(** ** The scheduled pass *)

Lemma call_world {L L' A : Type} (init : L') (f : M L' A) (l : L) (w : World) :
  snd (call init f l w) = snd (f init w).
Proof. unfold call. now destruct (f init w) as [[r l'] w']. Qed.

Lemma try_catch_world {L : Type} (body : M L unit) (l : L) (w : World) :
  snd (try_catch body (fun _ => ret tt) l w) = snd (body l w).
Proof.
  destruct (try_catch_handled body (fun _ => ret tt)) with (l := l) (w := w) as [l' H].
  - intros e l0 w0. now exists l0.
  - now rewrite H.
Qed.

Lemma readLastIndex_runs (manager : RSSManager) (allNewUrls : list string) (w : World) :
  readLastIndex manager allNewUrls w
  = (JS.Returned
       (if kv_get_throws manager (trace w ++ [CallKvGet PROCESSING_KEY]) then 0
        else lastIndexFrom (kv w PROCESSING_KEY)),
     allNewUrls, record (CallKvGet PROCESSING_KEY) w).
Proof.
  unfold readLastIndex, try_catch, kv_get, bind, emit. simpl.
  destruct (kv_get_throws manager (trace w ++ [CallKvGet PROCESSING_KEY])); [reflexivity |].
  destruct (kv w PROCESSING_KEY) as [[progress | [| c text]] |]; reflexivity.
Qed.

Lemma saveProgress_runs (platform : Platform) (manager : RSSManager) (nextIndex : Z)
    (feeds currentBatch allNewUrls : list string) (w : World) :
  let saved :=
    ProgressJSON {| Progress.lastIndex := nextIndex;
                    Progress.lastUpdate := toISOString platform (trace w);
                    Progress.totalFeeds := len feeds;
                    Progress.processedInThisBatch := len currentBatch |} in
  saveProgress platform manager nextIndex feeds currentBatch allNewUrls w
  = (JS.Returned tt, allNewUrls,
     if kv_put_throws manager (trace w ++ [CallKvPut PROCESSING_KEY saved])
     then record (CallKvPut PROCESSING_KEY saved) w
     else store PROCESSING_KEY saved (record (CallKvPut PROCESSING_KEY saved) w)).
Proof.
  unfold saveProgress, try_catch, kv_put, bind, emit, answer. simpl.
  now destruct (kv_put_throws manager _).
Qed.

Section Pass.

Variable newURL : string -> JS.Outcome URL.
Variable telegramConfig : TelegramConfig.t.
Variable platform : Platform.

(** With no feeds the pass stops after asking for them. *)
Lemma pass_without_feeds (batchSize : Z) (manager : RSSManager) (w : World) :
  getFeeds manager (trace w ++ [CallGetFeeds]) = JS.Returned [] ->
  snd (performScheduledMonitoringWith newURL telegramConfig platform (Some manager) batchSize tt w)
  = record CallGetFeeds w.
Proof.
  intros Hfeeds. unfold performScheduledMonitoringWith.
  rewrite call_world, try_catch_world.
  now rewrite (invoke_returned _ _ _ _ _ _ Hfeeds).
Qed.

(** With feeds the pass checks the batch and hands one progress record to
    the store. *)
Lemma pass_with_feeds (batchSize : Z) (manager : RSSManager) (feeds : list string) (w : World) :
  getFeeds manager (trace w ++ [CallGetFeeds]) = JS.Returned feeds ->
  feeds <> [] ->
  let startIndex :=
    if kv_get_throws manager (trace w ++ [CallGetFeeds] ++ [CallKvGet PROCESSING_KEY]) then 0
    else lastIndexFrom (kv w PROCESSING_KEY) in
  let endIndex := endIndexOf batchSize feeds startIndex in
  let currentBatch := JS.slice feeds startIndex endIndex in
  let w' :=
    snd (performScheduledMonitoringWith newURL telegramConfig platform (Some manager)
           batchSize tt w) in
  exists now : string,
    let saved :=
      ProgressJSON {| Progress.lastIndex := nextIndexOf feeds endIndex;
                      Progress.lastUpdate := now;
                      Progress.totalFeeds := len feeds;
                      Progress.processedInThisBatch := len currentBatch |} in
    inspected (trace w') = inspected (trace w) ++ currentBatch
    /\ writes (trace w') = writes (trace w) ++ [(PROCESSING_KEY, saved)]
    /\ (kv w' PROCESSING_KEY = Some saved \/ kv w' = kv w)
    /\ ((forall history, kv_put_throws manager history = false) ->
        kv w' PROCESSING_KEY = Some saved).
Proof.
  intros Hfeeds Hne startIndex endIndex currentBatch w'.
  pose proof (eq_refl w') as Hw'. unfold w' at 2 in Hw'. clearbody w'.
  unfold performScheduledMonitoringWith in Hw'.
  rewrite call_world, try_catch_world in Hw'.
  rewrite (invoke_returned _ _ _ _ _ _ Hfeeds) in Hw'.
  replace (len feeds =? 0) with false in Hw'
    by (symmetry; apply Z.eqb_neq; unfold len; destruct feeds; simpl; [congruence | lia]).
  rewrite (bind_returned _ _ _ _ _ _ _ (readLastIndex_runs manager [] (record CallGetFeeds w)))
    in Hw'.
  simpl trace in Hw'. rewrite <- app_assoc in Hw'. simpl kv in Hw'.
  fold startIndex endIndex currentBatch in Hw'.
  destruct (monitoringLoop_runs newURL telegramConfig platform manager currentBatch currentBatch 0 []
              (record (CallKvGet PROCESSING_KEY) (record CallGetFeeds w)))
    as [allNewUrls [w3 [Hloop [Hkv3 [Hins3 Hwr3]]]]].
  unfold monitoringLoop in Hw'.
  rewrite (bind_returned _ _ _ _ _ _ _ Hloop) in Hw'.
  rewrite (bind_returned _ _ _ _ _ _ _
             (saveProgress_runs platform manager (nextIndexOf feeds endIndex)
                feeds currentBatch allNewUrls w3)) in Hw'.
  exists (toISOString platform (trace w3)).
  set (saved := ProgressJSON _) in *.
  set (w4 := if kv_put_throws manager _ then _ else _) in Hw'.
  assert (Hrest : extends ancillary w4 w').
  { rewrite Hw'. apply (extends_weaken notification); [exact notification_ancillary |].
    match goal with |- extends _ _ (snd (?m _ _)) => assert (Hq : quiet notification m) end.
    { repeat first [apply sendKeywordsSummary_quiet | quiet_step]. }
    apply Hq. }
  clear Hw'.
  apply extends_ancillary in Hrest as [Hkv5 [Hins5 [_ Hwr5]]].
  simpl in Hkv3, Hins3, Hwr3.
  rewrite !inspected_app in Hins3. rewrite !writes_app in Hwr3. simpl in Hins3, Hwr3.
  rewrite !app_nil_r in Hins3, Hwr3.
  assert (Htr4 : trace w4 = trace w3 ++ [CallKvPut PROCESSING_KEY saved]).
  { subst w4. now destruct (kv_put_throws manager _). }
  rewrite Hins5, Hwr5, Hkv5, Htr4, inspected_app, writes_app, Hins3, Hwr3. simpl.
  rewrite app_nil_r.
  repeat split.
  - subst w4. destruct (kv_put_throws manager _); simpl.
    + right. exact Hkv3.
    + left. reflexivity.
  - intros Hput. subst w4. rewrite Hput. reflexivity.
Qed.

End Pass.

Lemma or_zero_number (n : Z) : JS.or_zero (Some n) = n.
Proof. simpl. destruct (n =? 0) eqn:H; [apply Z.eqb_eq in H; lia | reflexivity]. Qed.

Lemma len_positive (feeds : list string) : 0 < len feeds -> feeds <> [].
Proof. intros H ->. unfold len in H. simpl in H. lia. Qed.

(** C7. A pass that finds the feed list empty returns after asking for it:
    the store is as before, nothing was handed to the store's [put], and
    nothing went out to the chat. *)
Theorem empty_pass_is_silent (newURL : string -> JS.Outcome URL)
    (telegramConfig : TelegramConfig.t) (platform : Platform)
    (manager : RSSManager) (w : World) :
  getFeeds manager (trace w ++ [CallGetFeeds]) = JS.Returned [] ->
  let w' := snd (performScheduledMonitoring newURL telegramConfig platform (Some manager) tt w) in
  kv w' = kv w
  /\ writes (trace w') = writes (trace w)
  /\ notifications (trace w') = notifications (trace w).
Proof.
  intros Hfeeds w'. subst w'. unfold performScheduledMonitoring.
  rewrite (pass_without_feeds _ _ _ _ _ _ Hfeeds). simpl.
  rewrite writes_app, notifications_app. simpl. now rewrite !app_nil_r.
Qed.

Lemma empty_pass_is_silent_witness :
  let w' :=
    snd (performScheduledMonitoring PlainURL.parse sampleConfig samplePlatform
           (Some (sampleManager [] [])) tt (worldWith (sampleProgress 2 3))) in
  kv w' = kv (worldWith (sampleProgress 2 3))
  /\ writes (trace w') = writes (trace (worldWith (sampleProgress 2 3)))
  /\ notifications (trace w') = notifications (trace (worldWith (sampleProgress 2 3))).
Proof.
  apply (empty_pass_is_silent PlainURL.parse sampleConfig samplePlatform
           (sampleManager [] []) (worldWith (sampleProgress 2 3))).
  reflexivity.
Defined.

(** C2. With L > 0 feeds, a batch size B > 0 and a stored position i with
    0 <= i < L, a pass checks exactly the contiguous run of feeds from i up to
    min(i+B, L), and hands the store the next position: 0 when that run
    reaches the end of the list, min(i+B, L) otherwise. *)
Theorem batch_is_contiguous_and_wraps (newURL : string -> JS.Outcome URL)
    (telegramConfig : TelegramConfig.t) (platform : Platform)
    (manager : RSSManager) (feeds : list string) (w : World)
    (B i : Z) (progress : Progress.t) :
  getFeeds manager (trace w ++ [CallGetFeeds]) = JS.Returned feeds ->
  (forall history, kv_get_throws manager history = false) ->
  kv w PROCESSING_KEY = Some (ProgressJSON progress) ->
  Progress.lastIndex progress = i ->
  0 < len feeds -> 0 < B -> 0 <= i < len feeds ->
  let stop := Z.min (i + B) (len feeds) in
  let w' :=
    snd (performScheduledMonitoringWith newURL telegramConfig platform (Some manager) B tt w) in
  inspected (trace w')
  = inspected (trace w) ++ firstn (Z.to_nat (stop - i)) (skipn (Z.to_nat i) feeds)
  /\ exists saved : Progress.t,
       writes (trace w') = writes (trace w) ++ [(PROCESSING_KEY, ProgressJSON saved)]
       /\ Progress.lastIndex saved = (if stop >=? len feeds then 0 else stop)
       /\ ((forall history, kv_put_throws manager history = false) ->
           kv w' PROCESSING_KEY = Some (ProgressJSON saved)).
Proof.
  intros Hfeeds Hget Hkv Hi HL HB Hrange stop w'.
  destruct (pass_with_feeds newURL telegramConfig platform B manager feeds w Hfeeds
              (len_positive feeds HL)) as [now [Hins [Hwr [_ Hput]]]].
  fold w' in Hins, Hwr, Hput.
  rewrite Hget, Hkv in Hins, Hwr, Hput. unfold lastIndexFrom in Hins, Hwr, Hput.
  rewrite or_zero_number, Hi in Hins, Hwr, Hput.
  unfold endIndexOf in Hins, Hwr, Hput. fold stop in Hins, Hwr, Hput.
  split.
  - rewrite Hins. f_equal. apply slice_inside; unfold len in *; lia.
  - eexists. split; [exact Hwr |]. split; [reflexivity | exact Hput].
Qed.

Lemma batch_is_contiguous_and_wraps_witness :
  let stop := Z.min (1 + 2) (len sampleFeeds) in
  let w' :=
    snd (performScheduledMonitoringWith PlainURL.parse sampleConfig samplePlatform
           (Some (sampleManager sampleFeeds [])) 2 tt (worldWith (sampleProgress 1 3))) in
  inspected (trace w')
  = inspected (trace (worldWith (sampleProgress 1 3)))
    ++ firstn (Z.to_nat (stop - 1)) (skipn (Z.to_nat 1) sampleFeeds)
  /\ exists saved : Progress.t,
       writes (trace w')
       = writes (trace (worldWith (sampleProgress 1 3)))
         ++ [(PROCESSING_KEY, ProgressJSON saved)]
       /\ Progress.lastIndex saved = (if stop >=? len sampleFeeds then 0 else stop)
       /\ ((forall history,
              kv_put_throws (sampleManager sampleFeeds []) history = false) ->
           kv w' PROCESSING_KEY = Some (ProgressJSON saved)).
Proof.
  apply (batch_is_contiguous_and_wraps PlainURL.parse sampleConfig samplePlatform
           (sampleManager sampleFeeds []) sampleFeeds (worldWith (sampleProgress 1 3))
           2 1 (sampleProgress 1 3)).
  - reflexivity.
  - intros history. reflexivity.
  - reflexivity.
  - reflexivity.
  - reflexivity.
  - lia.
  - unfold len, sampleFeeds. simpl. lia.
Defined.

(** C9. With L > 0 feeds, the pass hands the store exactly one progress
    record; its position is 0 or below L, and it is below the [totalFeeds]
    of the same record, which is L. When the position the store held before
    is not negative (as it is without a record, and for every record a pass
    has written), the position is not negative either, so that
    0 <= lastIndex < totalFeeds: within the resting bounds
    0 <= lastIndex <= totalFeeds and never at the upper one. When the store
    accepts the write, that record is what the store holds afterwards. *)
Theorem saved_cursor_below_length (newURL : string -> JS.Outcome URL)
    (telegramConfig : TelegramConfig.t) (platform : Platform)
    (manager : RSSManager) (feeds : list string) (w : World) :
  getFeeds manager (trace w ++ [CallGetFeeds]) = JS.Returned feeds ->
  0 < len feeds ->
  let w' := snd (performScheduledMonitoring newURL telegramConfig platform (Some manager) tt w) in
  exists saved : Progress.t,
    writes (trace w') = writes (trace w) ++ [(PROCESSING_KEY, ProgressJSON saved)]
    /\ ((forall history, kv_put_throws manager history = false) ->
        kv w' PROCESSING_KEY = Some (ProgressJSON saved))
    /\ (Progress.lastIndex saved = 0 \/ Progress.lastIndex saved < len feeds)
    /\ Progress.lastIndex saved < Progress.totalFeeds saved
    /\ Progress.totalFeeds saved = len feeds
    /\ (0 <= lastIndexFrom (kv w PROCESSING_KEY) ->
        0 <= Progress.lastIndex saved < Progress.totalFeeds saved
        /\ Progress.lastIndex saved <> len feeds).
Proof.
  intros Hfeeds HL w'. unfold performScheduledMonitoring in w'.
  destruct (pass_with_feeds newURL telegramConfig platform BATCH_SIZE manager feeds w Hfeeds
              (len_positive feeds HL)) as [now [_ [Hwr [_ Hput]]]].
  fold w' in Hwr, Hput.
  eexists. split; [exact Hwr |]. split; [exact Hput |]. simpl.
  unfold nextIndexOf, endIndexOf, BATCH_SIZE.
  destruct (kv_get_throws manager _);
    destruct (Z.min _ _ >=? len feeds) eqn:Hwrap;
    rewrite Z.geb_leb in Hwrap;
    try apply Z.leb_gt in Hwrap;
    (split; [first [now left | right; lia] |]); lia.
Qed.

Lemma saved_cursor_below_length_witness :
  let w' :=
    snd (performScheduledMonitoring PlainURL.parse sampleConfig samplePlatform
           (Some (sampleManager sampleFeeds [])) tt (worldWith (sampleProgress 1 3))) in
  exists saved : Progress.t,
    writes (trace w')
    = writes (trace (worldWith (sampleProgress 1 3))) ++ [(PROCESSING_KEY, ProgressJSON saved)]
    /\ ((forall history, kv_put_throws (sampleManager sampleFeeds []) history = false) ->
        kv w' PROCESSING_KEY = Some (ProgressJSON saved))
    /\ (Progress.lastIndex saved = 0 \/ Progress.lastIndex saved < len sampleFeeds)
    /\ Progress.lastIndex saved < Progress.totalFeeds saved
    /\ Progress.totalFeeds saved = len sampleFeeds
    /\ 0 <= Progress.lastIndex saved < Progress.totalFeeds saved
    /\ Progress.lastIndex saved <> len sampleFeeds.
Proof.
  destruct (saved_cursor_below_length PlainURL.parse sampleConfig samplePlatform
              (sampleManager sampleFeeds []) sampleFeeds (worldWith (sampleProgress 1 3)))
    as [saved [Hwrites [Hkv [Hzero [Hbelow [Htotal Hbounds]]]]]].
  - reflexivity.
  - unfold len, sampleFeeds. simpl. lia.
  - exists saved. repeat (split; [assumption |]).
    apply Hbounds. vm_compute. discriminate.
Defined.

(** C1 does not hold of the pass: with three feeds and a stored position of
    5 it does not check the slice that starts at index 0; it checks nothing. *)
Lemma stale_cursor_counterexample :
  ~ (forall (manager : RSSManager) (feeds : list string) (w : World) (progress : Progress.t),
       getFeeds manager (trace w ++ [CallGetFeeds]) = JS.Returned feeds ->
       (forall history, kv_get_throws manager history = false) ->
       kv w PROCESSING_KEY = Some (ProgressJSON progress) ->
       0 < len feeds ->
       Progress.lastIndex progress >= len feeds ->
       let w' :=
         snd (performScheduledMonitoring PlainURL.parse sampleConfig samplePlatform
                (Some manager) tt w) in
       inspected (trace w')
       = inspected (trace w) ++ JS.slice feeds 0 (endIndexOf BATCH_SIZE feeds 0)).
Proof.
  intros Hreset.
  specialize (Hreset (sampleManager sampleFeeds []) sampleFeeds
                (worldWith (sampleProgress 5 9)) (sampleProgress 5 9)
                eq_refl (fun _ => eq_refl) eq_refl).
  assert (HL : 0 < len sampleFeeds) by (unfold len, sampleFeeds; simpl; lia).
  assert (Hstale : Progress.lastIndex (sampleProgress 5 9) >= len sampleFeeds)
    by (unfold len, sampleFeeds; simpl; lia).
  specialize (Hreset HL Hstale).
  vm_compute in Hreset. discriminate Hreset.
Qed.

(** C1, amended. With L > 0 feeds and a stored position at or beyond L, the
    pass checks no feed and hands the store a progress record with position
    0 and an empty batch, so that the following pass starts at index 0. *)
Theorem stale_cursor_resets_next (newURL : string -> JS.Outcome URL)
    (telegramConfig : TelegramConfig.t) (platform : Platform)
    (manager : RSSManager) (feeds : list string) (w : World) (progress : Progress.t) :
  getFeeds manager (trace w ++ [CallGetFeeds]) = JS.Returned feeds ->
  (forall history, kv_get_throws manager history = false) ->
  kv w PROCESSING_KEY = Some (ProgressJSON progress) ->
  0 < len feeds ->
  Progress.lastIndex progress >= len feeds ->
  let w' := snd (performScheduledMonitoring newURL telegramConfig platform (Some manager) tt w) in
  inspected (trace w') = inspected (trace w)
  /\ exists saved : Progress.t,
       writes (trace w') = writes (trace w) ++ [(PROCESSING_KEY, ProgressJSON saved)]
       /\ Progress.lastIndex saved = 0
       /\ Progress.processedInThisBatch saved = 0
       /\ ((forall history, kv_put_throws manager history = false) ->
           kv w' PROCESSING_KEY = Some (ProgressJSON saved)
           /\ lastIndexFrom (kv w' PROCESSING_KEY) = 0).
Proof.
  intros Hfeeds Hget Hkv HL Hstale w'. unfold performScheduledMonitoring in w'.
  destruct (pass_with_feeds newURL telegramConfig platform BATCH_SIZE manager feeds w Hfeeds
              (len_positive feeds HL)) as [now [Hins [Hwr [_ Hput]]]].
  fold w' in Hins, Hwr, Hput.
  rewrite Hget, Hkv in Hins, Hwr, Hput. unfold lastIndexFrom in Hins, Hwr, Hput.
  rewrite or_zero_number in Hins, Hwr, Hput.
  assert (Hstop : endIndexOf BATCH_SIZE feeds (Progress.lastIndex progress) = len feeds)
    by (unfold endIndexOf, BATCH_SIZE; lia).
  rewrite Hstop in Hins, Hwr, Hput.
  assert (Hbatch : JS.slice feeds (Progress.lastIndex progress) (len feeds) = [])
    by (apply slice_empty; lia).
  rewrite Hbatch in Hins, Hwr, Hput.
  assert (Hnext : nextIndexOf feeds (len feeds) = 0)
    by (unfold nextIndexOf; now rewrite Z.geb_leb, Z.leb_refl).
  rewrite Hnext in Hwr, Hput.
  split; [now rewrite Hins, app_nil_r |].
  eexists. split; [exact Hwr |]. split; [reflexivity |]. split; [reflexivity |].
  intros Hok. specialize (Hput Hok). split; [exact Hput |].
  rewrite Hput. reflexivity.
Qed.

Lemma stale_cursor_resets_next_witness :
  let w' :=
    snd (performScheduledMonitoring PlainURL.parse sampleConfig samplePlatform
           (Some (sampleManager sampleFeeds [])) tt (worldWith (sampleProgress 5 9))) in
  inspected (trace w') = inspected (trace (worldWith (sampleProgress 5 9)))
  /\ exists saved : Progress.t,
       writes (trace w')
       = writes (trace (worldWith (sampleProgress 5 9))) ++ [(PROCESSING_KEY, ProgressJSON saved)]
       /\ Progress.lastIndex saved = 0
       /\ Progress.processedInThisBatch saved = 0
       /\ ((forall history, kv_put_throws (sampleManager sampleFeeds []) history = false) ->
           kv w' PROCESSING_KEY = Some (ProgressJSON saved)
           /\ lastIndexFrom (kv w' PROCESSING_KEY) = 0).
Proof.
  apply (stale_cursor_resets_next PlainURL.parse sampleConfig samplePlatform
           (sampleManager sampleFeeds []) sampleFeeds (worldWith (sampleProgress 5 9))
           (sampleProgress 5 9)).
  - reflexivity.
  - intros history. reflexivity.
  - reflexivity.
  - unfold len, sampleFeeds. simpl. lia.
  - unfold len, sampleFeeds. simpl. lia.
Defined.

(** ** The unified report *)

(** The breakdown says that nothing is new only when no feed at all was
    checked with success; with feeds checked and nothing new it is empty. *)
Lemma domainBreakdown_nothing_new (domainResults : JS.Map DomainData.t) :
  domainResults <> [] ->
  Forall (fun entry => DomainData.totalNew (snd entry) = 0) domainResults ->
  domainBreakdown domainResults = "".
Proof.
  intros Hne Hzero. unfold domainBreakdown, JS.Map_size.
  replace (Z.of_nat (List.length domainResults) =? 0) with false
    by (symmetry; apply Z.eqb_neq; destruct domainResults; simpl; [congruence | lia]).
  unfold sortedDomains.
  replace (filter (fun domain => DomainData.totalNew domain >? 0) (List.map snd domainResults))
    with (@nil DomainData.t); [reflexivity |].
  clear Hne. induction Hzero as [| entry rest Hentry _ IH]; simpl; [reflexivity |].
  cbv beta in Hentry. rewrite Hentry. simpl. exact IH.
Qed.

(** C3, on the code: one feed checked with success and nothing new. The
    report that [/news] sends goes from the check summary straight to the
    keyword block; its per-domain part is the empty text and does not say that
    nothing is new. *)
Theorem breakdown_missing_when_nothing_new :
  let manager := sampleManager ["https://a.com/sitemap.xml"] [] in
  let domainResults :=
    [("a.com", {| DomainData.domain := "a.com";
                  DomainData.newUrls := [];
                  DomainData.totalNew := 0 |})] in
  trace (snd (handleNewsCommand PlainURL.parse sampleConfig samplePlatform
                "chat" manager tt emptyWorld))
  = [ CallGetFeeds;
      TelegramSendMessage "chat" "开始手动触发统一检查...";
      CallDownloadSitemap "https://a.com/sitemap.xml" true;
      TelegramSendMessage "chat"
        (reportMessage PlainURL.parse "2024/01/02 03:04:05" domainResults [] 1 0) ]
  /\ domainBreakdown domainResults = ""
  /\ domainBreakdown domainResults <> noNewContent
  /\ reportMessage PlainURL.parse "2024/01/02 03:04:05" domainResults [] 1 0
     = (reportHead "2024/01/02 03:04:05" 1 0 ++ keywordBlock PlainURL.parse []
        ++ reportFoot [])%string.
Proof.
  cbv zeta. split; [| split; [| split]].
  - vm_compute. reflexivity.
  - vm_compute. reflexivity.
  - vm_compute. discriminate.
  - vm_compute. reflexivity.
Qed.

(** * Further properties *)

(** ** Loops, in general *)

Lemma for_index_related {L X : Type} (R : L * World -> L * World -> Prop)
    (body : Z -> X -> M L unit) :
  (forall s, R s s) ->
  (forall a b c, R a b -> R b c -> R a c) ->
  (forall i x l w, exists l' w', body i x l w = (JS.Returned tt, l', w') /\ R (l, w) (l', w')) ->
  forall xs i l w,
  exists l' w', for_index i xs body l w = (JS.Returned tt, l', w') /\ R (l, w) (l', w').
Proof.
  intros Hrefl Htrans Hbody. induction xs as [| x rest IH]; intros i l w; simpl.
  - exists l, w. split; [reflexivity | apply Hrefl].
  - destruct (Hbody i x l w) as [l1 [w1 [Hrun H1]]].
    rewrite (bind_returned _ _ _ _ _ _ _ Hrun).
    destruct (IH (i + 1) l1 w1) as [l2 [w2 [Hloop H2]]].
    exists l2, w2. split; [exact Hloop | eapply Htrans; eauto].
Qed.

Lemma for_of_related {L X : Type} (R : L * World -> L * World -> Prop)
    (body : X -> M L unit) :
  (forall s, R s s) ->
  (forall a b c, R a b -> R b c -> R a c) ->
  (forall x l w, exists l' w', body x l w = (JS.Returned tt, l', w') /\ R (l, w) (l', w')) ->
  forall xs l w,
  exists l' w', for_of xs body l w = (JS.Returned tt, l', w') /\ R (l, w) (l', w').
Proof.
  intros Hrefl Htrans Hbody. induction xs as [| x rest IH]; intros l w; simpl.
  - exists l, w. split; [reflexivity | apply Hrefl].
  - destruct (Hbody x l w) as [l1 [w1 [Hrun H1]]].
    rewrite (bind_returned _ _ _ _ _ _ _ Hrun).
    destruct (IH l1 w1) as [l2 [w2 [Hloop H2]]].
    exists l2, w2. split; [exact Hloop | eapply Htrans; eauto].
Qed.

(** Events outside the chat leave the notifications as they are. *)
Lemma extends_no_notification (ok : Event -> bool) (w w' : World) :
  (forall e, ok e = true -> notification e = false) ->
  extends ok w w' -> notifications (trace w') = notifications (trace w).
Proof.
  intros Hok [_ [events [Ht Hall]]]. rewrite Ht, notifications_app. clear Ht.
  assert (Hnone : notifications events = []).
  { induction events as [| e rest IH]; simpl in *; [reflexivity |].
    apply andb_true_iff in Hall as [He Hrest].
    rewrite (Hok e He). now apply IH. }
  now rewrite Hnone, app_nil_r.
Qed.

(** ** The pass, step by step *)

Section PassSteps.

Variable newURL : string -> JS.Outcome URL.
Variable telegramConfig : TelegramConfig.t.
Variable platform : Platform.

(** The pass always returns, whatever its collaborators do. *)
Lemma pass_returns (rssManager : option RSSManager) (batchSize : Z) (w : World) :
  fst (performScheduledMonitoringWith newURL telegramConfig platform rssManager batchSize tt w)
  = (JS.Returned tt, tt).
Proof.
  unfold performScheduledMonitoringWith, call.
  match goal with
  | |- context [try_catch ?body ?handler] =>
      destruct (try_catch_handled body handler) with (l := @nil string) (w := w) as [l' Hrun]
  end.
  { intros e l0 w0. now exists l0. }
  now rewrite Hrun.
Qed.

(** What follows the write only talks to the chat. *)
Lemma summary_tail (allNewUrls : list string) (w : World) :
  extends notification w
    (snd (when (len allNewUrls >? 0)
            (call tt (sendKeywordsSummary newURL telegramConfig platform
                        (Some allNewUrls) None))
            allNewUrls w)).
Proof.
  match goal with |- extends _ _ (snd (?m _ _)) => assert (Hq : quiet notification m) end.
  { repeat first [apply sendKeywordsSummary_quiet | quiet_step]. }
  apply Hq.
Qed.

(** With feeds, the pass is: read the position, run the loop over the batch,
    hand the progress record to the store, send the summary if anything is
    new. *)
Lemma pass_unfolds (batchSize : Z) (manager : RSSManager) (feeds : list string) (w : World) :
  getFeeds manager (trace w ++ [CallGetFeeds]) = JS.Returned feeds ->
  feeds <> [] ->
  let startIndex :=
    if kv_get_throws manager (trace w ++ [CallGetFeeds] ++ [CallKvGet PROCESSING_KEY]) then 0
    else lastIndexFrom (kv w PROCESSING_KEY) in
  let endIndex := endIndexOf batchSize feeds startIndex in
  let currentBatch := JS.slice feeds startIndex endIndex in
  exists (allNewUrls : list string) (w3 : World),
    monitoringLoop newURL telegramConfig platform manager currentBatch []
      (record (CallKvGet PROCESSING_KEY) (record CallGetFeeds w))
    = (JS.Returned tt, allNewUrls, w3)
    /\ kv w3 = kv w
    /\ inspected (trace w3) = inspected (trace w) ++ currentBatch
    /\ writes (trace w3) = writes (trace w)
    /\ let saved :=
         ProgressJSON {| Progress.lastIndex := nextIndexOf feeds endIndex;
                         Progress.lastUpdate := toISOString platform (trace w3);
                         Progress.totalFeeds := len feeds;
                         Progress.processedInThisBatch := len currentBatch |} in
       let w4 :=
         if kv_put_throws manager (trace w3 ++ [CallKvPut PROCESSING_KEY saved])
         then record (CallKvPut PROCESSING_KEY saved) w3
         else store PROCESSING_KEY saved (record (CallKvPut PROCESSING_KEY saved) w3) in
       snd (performScheduledMonitoringWith newURL telegramConfig platform (Some manager)
              batchSize tt w)
       = snd (when (len allNewUrls >? 0)
                (call tt (sendKeywordsSummary newURL telegramConfig platform
                            (Some allNewUrls) None))
                allNewUrls w4).
Proof.
  intros Hfeeds Hne startIndex endIndex currentBatch.
  destruct (monitoringLoop_runs newURL telegramConfig platform manager currentBatch currentBatch 0 []
              (record (CallKvGet PROCESSING_KEY) (record CallGetFeeds w)))
    as [allNewUrls [w3 [Hloop [Hkv3 [Hins3 Hwr3]]]]].
  simpl in Hkv3, Hins3, Hwr3.
  rewrite !inspected_app in Hins3. rewrite !writes_app in Hwr3. simpl in Hins3, Hwr3.
  rewrite !app_nil_r in Hins3, Hwr3.
  exists allNewUrls, w3. repeat (split; [assumption |]).
  intros saved w4.
  unfold performScheduledMonitoringWith.
  rewrite call_world, try_catch_world.
  rewrite (invoke_returned _ _ _ _ _ _ Hfeeds).
  replace (len feeds =? 0) with false
    by (symmetry; apply Z.eqb_neq; unfold len; destruct feeds; simpl; [congruence | lia]).
  rewrite (bind_returned _ _ _ _ _ _ _ (readLastIndex_runs manager [] (record CallGetFeeds w))).
  simpl trace. rewrite <- app_assoc. simpl kv.
  fold startIndex endIndex currentBatch.
  unfold monitoringLoop in Hloop |- *.
  rewrite (bind_returned _ _ _ _ _ _ _ Hloop).
  rewrite (bind_returned _ _ _ _ _ _ _
             (saveProgress_runs platform manager (nextIndexOf feeds endIndex)
                feeds currentBatch allNewUrls w3)).
  reflexivity.
Qed.

End PassSteps.

(** Case analysis on the innermost test the goal still branches on. *)
Ltac innermost_case :=
  match goal with
  | |- context [match ?x with _ => _ end] =>
      lazymatch x with
      | context [match _ with _ => _ end] => fail
      | _ => destruct x eqn:?
      end
  end.

Lemma extends_step (ok : Event -> bool) (e : Event) (w w' : World) :
  extends ok w w' -> ok e = true -> extends ok w (record e w').
Proof.
  intros H He. eapply extends_trans; [exact H | now apply extends_record].
Qed.

Lemma offChat_silent (w w' : World) :
  extends offChat w w' -> notifications (trace w') = notifications (trace w).
Proof.
  apply extends_no_notification. intros e He. unfold offChat in He.
  now destruct (notification e).
Qed.

Section PassFacts.

Variable newURL : string -> JS.Outcome URL.
Variable telegramConfig : TelegramConfig.t.
Variable platform : Platform.

(** Without a configured chat the two notifiers of the pass do nothing. *)
Lemma sendUpdateNotification_unconfigured (url : string) (newUrls : option (list string))
    (sitemapContent : option string) (batchMode : bool) :
  truthy (TelegramConfig.targetChat telegramConfig) = false ->
  sendUpdateNotification newURL telegramConfig platform url newUrls sitemapContent None batchMode
  = ret tt.
Proof.
  intros H. unfold sendUpdateNotification, or_else. simpl.
  destruct (TelegramConfig.targetChat telegramConfig) as [chat |]; [| reflexivity].
  simpl in H. destruct (String.eqb chat ""); [reflexivity | discriminate].
Qed.

Lemma sendKeywordsSummary_unconfigured (allNewUrls : option (list string)) :
  truthy (TelegramConfig.targetChat telegramConfig) = false ->
  sendKeywordsSummary newURL telegramConfig platform allNewUrls None = ret tt.
Proof.
  intros H. unfold sendKeywordsSummary, or_else. simpl.
  destruct (TelegramConfig.targetChat telegramConfig) as [chat |]; [| reflexivity].
  simpl in H. destruct (String.eqb chat ""); [reflexivity | discriminate].
Qed.

(** A turn of the loop on a feed with nothing to announce sends nothing and
    leaves [allNewUrls] alone. *)
Lemma checkFeed_no_news (manager : RSSManager) (currentBatch : list string)
    (i : Z) (url : string) (allNewUrls : list string) (w : World) :
  (forall history feed result,
     addFeed manager history feed = JS.Returned result -> noNews result = true) ->
  exists w',
    checkFeed newURL telegramConfig platform manager currentBatch i url allNewUrls w
    = (JS.Returned tt, allNewUrls, w')
    /\ extends offChat w w'.
Proof.
  intros Hno. unfold checkFeed, try_catch, bind, invoke, emit, answer, bind, when, sleep, emit, ret.
  simpl.
  destruct (addFeed manager (trace w ++ [CallAddFeed url]) url) as [result | e] eqn:Hadd.
  - apply Hno in Hadd. unfold noNews in Hadd.
    destruct result as [success dated newUrls errorMsg]. simpl in *.
    destruct success; simpl in *.
    + destruct newUrls as [[| u rest] |]; try discriminate;
        destruct dated; simpl;
        repeat (innermost_case; simpl);
        eexists; (split; [reflexivity |]);
        repeat (apply extends_step; [| reflexivity]); apply extends_refl.
    + destruct (i <? len currentBatch - 1); simpl;
        eexists; (split; [reflexivity |]);
        repeat (apply extends_step; [| reflexivity]); apply extends_refl.
  - eexists. split; [reflexivity |].
    repeat (apply extends_step; [| reflexivity]); apply extends_refl.
Qed.

(** Without a configured chat a turn of the loop sends nothing. *)
Lemma checkFeed_unconfigured (manager : RSSManager) (currentBatch : list string)
    (i : Z) (url : string) (allNewUrls : list string) (w : World) :
  truthy (TelegramConfig.targetChat telegramConfig) = false ->
  exists allNewUrls' w',
    checkFeed newURL telegramConfig platform manager currentBatch i url allNewUrls w
    = (JS.Returned tt, allNewUrls', w')
    /\ extends offChat w w'.
Proof.
  intros Hchat. unfold checkFeed.
  match goal with
  | |- context [try_catch ?body ?handler] =>
      destruct (try_catch_handled body handler) with (l := allNewUrls) (w := w) as [l' Hrun]
  end.
  { intros e l0 w0. now exists l0. }
  eexists. eexists. split; [exact Hrun |].
  eapply extends_trans; [apply (extends_record offChat (CallAddFeed url)); reflexivity |].
  apply after_invoke. intros result. unfold sleep.
  repeat first
    [ rewrite sendUpdateNotification_unconfigured by exact Hchat
    | quiet_step ].
Qed.

End PassFacts.

Lemma firstn_plus {A : Type} (m n : nat) (l : list A) :
  firstn m l ++ firstn n (skipn m l) = firstn (m + n) l.
Proof.
  revert l. induction m as [| m IH]; intros l; simpl.
  - reflexivity.
  - destruct l as [| a l]; simpl.
    + now rewrite firstn_nil.
    + now rewrite IH.
Qed.

(** Two adjoining slices make one. *)
Lemma slice_concat {A : Type} (arr : list A) (a b c : Z) :
  0 <= a <= b -> b <= c <= Z.of_nat (List.length arr) ->
  JS.slice arr a b ++ JS.slice arr b c = JS.slice arr a c.
Proof.
  intros Hab Hbc. rewrite !slice_inside by lia.
  replace (Z.to_nat b) with (Z.to_nat (b - a) + Z.to_nat a)%nat by lia.
  rewrite <- skipn_skipn, firstn_plus. f_equal. lia.
Qed.

Lemma slice_to_end {A : Type} (arr : list A) (a : Z) :
  0 <= a <= Z.of_nat (List.length arr) ->
  JS.slice arr a (Z.of_nat (List.length arr)) = skipn (Z.to_nat a) arr.
Proof.
  intros Ha. rewrite slice_inside by lia.
  apply firstn_all2. rewrite length_skipn. lia.
Qed.

Section PassTheorems.

Variable newURL : string -> JS.Outcome URL.
Variable telegramConfig : TelegramConfig.t.
Variable platform : Platform.

Lemma pass_feeds_thrown (batchSize : Z) (manager : RSSManager) (w : World) (e : string) :
  getFeeds manager (trace w ++ [CallGetFeeds]) = JS.Thrown e ->
  snd (performScheduledMonitoringWith newURL telegramConfig platform (Some manager) batchSize tt w)
  = record CallGetFeeds w.
Proof.
  intros Hfeeds. unfold performScheduledMonitoringWith.
  rewrite call_world, try_catch_world.
  unfold bind, invoke, emit, answer, bind. simpl. now rewrite Hfeeds.
Qed.

(** On a store that works, a pass from position [i] checks the feeds from
    [i] up to [min (i + B) L] and leaves the next position in the store. *)
Lemma pass_advances (batchSize i : Z) (manager : RSSManager) (feeds : list string) (w : World) :
  reliable manager feeds ->
  0 < len feeds -> 0 < batchSize ->
  lastIndexFrom (kv w PROCESSING_KEY) = i -> 0 <= i < len feeds ->
  let stop := Z.min (i + batchSize) (len feeds) in
  let w' :=
    snd (performScheduledMonitoringWith newURL telegramConfig platform (Some manager)
           batchSize tt w) in
  inspected (trace w') = inspected (trace w) ++ JS.slice feeds i stop
  /\ lastIndexFrom (kv w' PROCESSING_KEY) = (if stop >=? len feeds then 0 else stop).
Proof.
  intros [Hfeeds [Hget Hput]] HL HB Hi Hrange stop w'.
  destruct (pass_with_feeds newURL telegramConfig platform batchSize manager feeds w
              (Hfeeds _) (len_positive feeds HL)) as [now [Hins [_ [_ Hsaved]]]].
  fold w' in Hins, Hsaved. specialize (Hsaved Hput).
  rewrite Hget, Hi in Hins, Hsaved. unfold endIndexOf in Hins, Hsaved.
  fold stop in Hins, Hsaved.
  split; [exact Hins |].
  rewrite Hsaved. unfold lastIndexFrom. rewrite or_zero_number. reflexivity.
Qed.

End PassTheorems.

Section Cycles.

Variable newURL : string -> JS.Outcome URL.
Variable telegramConfig : TelegramConfig.t.
Variable platform : Platform.

Lemma passes_before_wrap (batchSize i : Z) (manager : RSSManager) (feeds : list string)
    (w : World) :
  reliable manager feeds ->
  0 < len feeds -> 0 < batchSize ->
  lastIndexFrom (kv w PROCESSING_KEY) = i -> 0 <= i ->
  forall k : nat,
    i + Z.of_nat k * batchSize < len feeds ->
    let wk := passes newURL telegramConfig platform (Some manager) batchSize k w in
    lastIndexFrom (kv wk PROCESSING_KEY) = i + Z.of_nat k * batchSize
    /\ inspected (trace wk)
       = inspected (trace w) ++ JS.slice feeds i (i + Z.of_nat k * batchSize).
Proof.
  intros Hrel HL HB Hi Hi0. induction k as [| k IH]; intros Hk wk.
  - subst wk. simpl passes. replace (i + Z.of_nat 0 * batchSize) with i by lia.
    split; [exact Hi |]. rewrite slice_empty by lia. now rewrite app_nil_r.
  - assert (Hstep : Z.of_nat (S k) * batchSize = Z.of_nat k * batchSize + batchSize) by lia.
    rewrite Hstep in Hk |- *.
    assert (Hk' : i + Z.of_nat k * batchSize < len feeds) by lia.
    destruct (IH Hk') as [Hcur Hins].
    assert (Hpos : 0 <= Z.of_nat k * batchSize) by (apply Z.mul_nonneg_nonneg; lia).
    destruct (pass_advances newURL telegramConfig platform batchSize
                (i + Z.of_nat k * batchSize) manager feeds _ Hrel HL HB Hcur)
      as [Hins' Hcur']; [lia |].
    subst wk. simpl passes.
    rewrite Z.min_l in Hins', Hcur' by lia.
    replace (i + Z.of_nat k * batchSize + batchSize >=? len feeds) with false in Hcur'
      by (symmetry; rewrite Z.geb_leb; apply Z.leb_gt; lia).
    split; [lia |].
    rewrite Hins', Hins, <- app_assoc. f_equal.
    replace (i + (Z.of_nat k * batchSize + batchSize))
      with (i + Z.of_nat k * batchSize + batchSize) by lia.
    apply slice_concat; unfold len in *; lia.
Qed.

(** X1. On a store that works and a feed list of L > 0 entries that stays
    the same, the passes that start at position i with batch size B > 0 move
    the stored position by B each time; after ceil((L - i) / B) of them every
    feed from i on has been checked exactly once, in order, and the position
    is back at 0. From i = 0 that is the whole list. *)
Theorem full_cycle_checks_each_feed_once (batchSize i : Z) (manager : RSSManager)
    (feeds : list string) (w : World) :
  reliable manager feeds ->
  0 < len feeds -> 0 < batchSize ->
  lastIndexFrom (kv w PROCESSING_KEY) = i -> 0 <= i < len feeds ->
  let run := passes newURL telegramConfig platform (Some manager) batchSize in
  let n := passesToWrap batchSize (len feeds) i in
  (forall k : nat,
     (k < n)%nat ->
     lastIndexFrom (kv (run k w) PROCESSING_KEY) = i + Z.of_nat k * batchSize
     /\ i + Z.of_nat k * batchSize < len feeds)
  /\ inspected (trace (run n w)) = inspected (trace w) ++ skipn (Z.to_nat i) feeds
  /\ lastIndexFrom (kv (run n w) PROCESSING_KEY) = 0.
Proof.
  intros Hrel HL HB Hi Hrange run n.
  set (q := (len feeds - i + batchSize - 1) / batchSize).
  assert (Hlow : batchSize * q <= len feeds - i + batchSize - 1)
    by (apply Z.mul_div_le; lia).
  assert (Hhigh : len feeds - i + batchSize - 1 < batchSize * Z.succ q)
    by (apply Z.mul_succ_div_gt; lia).
  assert (Hq : 1 <= q) by (apply Z.div_le_lower_bound; lia).
  assert (Hn : n = Z.to_nat q) by reflexivity.
  assert (Hbefore : forall k : nat, (k < n)%nat -> i + Z.of_nat k * batchSize < len feeds).
  { intros k Hk.
    assert (Z.of_nat k * batchSize <= (q - 1) * batchSize)
      by (apply Z.mul_le_mono_nonneg_r; lia).
    lia. }
  split.
  - intros k Hk. split; [| now apply Hbefore].
    apply (passes_before_wrap batchSize i manager feeds w Hrel HL HB Hi); [lia |].
    now apply Hbefore.
  - destruct n as [| m] eqn:Hm; [lia |].
    assert (Hlast : Z.of_nat m = q - 1) by lia.
    destruct (passes_before_wrap batchSize i manager feeds w Hrel HL HB Hi
                (proj1 Hrange) m (Hbefore m (Nat.lt_succ_diag_r m))) as [Hcur Hins].
    assert (Hpos : 0 <= Z.of_nat m * batchSize) by (apply Z.mul_nonneg_nonneg; lia).
    destruct (pass_advances newURL telegramConfig platform batchSize
                (i + Z.of_nat m * batchSize) manager feeds _ Hrel HL HB Hcur)
      as [Hins' Hcur'].
    { specialize (Hbefore m (Nat.lt_succ_diag_r m)). lia. }
    assert (Hend : len feeds <= i + Z.of_nat m * batchSize + batchSize).
    { rewrite Hlast. lia. }
    rewrite Z.min_r in Hins', Hcur' by lia.
    replace (len feeds >=? len feeds) with true in Hcur'
      by (symmetry; rewrite Z.geb_leb; apply Z.leb_refl).
    subst run. simpl passes. split; [| exact Hcur'].
    rewrite Hins', Hins, <- app_assoc. f_equal.
    specialize (Hbefore m (Nat.lt_succ_diag_r m)).
    unfold len in *. rewrite slice_concat by lia.
    apply slice_to_end. lia.
Qed.

End Cycles.

Lemma full_cycle_checks_each_feed_once_witness :
  let run := passes PlainURL.parse sampleConfig samplePlatform
               (Some (sampleManager sampleFeeds [])) 2 in
  let n := passesToWrap 2 (len sampleFeeds) 0 in
  (forall k : nat,
     (k < n)%nat ->
     lastIndexFrom (kv (run k emptyWorld) PROCESSING_KEY) = 0 + Z.of_nat k * 2
     /\ 0 + Z.of_nat k * 2 < len sampleFeeds)
  /\ inspected (trace (run n emptyWorld))
     = inspected (trace emptyWorld) ++ skipn (Z.to_nat 0) sampleFeeds
  /\ lastIndexFrom (kv (run n emptyWorld) PROCESSING_KEY) = 0.
Proof.
  apply (full_cycle_checks_each_feed_once PlainURL.parse sampleConfig samplePlatform
           2 0 (sampleManager sampleFeeds []) sampleFeeds emptyWorld).
  - repeat split.
  - unfold len, sampleFeeds. simpl. lia.
  - lia.
  - reflexivity.
  - unfold len, sampleFeeds. simpl. lia.
Defined.

Section PassEdges.

Variable newURL : string -> JS.Outcome URL.
Variable telegramConfig : TelegramConfig.t.
Variable platform : Platform.

(** X2. When the store holds no progress record, or text that is not JSON,
    or when reading it throws, the pass starts from the head of the list: it
    checks the first min(B, L) feeds. *)
Theorem missing_cursor_starts_at_zero (batchSize : Z) (manager : RSSManager)
    (feeds : list string) (w : World) :
  getFeeds manager (trace w ++ [CallGetFeeds]) = JS.Returned feeds ->
  0 < len feeds -> 0 < batchSize ->
  (kv_get_throws manager (trace w ++ [CallGetFeeds] ++ [CallKvGet PROCESSING_KEY]) = true
   \/ kv w PROCESSING_KEY = None
   \/ exists text, kv w PROCESSING_KEY = Some (NotJSON text)) ->
  let w' :=
    snd (performScheduledMonitoringWith newURL telegramConfig platform (Some manager)
           batchSize tt w) in
  inspected (trace w')
  = inspected (trace w) ++ firstn (Z.to_nat (Z.min batchSize (len feeds))) feeds.
Proof.
  intros Hfeeds HL HB Hcursor w'.
  destruct (pass_with_feeds newURL telegramConfig platform batchSize manager feeds w Hfeeds
              (len_positive feeds HL)) as [now [Hins _]].
  fold w' in Hins. rewrite Hins. f_equal.
  assert (Hstart :
    (if kv_get_throws manager (trace w ++ [CallGetFeeds] ++ [CallKvGet PROCESSING_KEY])
     then 0 else lastIndexFrom (kv w PROCESSING_KEY)) = 0).
  { destruct Hcursor as [-> | [-> | [text ->]]]; [reflexivity | |];
      now destruct (kv_get_throws manager _). }
  rewrite Hstart. unfold endIndexOf. simpl.
  rewrite slice_inside by (unfold len in *; lia).
  now rewrite Z.sub_0_r.
Qed.

(** X3. When the store refuses the write, a pass leaves the store as it was:
    however many passes run, each one checks the same batch again. *)
Theorem failed_write_repeats_batch (batchSize i : Z) (manager : RSSManager)
    (feeds : list string) (w : World) :
  (forall history, getFeeds manager history = JS.Returned feeds) ->
  (forall history, kv_get_throws manager history = false) ->
  (forall history, kv_put_throws manager history = true) ->
  0 < len feeds ->
  lastIndexFrom (kv w PROCESSING_KEY) = i ->
  forall n : nat,
    let wn := passes newURL telegramConfig platform (Some manager) batchSize n w in
    kv wn = kv w
    /\ inspected (trace wn)
       = inspected (trace w)
         ++ List.concat (repeat (JS.slice feeds i (endIndexOf batchSize feeds i)) n).
Proof.
  intros Hfeeds Hget Hput HL Hi. induction n as [| n [IHkv IHins]]; intros wn.
  - subst wn. simpl. now rewrite app_nil_r.
  - subst wn. simpl passes.
    set (wn := passes newURL telegramConfig platform (Some manager) batchSize n w) in *.
    destruct (pass_unfolds newURL telegramConfig platform batchSize manager feeds wn
                (Hfeeds _) (len_positive feeds HL))
      as [allNewUrls [w3 [_ [Hkv3 [Hins3 [_ Hrun]]]]]].
    cbv zeta in Hrun. rewrite Hput in Hrun.
    rewrite Hget, IHkv, Hi in Hins3.
    match type of Hrun with
    | _ = snd (_ _ ?w4) =>
        pose proof (summary_tail newURL telegramConfig platform allNewUrls w4) as Htail
    end.
    rewrite <- Hrun in Htail.
    apply (extends_weaken notification ancillary) in Htail; [| exact notification_ancillary].
    apply extends_ancillary in Htail as [Hkv5 [Hins5 _]].
    simpl in Hkv5, Hins5. rewrite inspected_app in Hins5. simpl in Hins5.
    rewrite app_nil_r in Hins5.
    split; [congruence |].
    rewrite Hins5, Hins3, IHins, <- app_assoc. f_equal.
    clear. induction n as [| n IH]; simpl.
    + now rewrite app_nil_r.
    + rewrite <- app_assoc. now rewrite IH.
Qed.

End PassEdges.

Lemma missing_cursor_starts_at_zero_witness :
  let w' :=
    snd (performScheduledMonitoringWith PlainURL.parse sampleConfig samplePlatform
           (Some (sampleManager sampleFeeds [])) 2 tt emptyWorld) in
  inspected (trace w')
  = inspected (trace emptyWorld) ++ firstn (Z.to_nat (Z.min 2 (len sampleFeeds))) sampleFeeds.
Proof.
  apply (missing_cursor_starts_at_zero PlainURL.parse sampleConfig samplePlatform
           2 (sampleManager sampleFeeds []) sampleFeeds emptyWorld).
  - reflexivity.
  - unfold len, sampleFeeds. simpl. lia.
  - lia.
  - right. left. reflexivity.
Defined.

Lemma failed_write_repeats_batch_witness :
  let wn := passes PlainURL.parse sampleConfig samplePlatform
              (Some (readOnlyManager sampleFeeds [])) 2 3 emptyWorld in
  kv wn = kv emptyWorld
  /\ inspected (trace wn)
     = inspected (trace emptyWorld)
       ++ List.concat (repeat (JS.slice sampleFeeds 0 (endIndexOf 2 sampleFeeds 0)) 3).
Proof.
  apply (failed_write_repeats_batch PlainURL.parse sampleConfig samplePlatform
           2 0 (readOnlyManager sampleFeeds []) sampleFeeds emptyWorld).
  - intros history. reflexivity.
  - intros history. reflexivity.
  - intros history. reflexivity.
  - unfold len, sampleFeeds. simpl. lia.
  - reflexivity.
Defined.

Section PassSilence.

Variable newURL : string -> JS.Outcome URL.
Variable telegramConfig : TelegramConfig.t.
Variable platform : Platform.

(** X4. A pass never throws to its caller: whatever the feed manager, the
    store and Telegram do, it returns; and before the application is
    initialised it does nothing at all. *)
Theorem pass_never_throws (rssManager : option RSSManager) (w : World) :
  fst (performScheduledMonitoring newURL telegramConfig platform rssManager tt w)
  = (JS.Returned tt, tt)
  /\ performScheduledMonitoring newURL telegramConfig platform None tt w
     = (JS.Returned tt, tt, w).
Proof.
  split; [apply pass_returns | reflexivity].
Qed.

(** X5. When the feed list cannot be read, the pass stops there: no feed is
    checked, nothing is handed to the store, nothing goes out to the chat. *)
Theorem unreadable_feed_list_stops_pass (manager : RSSManager) (w : World) (e : string) :
  getFeeds manager (trace w ++ [CallGetFeeds]) = JS.Thrown e ->
  let w' := snd (performScheduledMonitoring newURL telegramConfig platform (Some manager) tt w) in
  kv w' = kv w
  /\ inspected (trace w') = inspected (trace w)
  /\ writes (trace w') = writes (trace w)
  /\ notifications (trace w') = notifications (trace w).
Proof.
  intros Hfeeds w'. subst w'. unfold performScheduledMonitoring.
  rewrite (pass_feeds_thrown _ _ _ _ _ _ _ Hfeeds). simpl.
  rewrite inspected_app, writes_app, notifications_app. simpl. now rewrite !app_nil_r.
Qed.

(** The loop sends nothing and gathers nothing when no feed has news. *)
Lemma monitoringLoop_no_news (manager : RSSManager) (batch : list string)
    (allNewUrls : list string) (w : World) :
  (forall history feed result,
     addFeed manager history feed = JS.Returned result -> noNews result = true) ->
  exists w',
    monitoringLoop newURL telegramConfig platform manager batch allNewUrls w
    = (JS.Returned tt, allNewUrls, w')
    /\ extends offChat w w'.
Proof.
  intros Hno. unfold monitoringLoop.
  destruct (for_index_related
              (fun s s' : list string * World => fst s' = fst s /\ extends offChat (snd s) (snd s'))
              (checkFeed newURL telegramConfig platform manager batch))
    with (xs := batch) (i := 0) (l := allNewUrls) (w := w) as [l' [w' [Hrun [Hl Hext]]]].
  - intros s. split; [reflexivity | apply extends_refl].
  - intros a b c [Hab Eab] [Hbc Ebc]. split; [congruence | eapply extends_trans; eauto].
  - intros i x l0 w0.
    destruct (checkFeed_no_news newURL telegramConfig platform manager batch i x l0 w0 Hno)
      as [w1 [Hrun Hext]].
    exists l0, w1. auto.
  - simpl in Hl. subst l'. now exists w'.
Qed.

(** The loop sends nothing when no chat is configured. *)
Lemma monitoringLoop_unconfigured (manager : RSSManager) (batch : list string)
    (allNewUrls : list string) (w : World) :
  truthy (TelegramConfig.targetChat telegramConfig) = false ->
  exists allNewUrls' w',
    monitoringLoop newURL telegramConfig platform manager batch allNewUrls w
    = (JS.Returned tt, allNewUrls', w')
    /\ extends offChat w w'.
Proof.
  intros Hchat. unfold monitoringLoop.
  apply (for_index_related
           (fun s s' : list string * World => extends offChat (snd s) (snd s'))).
  - intros s. apply extends_refl.
  - intros a b c. apply extends_trans.
  - intros i x l0 w0.
    apply (checkFeed_unconfigured newURL telegramConfig platform manager batch i x l0 w0 Hchat).
Qed.

(** X6. A pass in which no feed check brings news (each one fails, throws, or
    reports no new URL) sends nothing to the chat: no update, no summary. *)
Theorem no_news_no_message (manager : RSSManager) (w : World) :
  (forall history feed result,
     addFeed manager history feed = JS.Returned result -> noNews result = true) ->
  let w' := snd (performScheduledMonitoring newURL telegramConfig platform (Some manager) tt w) in
  notifications (trace w') = notifications (trace w).
Proof.
  intros Hno w'. subst w'. unfold performScheduledMonitoring.
  destruct (getFeeds manager (trace w ++ [CallGetFeeds])) as [[| feed feeds] | e] eqn:Hfeeds.
  - rewrite (pass_without_feeds _ _ _ _ _ _ Hfeeds). simpl.
    rewrite notifications_app. simpl. now rewrite app_nil_r.
  - destruct (pass_unfolds newURL telegramConfig platform BATCH_SIZE manager _ w Hfeeds)
      as [allNewUrls [w3 [Hloop [_ [_ [_ Hrun]]]]]]; [discriminate |].
    cbv zeta in Hrun. rewrite Hrun. clear Hrun.
    match type of Hloop with
    | monitoringLoop _ _ _ _ ?batch _ ?w2 = _ =>
        destruct (monitoringLoop_no_news manager batch [] w2 Hno) as [w3' [Hloop' Hext]]
    end.
    rewrite Hloop in Hloop'. injection Hloop' as -> <-.
    unfold when. simpl. apply offChat_silent in Hext. simpl in Hext.
    rewrite !notifications_app in Hext. simpl in Hext. rewrite !app_nil_r in Hext.
    destruct (kv_put_throws manager _); simpl;
      rewrite notifications_app; simpl; now rewrite app_nil_r.
  - rewrite (pass_feeds_thrown _ _ _ _ _ _ _ Hfeeds). simpl.
    rewrite notifications_app. simpl. now rewrite app_nil_r.
Qed.

(** X7. Without a configured target chat a pass makes no request to Telegram
    at all, whatever the feeds report. *)
Theorem no_chat_no_message (rssManager : option RSSManager) (w : World) :
  truthy (TelegramConfig.targetChat telegramConfig) = false ->
  let w' := snd (performScheduledMonitoring newURL telegramConfig platform rssManager tt w) in
  notifications (trace w') = notifications (trace w).
Proof.
  intros Hchat w'. subst w'. unfold performScheduledMonitoring.
  destruct rssManager as [manager |]; [| reflexivity].
  destruct (getFeeds manager (trace w ++ [CallGetFeeds])) as [[| feed feeds] | e] eqn:Hfeeds.
  - rewrite (pass_without_feeds _ _ _ _ _ _ Hfeeds). simpl.
    rewrite notifications_app. simpl. now rewrite app_nil_r.
  - destruct (pass_unfolds newURL telegramConfig platform BATCH_SIZE manager _ w Hfeeds)
      as [allNewUrls [w3 [Hloop [_ [_ [_ Hrun]]]]]]; [discriminate |].
    cbv zeta in Hrun. rewrite Hrun. clear Hrun.
    match type of Hloop with
    | monitoringLoop _ _ _ _ ?batch _ ?w2 = _ =>
        destruct (monitoringLoop_unconfigured manager batch [] w2 Hchat)
          as [l3 [w3' [Hloop' Hext]]]
    end.
    rewrite Hloop in Hloop'. injection Hloop' as <- <-.
    rewrite (sendKeywordsSummary_unconfigured _ _ _ _ Hchat).
    apply offChat_silent in Hext. simpl in Hext.
    rewrite !notifications_app in Hext. simpl in Hext. rewrite !app_nil_r in Hext.
    assert (Hwhen : forall (b : bool) (l : list string) (w0 : World),
              snd (when b (call tt (ret tt : M unit unit)) l w0) = w0)
      by (intros [] l w0; reflexivity).
    rewrite Hwhen.
    destruct (kv_put_throws manager _); simpl;
      rewrite notifications_app; simpl; now rewrite app_nil_r.
  - rewrite (pass_feeds_thrown _ _ _ _ _ _ _ Hfeeds). simpl.
    rewrite notifications_app. simpl. now rewrite app_nil_r.
Qed.

End PassSilence.

Lemma unreadable_feed_list_stops_pass_witness :
  let w' :=
    snd (performScheduledMonitoring PlainURL.parse sampleConfig samplePlatform
           (Some unreachableManager) tt emptyWorld) in
  kv w' = kv emptyWorld
  /\ inspected (trace w') = inspected (trace emptyWorld)
  /\ writes (trace w') = writes (trace emptyWorld)
  /\ notifications (trace w') = notifications (trace emptyWorld).
Proof.
  apply (unreadable_feed_list_stops_pass PlainURL.parse sampleConfig samplePlatform
           unreachableManager emptyWorld "KV unavailable").
  reflexivity.
Defined.

Lemma no_news_no_message_witness :
  let w' :=
    snd (performScheduledMonitoring PlainURL.parse sampleConfig samplePlatform
           (Some (sampleManager sampleFeeds [])) tt emptyWorld) in
  notifications (trace w') = notifications (trace emptyWorld).
Proof.
  apply (no_news_no_message PlainURL.parse sampleConfig samplePlatform
           (sampleManager sampleFeeds []) emptyWorld).
  intros history feed result Hresult. injection Hresult as <-. reflexivity.
Defined.

Lemma no_chat_no_message_witness :
  let w' :=
    snd (performScheduledMonitoring PlainURL.parse unconfigured samplePlatform
           (Some (sampleManager sampleFeeds ["https://a.com/new-page"])) tt emptyWorld) in
  notifications (trace w') = notifications (trace emptyWorld).
Proof.
  apply (no_chat_no_message PlainURL.parse unconfigured samplePlatform
           (Some (sampleManager sampleFeeds ["https://a.com/new-page"])) emptyWorld).
  reflexivity.
Defined.

(** ** More on the statistics *)

Lemma sort_insert_Permutation {A : Type} (compareFn : A -> A -> Z) (a : A) (sorted : list A) :
  Permutation (JS.sort_insert compareFn a sorted) (a :: sorted).
Proof.
  induction sorted as [| b rest IH]; simpl.
  - apply Permutation_refl.
  - destruct (compareFn a b <=? 0).
    + apply Permutation_refl.
    + eapply Permutation_trans; [apply perm_skip, IH | apply perm_swap].
Qed.

(** Sorting only reorders. *)
Lemma sort_Permutation {A : Type} (compareFn : A -> A -> Z) (arr : list A) :
  Permutation (JS.sort compareFn arr) arr.
Proof.
  induction arr as [| a rest IH]; simpl.
  - apply Permutation_refl.
  - eapply Permutation_trans; [apply sort_insert_Permutation | now apply perm_skip].
Qed.

Lemma total_Permutation (l l' : list Z) : Permutation l l' -> total l = total l'.
Proof.
  induction 1; simpl; try lia.
Qed.

Lemma NoDup_firstn {A : Type} (n : nat) (l : list A) : NoDup l -> NoDup (firstn n l).
Proof.
  revert l. induction n as [| n IH]; intros l H; simpl; [constructor |].
  destruct l as [| a l]; [constructor |].
  inversion H as [| ? ? Ha Hl]; subst. constructor; [| now apply IH].
  intros Hin. apply Ha. now apply In_firstn in Hin.
Qed.

Lemma StronglySorted_cross {A : Type} (R : A -> A -> Prop) (l1 l2 : list A) :
  StronglySorted R (l1 ++ l2) -> forall a b, In a l1 -> In b l2 -> R a b.
Proof.
  induction l1 as [| x l1 IH]; simpl; intros H a b Ha Hb; [destruct Ha |].
  inversion H as [| ? ? Hrest Hx]; subst.
  destruct Ha as [<- | Ha].
  - rewrite Forall_forall in Hx. apply Hx. apply in_or_app. now right.
  - now apply IH.
Qed.

Lemma Map_set_total (m : JS.Map Z) (key : string) (value : Z) :
  total (List.map snd (JS.Map_set m key value))
  = total (List.map snd m) + value - JS.or_zero (JS.Map_get m key).
Proof.
  induction m as [| [k v] rest IH]; simpl.
  - lia.
  - destruct (String.eqb k key); simpl.
    + destruct (v =? 0) eqn:Hv; [apply Z.eqb_eq in Hv |]; lia.
    + rewrite IH. lia.
Qed.

(** The counts of the table add up to the number of keys met. *)
Lemma tally_total (occurrences : list string) :
  total (List.map snd (fold_left increment occurrences [])) = len occurrences.
Proof.
  unfold len. induction occurrences as [| k s IH] using rev_ind; simpl; [reflexivity |].
  rewrite fold_left_app. simpl. unfold increment at 1.
  rewrite Map_set_total, IH, length_app. simpl. lia.
Qed.

Section DomainFacts.

Variable newURL : string -> JS.Outcome URL.

Lemma countDomain_occurrences (urls : list string) (domainCounts : JS.Map Z) :
  fold_left (countDomain newURL) urls domainCounts
  = fold_left increment (hostOccurrences newURL urls) domainCounts.
Proof.
  unfold hostOccurrences. rewrite <- fold_left_flat_map.
  apply fold_left_ext_in. intros table url _. unfold countDomain.
  now destruct (newURL url).
Qed.

Lemma domains_as_sort (urls : list string) :
  extractDomainStats newURL urls
  = JS.sort (descending DomainStat.count)
      (List.map domainEntry (fold_left increment (hostOccurrences newURL urls) [])).
Proof.
  unfold extractDomainStats. now rewrite countDomain_occurrences.
Qed.

(** X8. The domain statistics list every host of a parseable URL exactly once,
    with the number of such URLs as its count; the counts add up to the
    number of parseable URLs; the list is in descending order of count, and
    hosts with the same count stay in the order they were first met. *)
Theorem domains_counted_and_ranked (urls : list string) :
  let stats := extractDomainStats newURL urls in
  let hosts := hostOccurrences newURL urls in
  NoDup (List.map DomainStat.domain stats)
  /\ (forall host, In host (List.map DomainStat.domain stats) <-> In host hosts)
  /\ (forall a, In a stats ->
        DomainStat.count a = Z.of_nat (count_occ string_dec hosts (DomainStat.domain a)))
  /\ total (List.map DomainStat.count stats) = len (filter (parses newURL) urls)
  /\ (forall (i j : nat) (a b : DomainStat.t),
        (i < j)%nat -> nth_error stats i = Some a -> nth_error stats j = Some b ->
        DomainStat.count a >= DomainStat.count b
        /\ (DomainStat.count a = DomainStat.count b ->
            (firstSeen (DomainStat.domain a) hosts
             < firstSeen (DomainStat.domain b) hosts)%nat)).
Proof.
  intros stats hosts. subst stats. rewrite domains_as_sort. fold hosts.
  set (table := fold_left increment hosts []).
  assert (Hperm : Permutation
                    (JS.sort (descending DomainStat.count) (List.map domainEntry table))
                    (List.map domainEntry table)) by apply sort_Permutation.
  assert (Hdomains : List.map DomainStat.domain (List.map domainEntry table) = List.map fst table)
    by (rewrite map_map; reflexivity).
  assert (Hcounts : List.map DomainStat.count (List.map domainEntry table) = List.map snd table)
    by (rewrite map_map; reflexivity).
  split; [| split; [| split; [| split]]].
  - eapply Permutation_NoDup; [apply Permutation_sym, Permutation_map, Hperm |].
    rewrite Hdomains. apply tally_NoDup.
  - intros host. rewrite <- (proj1 (tally_keys hosts) host). fold table.
    rewrite <- Hdomains. split; apply Permutation_in.
    + now apply Permutation_map.
    + now apply Permutation_sym, Permutation_map.
  - intros a Ha. apply sort_In, in_map_iff in Ha as [[k n] [<- Hentry]]. simpl.
    now apply tally_counts.
  - rewrite (total_Permutation _ _ (Permutation_map DomainStat.count Hperm)), Hcounts.
    unfold table. rewrite tally_total. unfold hosts, hostOccurrences, len. f_equal.
    clear. induction urls as [| url rest IH]; simpl; [reflexivity |].
    rewrite length_app, IH. unfold parses.
    destruct (newURL url); reflexivity.
  - set (rank := fun stat => firstSeen (DomainStat.domain stat) hosts).
    assert (Hsorted :
      StronglySorted (ahead DomainStat.count rank)
        (JS.sort (descending DomainStat.count) (List.map domainEntry table))).
    { apply sort_ahead, StronglySorted_map.
      apply StronglySorted_unmap with (f := fst)
        (R := fun a b => (firstSeen a hosts < firstSeen b hosts)%nat).
      apply (tally_keys hosts). }
    intros i j a b Hij Hi Hj.
    pose proof (StronglySorted_nth_error _ _ Hsorted i j a b Hij Hi Hj) as Hab.
    unfold ahead, rank in Hab. split; [lia |]. intros Heq. lia.
Qed.

End DomainFacts.

Lemma lower_char_dot (c : ascii) : Ascii.eqb (JS.lower_char c) "." = Ascii.eqb c ".".
Proof. destruct c as [[] [] [] [] [] [] [] []]; reflexivity. Qed.

Lemma lower_char_slash (c : ascii) : Ascii.eqb (JS.lower_char c) "/" = Ascii.eqb c "/".
Proof. destruct c as [[] [] [] [] [] [] [] []]; reflexivity. Qed.

Lemma includes_remove_hyphens (c : ascii) (s : string) :
  JS.includes c s = false -> JS.includes c (JS.remove_hyphens s) = false.
Proof.
  induction s as [| d s IH]; simpl; [reflexivity |].
  intros H. apply orb_false_iff in H as [Hd Hs].
  destruct (Ascii.eqb d "-"); simpl; [now apply IH |].
  now rewrite Hd, IH.
Qed.

(** The pieces of a split hold no separator. *)
Lemma split_no_separator (sep : ascii) (s piece : string) :
  In piece (JS.split sep s) -> JS.includes sep piece = false.
Proof.
  revert piece. induction s as [| c s IH]; simpl; intros piece H.
  - destruct H as [<- | []]. reflexivity.
  - destruct (Ascii.eqb c sep) eqn:Hc.
    + destruct H as [<- | H]; [reflexivity | now apply IH].
    + destruct (JS.split sep s) as [| head tail] eqn:Hsplit.
      * destruct H as [<- | []]. simpl. now rewrite Hc.
      * destruct H as [<- | H].
        -- simpl. rewrite Hc. apply IH. now left.
        -- apply IH. now right.
Qed.

Section KeywordMore.

Variable newURL : string -> JS.Outcome URL.

Lemma keywordOccurrences_plain (urls : list string) (k : string) :
  In k (keywordOccurrences newURL urls) ->
  JS.includes "/" k = false /\ JS.includes "." k = false.
Proof.
  unfold keywordOccurrences. intros Hk.
  apply in_flat_map in Hk as [url [_ Hk]].
  destruct (newURL url) as [urlObj | e]; [| destruct Hk].
  apply in_flat_map in Hk as [segment [Hseg Hk]].
  apply filter_In in Hseg as [Hseg _].
  apply split_no_separator in Hseg.
  unfold segmentKeywords, countSegment in Hk.
  destruct (meaningful segment) eqn:Hm; [| destruct Hk].
  destruct (2 <? String.length (JS.toLowerCase (JS.remove_hyphens segment)))%nat;
    [| destruct Hk].
  destruct Hk as [<- | []].
  unfold meaningful in Hm. rewrite !andb_true_iff, !negb_true_iff in Hm.
  destruct Hm as [[[_ _] Hdot] _].
  apply (includes_remove_hyphens "/") in Hseg. apply (includes_remove_hyphens ".") in Hdot.
  revert Hseg Hdot. generalize (JS.remove_hyphens segment). intros s.
  induction s as [| c s IH]; simpl; [auto |].
  rewrite lower_char_slash, lower_char_dot. intros H1 H2.
  apply orb_false_iff in H1 as [-> H1]. apply orb_false_iff in H2 as [-> H2].
  now apply IH.
Qed.

Lemma sorted_keywords (urls : list string) :
  let occurrences := keywordOccurrences newURL urls in
  let rank := fun stat => firstSeen (KeywordStat.keyword stat) occurrences in
  StronglySorted (ahead KeywordStat.count rank)
    (JS.sort (descending KeywordStat.count)
       (List.map keywordEntry (fold_left increment occurrences []))).
Proof.
  intros occurrences rank.
  apply sort_ahead, StronglySorted_map.
  apply StronglySorted_unmap with (f := fst)
    (R := fun a b => (firstSeen a occurrences < firstSeen b occurrences)%nat).
  apply (tally_keys occurrences).
Qed.

(** X9. The keywords [extractKeywords] returns are pairwise distinct, at most
    10, and none of them holds a slash or a dot. *)
Theorem keywords_distinct_and_plain (urls : list string) :
  NoDup (extractKeywords newURL urls)
  /\ (List.length (extractKeywords newURL urls) <= 10)%nat
  /\ forall k, In k (extractKeywords newURL urls) ->
       JS.includes "/" k = false /\ JS.includes "." k = false.
Proof.
  unfold extractKeywords. rewrite extract_as_sort.
  set (table := fold_left increment (keywordOccurrences newURL urls) []).
  split; [| split].
  - rewrite <- firstn_map. apply NoDup_firstn.
    eapply Permutation_NoDup;
      [apply Permutation_sym, Permutation_map, sort_Permutation |].
    rewrite map_map. apply tally_NoDup.
  - rewrite length_map. apply firstn_le_length.
  - intros k Hk. apply in_map_iff in Hk as [stat [<- Hstat]].
    apply In_firstn, sort_In, in_map_iff in Hstat as [[k n] [<- Hentry]]. simpl.
    apply (keywordOccurrences_plain urls).
    apply (proj1 (tally_keys _)). now apply (in_map fst) in Hentry.
Qed.

(** X10. The ten entries are the most frequent keywords: a keyword that was
    met but is not listed was met no more often than any listed one, and
    then the list is full. *)
Theorem keywords_top_ten (urls : list string) (k : string) (a : KeywordStat.t) :
  let stats := extractKeywordsWithCount newURL urls in
  let occurrences := keywordOccurrences newURL urls in
  In k occurrences ->
  ~ In k (List.map KeywordStat.keyword stats) ->
  List.length stats = 10%nat
  /\ (In a stats ->
      Z.of_nat (count_occ string_dec occurrences k) <= KeywordStat.count a).
Proof.
  intros stats occurrences Hk Hout. subst stats. rewrite extract_as_sort in *.
  fold occurrences in Hout |- *.
  set (sorted := JS.sort (descending KeywordStat.count)
                   (List.map keywordEntry (fold_left increment occurrences []))) in *.
  apply (proj1 (tally_keys occurrences)) in Hk.
  apply in_map_iff in Hk as [[k' n] [Hkey Hentry]]. simpl in Hkey. subst k'.
  assert (Hin : In (keywordEntry (k, n)) sorted).
  { apply sort_In. now apply in_map. }
  rewrite <- (firstn_skipn 10 sorted) in Hin.
  apply in_app_or in Hin as [Hin | Hin].
  { exfalso. apply Hout. now apply (in_map KeywordStat.keyword) in Hin. }
  split.
  - rewrite length_firstn. apply Nat.min_l.
    destruct (le_lt_dec 10 (List.length sorted)) as [H | H]; [exact H |].
    rewrite skipn_all2 in Hin by lia. destruct Hin.
  - intros Ha.
    pose proof (sorted_keywords urls) as Hsorted. cbv zeta in Hsorted.
    fold occurrences in Hsorted. fold sorted in Hsorted.
    rewrite <- (firstn_skipn 10 sorted) in Hsorted.
    pose proof (StronglySorted_cross _ _ _ Hsorted _ _ Ha Hin) as Hahead.
    rewrite <- (tally_counts occurrences k n Hentry).
    unfold ahead in Hahead. simpl in Hahead. lia.
Qed.

End KeywordMore.

Lemma keywords_top_ten_witness :
  let urls :=
    ["https://a.com/one/two/three/four/five/six"; "https://a.com/seven/eight/nine/ten1/one";
     "https://a.com/eleven"] in
  let stats := extractKeywordsWithCount PlainURL.parse urls in
  let occurrences := keywordOccurrences PlainURL.parse urls in
  List.length stats = 10%nat
  /\ (In {| KeywordStat.keyword := "one"; KeywordStat.count := 2 |} stats ->
      Z.of_nat (count_occ string_dec occurrences "eleven")
      <= KeywordStat.count {| KeywordStat.keyword := "one"; KeywordStat.count := 2 |}).
Proof.
  apply (keywords_top_ten PlainURL.parse
           ["https://a.com/one/two/three/four/five/six";
            "https://a.com/seven/eight/nine/ten1/one"; "https://a.com/eleven"]
           "eleven" {| KeywordStat.keyword := "one"; KeywordStat.count := 2 |}).
  - vm_compute. tauto.
  - vm_compute. intuition discriminate.
Defined.

(** ** The notifiers *)

Section NotifierBehaviour.

Variable newURL : string -> JS.Outcome URL.
Variable telegramConfig : TelegramConfig.t.
Variable platform : Platform.

Lemma sendMessage_runs (chatId text : string) (w : World) :
  sendMessage platform chatId text tt w
  = (if telegram_ok platform (trace w ++ [TelegramSendMessage chatId text])
     then JS.Returned tt
     else JS.Thrown (telegram_error platform (trace w ++ [TelegramSendMessage chatId text])),
     tt, record (TelegramSendMessage chatId text) w).
Proof.
  unfold sendMessage, try_catch, bind, emit, answer, throw, ret. simpl.
  now destruct (telegram_ok platform _).
Qed.

Lemma sendDocument_runs (chatId document filename caption : string) (w : World) :
  sendDocument platform chatId document filename caption tt w
  = (if telegram_ok platform
          (trace w ++ [TelegramSendDocument chatId document filename caption])
     then JS.Returned tt
     else JS.Thrown (telegram_error platform
                       (trace w ++ [TelegramSendDocument chatId document filename caption])),
     tt, record (TelegramSendDocument chatId document filename caption) w).
Proof.
  unfold sendDocument, try_catch, bind, emit, answer, throw, ret. simpl.
  now destruct (telegram_ok platform _).
Qed.

(** The configured chat, when there is one. *)
Lemma or_else_chat (targetChat : option string) :
  match or_else targetChat (TelegramConfig.targetChat telegramConfig) with
  | Some chatId => String.eqb chatId ""
  | None => true
  end = negb (truthy (or_else targetChat (TelegramConfig.targetChat telegramConfig))).
Proof.
  destruct (or_else targetChat (TelegramConfig.targetChat telegramConfig)) as [chat |];
    simpl; [| reflexivity].
  now rewrite negb_involutive.
Qed.

(** X11. An update notification throws in one case only: a chat is
    configured and the feed URL does not parse; it then has sent nothing.
    Without a chat it returns at once, and with a URL that parses it always
    returns, whatever Telegram answers. *)
Theorem update_notification_throws_only_on_bad_url (url : string)
    (newUrls : option (list string)) (sitemapContent targetChat : option string)
    (batchMode : bool) (w : World) :
  let run :=
    sendUpdateNotification newURL telegramConfig platform
      url newUrls sitemapContent targetChat batchMode tt w in
  if truthy (or_else targetChat (TelegramConfig.targetChat telegramConfig)) then
    match newURL url with
    | JS.Thrown e => run = (JS.Thrown e, tt, w)
    | JS.Returned _ => fst run = (JS.Returned tt, tt)
    end
  else run = (JS.Returned tt, tt, w).
Proof.
  intros run. subst run. unfold sendUpdateNotification.
  destruct (or_else targetChat (TelegramConfig.targetChat telegramConfig)) as [chat |];
    simpl; [| reflexivity].
  destruct (String.eqb chat ""); simpl; [reflexivity |].
  unfold bind at 1, answer. destruct (newURL url) as [urlObj | e]; [| reflexivity].
  destruct newUrls as [urls |]; [| reflexivity].
  destruct (len urls =? 0); [reflexivity |].
  match goal with
  | |- context [try_catch ?body ?handler] =>
      destruct (try_catch_handled body handler) with (l := tt) (w := w) as [[] Hrun]
  end.
  { intros e l0 w0. now exists l0. }
  now rewrite Hrun.
Qed.

(** X12. With a chat, a feed URL that parses, at least one new URL and a
    Telegram that accepts every request, an update notification is, in this
    order: the header (the caption of the sitemap file when there is one), one
    message listing the links, a pause of 500 ms, the closing message. In
    batch mode the list holds the first 5 links at most, otherwise all. *)
Theorem update_notification_in_order (url chatId : string) (urlObj : URL)
    (newUrls : list string) (sitemapContent targetChat : option string)
    (batchMode : bool) (w : World) :
  or_else targetChat (TelegramConfig.targetChat telegramConfig) = Some chatId ->
  chatId <> "" ->
  newURL url = JS.Returned urlObj ->
  newUrls <> [] ->
  (forall history, telegram_ok platform history = true) ->
  let shown := JS.slice newUrls 0 (linkLimit batchMode newUrls) in
  sendUpdateNotification newURL telegramConfig platform
    url (Some newUrls) sitemapContent targetChat batchMode tt w
  = (JS.Returned tt, tt,
     {| kv := kv w;
        trace :=
          trace w
          ++ [ announcement platform (trace w) chatId (hostname urlObj) url newUrls
                 sitemapContent;
               TelegramSendMessage chatId
                 (urlMessage shown newUrls (linkLimit batchMode newUrls));
               Timeout 500;
               TelegramSendMessage chatId (endMessage (hostname urlObj)) ] |})
  /\ List.length shown
     = (if batchMode then Nat.min 5 (List.length newUrls) else List.length newUrls).
Proof.
  intros Hchat Hne Hurl Hnew Hok shown.
  assert (Hlen : (len newUrls =? 0) = false).
  { apply Z.eqb_neq. unfold len. destruct newUrls; simpl; [congruence | lia]. }
  assert (Hshown : List.length shown
                   = if batchMode then Nat.min 5 (List.length newUrls)
                     else List.length newUrls).
  { subst shown. unfold linkLimit, len.
    destruct batchMode.
    - replace (Z.min 5 (Z.of_nat (List.length newUrls)))
        with (Z.of_nat (Nat.min 5 (List.length newUrls))) by lia.
      rewrite slice_from_0, length_firstn. lia.
    - rewrite slice_from_0, length_firstn. lia. }
  split; [| exact Hshown].
  assert (Hsome : (len shown >? 0) = true).
  { unfold len. rewrite Hshown. apply Z.gtb_lt.
    destruct newUrls; [congruence |]. destruct batchMode; simpl; lia. }
  unfold sendUpdateNotification. rewrite Hchat.
  replace (String.eqb chatId "") with false by (symmetry; now apply String.eqb_neq).
  unfold bind at 1, answer. rewrite Hurl, Hlen.
  unfold try_catch, bind, answer, when, sleep, emit, ret, announcement.
  fold (linkLimit batchMode newUrls). fold shown. rewrite Hsome.
  destruct sitemapContent as [content |]; [destruct (String.eqb content "") |];
    rewrite ?sendMessage_runs, ?sendDocument_runs, ?Hok; simpl;
    rewrite ?sendMessage_runs, ?Hok; simpl;
    rewrite ?sendMessage_runs, ?Hok; simpl;
    unfold record; simpl; rewrite <- ?app_assoc; reflexivity.
Qed.

(** X13. When Telegram refuses the header, an update notification stops
    there, whatever Telegram would answer later: the link list and the
    closing message are not sent, there is no pause, and the failure does not
    reach the caller. *)
Theorem update_notification_stops_at_first_failure (url chatId : string) (urlObj : URL)
    (newUrls : list string) (sitemapContent targetChat : option string)
    (batchMode : bool) (w : World) :
  or_else targetChat (TelegramConfig.targetChat telegramConfig) = Some chatId ->
  chatId <> "" ->
  newURL url = JS.Returned urlObj ->
  newUrls <> [] ->
  telegram_ok platform
    (trace w ++ [announcement platform (trace w) chatId (hostname urlObj) url newUrls
                   sitemapContent]) = false ->
  sendUpdateNotification newURL telegramConfig platform
    url (Some newUrls) sitemapContent targetChat batchMode tt w
  = (JS.Returned tt, tt,
     record (announcement platform (trace w) chatId (hostname urlObj) url newUrls
               sitemapContent) w).
Proof.
  intros Hchat Hne Hurl Hnew Hok. unfold announcement in Hok.
  assert (Hlen : (len newUrls =? 0) = false).
  { apply Z.eqb_neq. unfold len. destruct newUrls; simpl; [congruence | lia]. }
  unfold sendUpdateNotification. rewrite Hchat.
  replace (String.eqb chatId "") with false by (symmetry; now apply String.eqb_neq).
  unfold bind at 1, answer. rewrite Hurl, Hlen.
  unfold try_catch, bind, answer, ret, announcement.
  destruct sitemapContent as [content |]; [destruct (String.eqb content "") |];
    rewrite ?sendMessage_runs, ?sendDocument_runs; cbv beta iota zeta;
    rewrite ?Hok; reflexivity.
Qed.

End NotifierBehaviour.

Lemma update_notification_in_order_witness :
  let shown := JS.slice ["https://a.com/new-page"] 0 (linkLimit false ["https://a.com/new-page"]) in
  sendUpdateNotification PlainURL.parse sampleConfig samplePlatform
    "https://a.com/sitemap.xml" (Some ["https://a.com/new-page"]) None None false tt emptyWorld
  = (JS.Returned tt, tt,
     {| kv := kv emptyWorld;
        trace :=
          trace emptyWorld
          ++ [ announcement samplePlatform (trace emptyWorld) "chat"
                 (hostname {| hostname := "a.com"; pathname := "/sitemap.xml" |})
                 "https://a.com/sitemap.xml" ["https://a.com/new-page"] None;
               TelegramSendMessage "chat"
                 (urlMessage shown ["https://a.com/new-page"]
                    (linkLimit false ["https://a.com/new-page"]));
               Timeout 500;
               TelegramSendMessage "chat"
                 (endMessage (hostname {| hostname := "a.com"; pathname := "/sitemap.xml" |})) ] |})
  /\ List.length shown
     = (if false then Nat.min 5 (List.length ["https://a.com/new-page"])
        else List.length ["https://a.com/new-page"]).
Proof.
  apply (update_notification_in_order PlainURL.parse sampleConfig samplePlatform
           "https://a.com/sitemap.xml" "chat"
           {| hostname := "a.com"; pathname := "/sitemap.xml" |}
           ["https://a.com/new-page"] None None false emptyWorld).
  - reflexivity.
  - discriminate.
  - reflexivity.
  - discriminate.
  - intros history. reflexivity.
Defined.

Lemma update_notification_stops_at_first_failure_witness :
  sendUpdateNotification PlainURL.parse sampleConfig firstRefused
    "https://a.com/sitemap.xml" (Some ["https://a.com/new-page"]) None None false tt emptyWorld
  = (JS.Returned tt, tt,
     record (announcement firstRefused (trace emptyWorld) "chat"
               (hostname {| hostname := "a.com"; pathname := "/sitemap.xml" |})
               "https://a.com/sitemap.xml" ["https://a.com/new-page"] None) emptyWorld).
Proof.
  apply (update_notification_stops_at_first_failure PlainURL.parse sampleConfig firstRefused
           "https://a.com/sitemap.xml" "chat"
           {| hostname := "a.com"; pathname := "/sitemap.xml" |}
           ["https://a.com/new-page"] None None false emptyWorld).
  - reflexivity.
  - discriminate.
  - reflexivity.
  - discriminate.
  - reflexivity.
Defined.

Section Digests.

Variable newURL : string -> JS.Outcome URL.
Variable telegramConfig : TelegramConfig.t.
Variable platform : Platform.

Lemma sendKeywordsSummary_runs (allNewUrls : list string) (targetChat : option string)
    (w : World) :
  let chat := or_else targetChat (TelegramConfig.targetChat telegramConfig) in
  let chatId := match chat with Some chatId => chatId | None => "" end in
  sendKeywordsSummary newURL telegramConfig platform (Some allNewUrls) targetChat tt w
  = (JS.Returned tt, tt,
     if truthy chat && (len allNewUrls >? 0)
     then record (TelegramSendMessage chatId
                    (summaryMessage newURL allNewUrls (toLocaleString platform (trace w)))) w
     else w).
Proof.
  intros chat chatId. subst chatId chat. unfold sendKeywordsSummary.
  destruct (or_else targetChat (TelegramConfig.targetChat telegramConfig)) as [chatId |];
    simpl; [| reflexivity].
  destruct (String.eqb chatId ""); simpl; [reflexivity |].
  destruct allNewUrls as [| u rest]; [reflexivity |].
  replace (len (u :: rest) =? 0) with false
    by (symmetry; apply Z.eqb_neq; unfold len; simpl; lia).
  replace (len (u :: rest) >? 0) with true
    by (symmetry; apply Z.gtb_lt; unfold len; simpl; lia).
  unfold try_catch, bind, answer, ret. rewrite sendMessage_runs.
  now destruct (telegram_ok platform _).
Qed.

Lemma sendUnifiedReport_runs (domainResults : JS.Map DomainData.t)
    (allNewUrls : list string) (processedCount errorCount : Z)
    (targetChat : option string) (w : World) :
  let chat := or_else targetChat (TelegramConfig.targetChat telegramConfig) in
  let chatId := match chat with Some chatId => chatId | None => "" end in
  sendUnifiedReport newURL telegramConfig platform
    domainResults allNewUrls processedCount errorCount targetChat tt w
  = (JS.Returned tt, tt,
     if truthy chat
     then record (TelegramSendMessage chatId
                    (reportMessage newURL (toLocaleStringOptions platform (trace w))
                       domainResults allNewUrls processedCount errorCount)) w
     else w).
Proof.
  intros chat chatId. subst chatId chat. unfold sendUnifiedReport.
  destruct (or_else targetChat (TelegramConfig.targetChat telegramConfig)) as [chatId |];
    simpl; [| reflexivity].
  destruct (String.eqb chatId ""); simpl; [reflexivity |].
  unfold try_catch, bind, answer, ret. rewrite sendMessage_runs.
  now destruct (telegram_ok platform _).
Qed.

(** X14. The keyword summary and the unified report never throw, whatever
    Telegram answers, and each makes one request at most: none without a
    chat, none for a summary without new URLs, otherwise the one message
    built from the clock at that moment. *)
Theorem digests_send_one_message_at_most (domainResults : JS.Map DomainData.t)
    (allNewUrls : list string) (processedCount errorCount : Z)
    (targetChat : option string) (w : World) :
  let chat := or_else targetChat (TelegramConfig.targetChat telegramConfig) in
  let chatId := match chat with Some chatId => chatId | None => "" end in
  sendKeywordsSummary newURL telegramConfig platform (Some allNewUrls) targetChat tt w
  = (JS.Returned tt, tt,
     if truthy chat && (len allNewUrls >? 0)
     then record (TelegramSendMessage chatId
                    (summaryMessage newURL allNewUrls (toLocaleString platform (trace w)))) w
     else w)
  /\ sendKeywordsSummary newURL telegramConfig platform None targetChat tt w
     = (JS.Returned tt, tt, w)
  /\ sendUnifiedReport newURL telegramConfig platform
       domainResults allNewUrls processedCount errorCount targetChat tt w
     = (JS.Returned tt, tt,
        if truthy chat
        then record (TelegramSendMessage chatId
                       (reportMessage newURL (toLocaleStringOptions platform (trace w))
                          domainResults allNewUrls processedCount errorCount)) w
        else w).
Proof.
  intros chat chatId. split; [apply sendKeywordsSummary_runs |].
  split; [| apply sendUnifiedReport_runs].
  unfold sendKeywordsSummary.
  destruct (or_else targetChat (TelegramConfig.targetChat telegramConfig)) as [c |];
    [| reflexivity].
  now destruct (String.eqb c "").
Qed.

End Digests.

(** ** The [/news] run *)

Lemma Map_get_set_same {V : Type} (m : JS.Map V) (key : string) (value : V) :
  JS.Map_get (JS.Map_set m key value) key = Some value.
Proof.
  induction m as [| [k v] rest IH]; simpl.
  - now rewrite String.eqb_refl.
  - destruct (String.eqb k key) eqn:Hk; simpl; now rewrite Hk.
Qed.

Lemma NoDup_snoc {A : Type} (l : list A) (x : A) : NoDup l -> ~ In x l -> NoDup (l ++ [x]).
Proof.
  intros Hl Hx. apply NoDup_rev in Hl. rewrite <- (rev_involutive (l ++ [x])).
  apply NoDup_rev. rewrite rev_app_distr. simpl.
  constructor; [now rewrite <- in_rev | exact Hl].
Qed.

Lemma Map_set_NoDup {V : Type} (m : JS.Map V) (key : string) (value : V) :
  NoDup (List.map fst m) -> NoDup (List.map fst (JS.Map_set m key value)).
Proof.
  intros H. rewrite Map_set_keys.
  destruct (JS.Map_get m key) eqn:Hget; [exact H |].
  apply NoDup_snoc; [exact H | now apply Map_get_None].
Qed.

Lemma Map_set_totalNew (m : JS.Map DomainData.t) (key : string) (value : DomainData.t) :
  totalNewOf (JS.Map_set m key value)
  = totalNewOf m + DomainData.totalNew value
    - match JS.Map_get m key with
      | Some old => DomainData.totalNew old
      | None => 0
      end.
Proof.
  unfold totalNewOf. induction m as [| [k v] rest IH]; simpl.
  - lia.
  - destruct (String.eqb k key); simpl; [lia |]. rewrite IH. lia.
Qed.

(** Opening an entry for a domain seen for the first time. *)
Lemma tidy_open (l : NewsLocals.t) (domain : string) :
  JS.Map_get (NewsLocals.domainResults l) domain = None ->
  tidy l ->
  tidy (setDomain domain
          {| DomainData.domain := domain; DomainData.newUrls := []; DomainData.totalNew := 0 |}
          l).
Proof.
  intros Hget [Hcons [Hnodup Htotal]]. unfold tidy, setDomain. simpl.
  split; [| split].
  - apply Map_set_Forall; [exact Hcons | simpl; auto].
  - now apply Map_set_NoDup.
  - rewrite Map_set_totalNew, Hget. simpl. lia.
Qed.

(** Adding the new URLs of a feed to the entry of its domain and to the list
    of all new URLs. *)
Lemma tidy_add (l : NewsLocals.t) (domain : string) (domainData : DomainData.t)
    (newUrls : list string) :
  JS.Map_get (NewsLocals.domainResults l) domain = Some domainData ->
  tidy l ->
  tidy (pushNewUrls newUrls (setDomain domain (addNewUrls newUrls domainData) l)).
Proof.
  intros Hget [Hcons [Hnodup Htotal]]. unfold tidy, pushNewUrls, setDomain. simpl.
  pose proof (Map_get_In _ _ _ Hget) as Hin.
  unfold consistent in Hcons. rewrite Forall_forall in Hcons.
  destruct (Hcons _ Hin) as [Hdom Hnew]. simpl in Hdom, Hnew.
  split; [| split].
  - apply Map_set_Forall; [now apply Forall_forall |]. simpl. split; [exact Hdom |].
    unfold len in *. rewrite length_app. lia.
  - now apply Map_set_NoDup.
  - rewrite Map_set_totalNew, Hget. simpl. unfold len in *. rewrite length_app. lia.
Qed.

Lemma tidy_counts (l : NewsLocals.t) :
  (tidy l -> tidy (countProcessed l)) /\ (tidy l -> tidy (countError l)).
Proof. split; intros H; exact H. Qed.

Section NewsRun.

Variable newURL : string -> JS.Outcome URL.
Variable telegramConfig : TelegramConfig.t.
Variable platform : Platform.

Lemma checkForNews_turn (manager : RSSManager) (url : string) (l : NewsLocals.t) (w : World) :
  exists l',
    checkForNews newURL manager url l w
    = (JS.Returned tt, l', record (CallDownloadSitemap url true) w)
    /\ turnOf l l'.
Proof.
  unfold checkForNews, try_catch, bind, invoke, emit, answer, assign, locals, bind. simpl.
  destruct (downloadSitemap manager (trace w ++ [CallDownloadSitemap url true]) url true)
    as [[success dated newUrls errorMsg] | e]; simpl.
  2: { exists (countError l). split; [reflexivity |]. unfold turnOf. simpl.
       split; [intros Htidy; exact Htidy | lia]. }
  destruct success; simpl.
  2: { exists (countProcessed l). split; [reflexivity |]. unfold turnOf. simpl.
       split; [intros Htidy; exact Htidy | lia]. }
  destruct (newURL url) as [urlObj | e]; simpl.
  2: { exists (countError (countProcessed l)). split; [reflexivity |]. unfold turnOf. simpl.
       split; [intros Htidy; exact Htidy | lia]. }
  unfold JS.Map_has.
  destruct (JS.Map_get (NewsLocals.domainResults l) (hostname urlObj)) as [domainData |] eqn:Hget;
    simpl.
  - destruct newUrls as [newUrls |]; simpl.
    + destruct (len newUrls >? 0); simpl.
      * rewrite Hget. simpl. eexists. split; [reflexivity |]. unfold turnOf. simpl.
        split; [| lia]. intros Htidy.
        apply (tidy_add (countProcessed l) _ _ _ Hget Htidy).
      * eexists. split; [reflexivity |]. unfold turnOf. simpl.
        split; [intros Htidy; exact Htidy | lia].
    + eexists. split; [reflexivity |]. unfold turnOf. simpl.
        split; [intros Htidy; exact Htidy | lia].
  - destruct newUrls as [newUrls |]; simpl.
    + destruct (len newUrls >? 0); simpl.
      * rewrite Map_get_set_same. simpl. eexists. split; [reflexivity |].
        unfold turnOf. simpl. split; [| lia]. intros Htidy.
        apply (tidy_add
                 (setDomain (hostname urlObj)
                    {| DomainData.domain := hostname urlObj;
                       DomainData.newUrls := [];
                       DomainData.totalNew := 0 |} (countProcessed l))).
        -- simpl. apply Map_get_set_same.
        -- now apply (tidy_open (countProcessed l)).
      * eexists. split; [reflexivity |]. unfold turnOf. simpl.
        split; [| lia]. intros Htidy. now apply (tidy_open (countProcessed l)).
    + eexists. split; [reflexivity |]. unfold turnOf. simpl.
      split; [| lia]. intros Htidy. now apply (tidy_open (countProcessed l)).
Qed.

End NewsRun.

Lemma try_catch_cases {L A : Type} (body : M L A) (handler : string -> M L A)
    (l : L) (w : World) :
  (exists a l' w', try_catch body handler l w = (JS.Returned a, l', w'))
  \/ (exists e l' w', try_catch body handler l w = handler e l' w').
Proof.
  unfold try_catch. destruct (body l w) as [[[a | e] l'] w']; [left | right]; eauto.
Qed.

Lemma call_run {L L' A : Type} (init : L') (f : M L' A) (l : L) (w : World) :
  call init f l w = (fst (fst (f init w)), l, snd (f init w)).
Proof. unfold call. now destruct (f init w) as [[r l'] w']. Qed.

Section NewsCommand.

Variable newURL : string -> JS.Outcome URL.
Variable telegramConfig : TelegramConfig.t.
Variable platform : Platform.

(** The loop downloads every feed once, in order and with [forceRefresh],
    emits nothing else, and keeps the books. *)
Lemma newsLoop_books (manager : RSSManager) :
  forall (feeds : list string) (l : NewsLocals.t) (w : World),
  exists l',
    newsLoop newURL manager feeds l w
    = (JS.Returned tt, l', {| kv := kv w; trace := trace w ++ forcedDownloads feeds |})
    /\ (tidy l -> tidy l')
    /\ NewsLocals.processedCount l <= NewsLocals.processedCount l'
       <= NewsLocals.processedCount l + len feeds
    /\ NewsLocals.errorCount l <= NewsLocals.errorCount l'
       <= NewsLocals.errorCount l + len feeds
    /\ NewsLocals.processedCount l + NewsLocals.errorCount l + len feeds
       <= NewsLocals.processedCount l' + NewsLocals.errorCount l'.
Proof.
  unfold newsLoop. induction feeds as [| url rest IH]; intros l w; simpl.
  - exists l. unfold ret, len. simpl. rewrite app_nil_r.
    split; [now destruct w |]. split; [auto | lia].
  - destruct (checkForNews_turn newURL manager url l w) as [l1 [Hrun [Htidy1 Hcount1]]].
    rewrite (bind_returned _ _ _ _ _ _ _ Hrun).
    destruct (IH l1 (record (CallDownloadSitemap url true) w))
      as [l2 [Hloop [Htidy2 Hcount2]]].
    exists l2. rewrite Hloop. simpl. rewrite <- app_assoc. simpl.
    split; [reflexivity |]. split; [auto |].
    unfold len in *. simpl List.length. lia.
Qed.

Lemma call_sendMessage_ok {L : Type} (chatId text : string) (l : L) (w : World) :
  (forall history, telegram_ok platform history = true) ->
  call tt (sendMessage platform chatId text) l w
  = (JS.Returned tt, l, record (TelegramSendMessage chatId text) w).
Proof.
  intros Hok. unfold call. now rewrite sendMessage_runs, Hok.
Qed.

(** X15. [/news] on a non-empty feed list, with a Telegram that accepts every
    request: one opening message, then every feed downloaded once, in order
    and with [forceRefresh], then one report. The figures of the report
    agree: every domain has one entry whose count is the number of its
    links, the counts add up to the number of new URLs, and the checked and
    failed counts are each at most the number of feeds and together at
    least that number. *)
Theorem manual_digest (chatId : string) (manager : RSSManager) (feeds : list string)
    (w : World) :
  getFeeds manager (trace w ++ [CallGetFeeds]) = JS.Returned feeds ->
  feeds <> [] ->
  chatId <> "" ->
  (forall history, telegram_ok platform history = true) ->
  let before :=
    trace w ++ [CallGetFeeds; TelegramSendMessage chatId "开始手动触发统一检查..."]
    ++ forcedDownloads feeds in
  exists l : NewsLocals.t,
    handleNewsCommand newURL telegramConfig platform chatId manager tt w
    = (JS.Returned tt, tt,
       {| kv := kv w;
          trace :=
            before
            ++ [TelegramSendMessage chatId
                  (reportMessage newURL (toLocaleStringOptions platform before)
                     (NewsLocals.domainResults l) (NewsLocals.allNewUrls l)
                     (NewsLocals.processedCount l) (NewsLocals.errorCount l))] |})
    /\ tidy l
    /\ 0 <= NewsLocals.processedCount l <= len feeds
    /\ 0 <= NewsLocals.errorCount l <= len feeds
    /\ len feeds <= NewsLocals.processedCount l + NewsLocals.errorCount l.
Proof.
  intros Hfeeds Hne Hchat Hok before.
  destruct (newsLoop_books manager feeds newsStart
              (record (TelegramSendMessage chatId "开始手动触发统一检查...")
                 (record CallGetFeeds w)))
    as [l [Hloop [Htidy Hcount]]].
  exists l. split.
  - unfold handleNewsCommand, call, try_catch.
    rewrite (invoke_returned _ _ _ _ _ _ Hfeeds).
    replace (len feeds =? 0) with false
      by (symmetry; apply Z.eqb_neq; unfold len; destruct feeds; simpl; [congruence | lia]).
    cbv iota.
    rewrite (bind_returned _ _ _ _ _ _ _
               (call_sendMessage_ok chatId "开始手动触发统一检查..." newsStart
                  (record CallGetFeeds w) Hok)).
    rewrite (bind_returned _ _ _ _ _ _ _ Hloop).
    unfold bind, locals, call.
    pose proof (sendUnifiedReport_runs newURL telegramConfig platform
                (NewsLocals.domainResults l) (NewsLocals.allNewUrls l)
                (NewsLocals.processedCount l) (NewsLocals.errorCount l) (Some chatId)
                {| kv := kv (record (TelegramSendMessage chatId "开始手动触发统一检查...")
                               (record CallGetFeeds w));
                   trace :=
                     trace (record (TelegramSendMessage chatId "开始手动触发统一检查...")
                              (record CallGetFeeds w))
                     ++ forcedDownloads feeds |})
      as Hreport.
    cbv zeta in Hreport. rewrite Hreport.
    assert (Hor : or_else (Some chatId) (TelegramConfig.targetChat telegramConfig)
                  = Some chatId).
    { unfold or_else. simpl.
      replace (String.eqb chatId "") with false by (symmetry; now apply String.eqb_neq).
      reflexivity. }
    rewrite Hor. simpl.
    replace (String.eqb chatId "") with false by (symmetry; now apply String.eqb_neq).
    simpl. unfold record, before. simpl. rewrite <- !app_assoc. reflexivity.
  - split.
    + apply Htidy. unfold tidy, newsStart, consistent, totalNewOf. simpl.
      repeat split; constructor.
    + simpl in Hcount. lia.
Qed.

(** X16. [/news] fails loudly or not at all: either it returns, or it throws
    right after trying to send its failure notice to the chat. *)
Theorem news_failure_is_announced (chatId : string) (manager : RSSManager) (w : World) :
  let run := handleNewsCommand newURL telegramConfig platform chatId manager tt w in
  fst run = (JS.Returned tt, tt)
  \/ exists e w1,
       run = (JS.Thrown e, tt,
              record (TelegramSendMessage chatId "处理新闻命令失败，请稍后重试") w1).
Proof.
  intros run. subst run. unfold handleNewsCommand. rewrite call_run.
  match goal with
  | |- context [try_catch ?body ?handler newsStart w] =>
      destruct (try_catch_cases body handler newsStart w)
        as [[[] [l' [w' Hrun]]] | [e [l' [w' Hrun]]]];
      rewrite Hrun
  end.
  - now left.
  - rewrite call_run, sendMessage_runs. simpl.
    destruct (telegram_ok platform _); [now left | right].
    do 2 eexists. reflexivity.
Qed.

(** X17. [/news] with no feeds downloads nothing: it tells the chat that
    nothing is monitored, and only if that request fails does it fall back
    to its failure notice. *)
Theorem news_on_empty_list (chatId : string) (manager : RSSManager) (w : World) :
  getFeeds manager (trace w ++ [CallGetFeeds]) = JS.Returned [] ->
  let w' := snd (handleNewsCommand newURL telegramConfig platform chatId manager tt w) in
  let notice := TelegramSendMessage chatId "当前没有监控的sitemap" in
  kv w' = kv w
  /\ trace w'
     = trace w ++ [CallGetFeeds; notice]
       ++ (if telegram_ok platform (trace w ++ [CallGetFeeds; notice]) then []
           else [TelegramSendMessage chatId "处理新闻命令失败，请稍后重试"]).
Proof.
  intros Hfeeds w' notice.
  assert (Hw' :
    w' = if telegram_ok platform (trace w ++ [CallGetFeeds; notice])
         then record notice (record CallGetFeeds w)
         else record (TelegramSendMessage chatId "处理新闻命令失败，请稍后重试")
                (record notice (record CallGetFeeds w))).
  { subst w' notice. unfold handleNewsCommand. rewrite call_world. unfold try_catch.
    rewrite (invoke_returned _ _ _ _ _ _ Hfeeds). simpl.
    rewrite call_run, sendMessage_runs. simpl. rewrite <- app_assoc. simpl.
    destruct (telegram_ok platform _); simpl; [reflexivity |].
    now rewrite call_run, sendMessage_runs. }
  rewrite Hw'. destruct (telegram_ok platform _); simpl.
  - split; [reflexivity |]. now rewrite <- app_assoc.
  - split; [reflexivity |]. now rewrite <- !app_assoc.
Qed.

End NewsCommand.

Lemma manual_digest_witness :
  let before :=
    trace emptyWorld ++ [CallGetFeeds; TelegramSendMessage "chat" "开始手动触发统一检查..."]
    ++ forcedDownloads sampleFeeds in
  exists l : NewsLocals.t,
    handleNewsCommand PlainURL.parse sampleConfig samplePlatform "chat"
      (sampleManager sampleFeeds ["https://a.com/new-page"]) tt emptyWorld
    = (JS.Returned tt, tt,
       {| kv := kv emptyWorld;
          trace :=
            before
            ++ [TelegramSendMessage "chat"
                  (reportMessage PlainURL.parse (toLocaleStringOptions samplePlatform before)
                     (NewsLocals.domainResults l) (NewsLocals.allNewUrls l)
                     (NewsLocals.processedCount l) (NewsLocals.errorCount l))] |})
    /\ tidy l
    /\ 0 <= NewsLocals.processedCount l <= len sampleFeeds
    /\ 0 <= NewsLocals.errorCount l <= len sampleFeeds
    /\ len sampleFeeds <= NewsLocals.processedCount l + NewsLocals.errorCount l.
Proof.
  apply (manual_digest PlainURL.parse sampleConfig samplePlatform "chat"
           (sampleManager sampleFeeds ["https://a.com/new-page"]) sampleFeeds emptyWorld).
  - reflexivity.
  - discriminate.
  - discriminate.
  - intros history. reflexivity.
Defined.

Lemma news_on_empty_list_witness :
  let w' :=
    snd (handleNewsCommand PlainURL.parse sampleConfig samplePlatform "chat"
           (sampleManager [] []) tt emptyWorld) in
  let notice := TelegramSendMessage "chat" "当前没有监控的sitemap" in
  kv w' = kv emptyWorld
  /\ trace w'
     = trace emptyWorld ++ [CallGetFeeds; notice]
       ++ (if telegram_ok samplePlatform (trace emptyWorld ++ [CallGetFeeds; notice]) then []
           else [TelegramSendMessage "chat" "处理新闻命令失败，请稍后重试"]).
Proof.
  apply (news_on_empty_list PlainURL.parse sampleConfig samplePlatform "chat"
           (sampleManager [] []) emptyWorld).
  reflexivity.
Defined.

(** ** The unified report, continued *)

Lemma sort_insert_descending {A : Type} (key : A -> Z) (a : A) (sorted : list A) :
  StronglySorted (fun x y => key x >= key y) sorted ->
  StronglySorted (fun x y => key x >= key y) (JS.sort_insert (descending key) a sorted).
Proof.
  induction 1 as [| b rest Hrest IH Hb]; simpl.
  - repeat constructor.
  - destruct (descending key a b <=? 0) eqn:Hcmp; unfold descending in Hcmp.
    + apply Z.leb_le in Hcmp. constructor; [now constructor |].
      constructor; [lia |].
      rewrite Forall_forall in *. intros c Hc. specialize (Hb c Hc). lia.
    + apply Z.leb_gt in Hcmp. constructor; [exact IH |].
      rewrite Forall_forall in *. intros c Hc.
      apply sort_insert_In in Hc as [-> | Hc]; [lia | now apply Hb].
Qed.

Lemma sort_descending {A : Type} (key : A -> Z) (arr : list A) :
  StronglySorted (fun x y => key x >= key y) (JS.sort (descending key) arr).
Proof.
  induction arr as [| a rest IH]; simpl; [constructor | now apply sort_insert_descending].
Qed.

(** X18. The per-domain part of the report lists the domains that have new
    links, each as often as it is recorded and none other, largest count
    first. *)
Theorem report_lists_domains_with_news (domainResults : JS.Map DomainData.t) :
  let listed := sortedDomains domainResults in
  Permutation listed
    (filter (fun data => DomainData.totalNew data >? 0) (List.map snd domainResults))
  /\ Forall (fun data => DomainData.totalNew data > 0) listed
  /\ StronglySorted (fun a b => DomainData.totalNew a >= DomainData.totalNew b) listed.
Proof.
  intros listed. subst listed. unfold sortedDomains. split; [| split].
  - apply sort_Permutation.
  - rewrite Forall_forall. intros data Hdata.
    apply sort_In, filter_In in Hdata as [_ Hpos]. now apply Z.gtb_lt in Hpos; lia.
  - apply (sort_descending DomainData.totalNew).
Qed.

(** ** The webhook *)

Lemma notification_benign (e : Event) : notification e = true -> benign e = true.
Proof. now destruct e. Qed.

Lemma ancillary_benign (e : Event) : ancillary e = true -> benign e = true.
Proof. now destruct e. Qed.

Lemma extends_benign (w w' : World) :
  extends benign w w' ->
  kv w' = kv w
  /\ inspected (trace w') = inspected (trace w)
  /\ downloaded (trace w') = downloaded (trace w)
  /\ writes (trace w') = writes (trace w).
Proof.
  intros [Hkv [events [Ht Hok]]]. rewrite Ht, inspected_app, downloaded_app, writes_app.
  assert (Hnone : inspected events = [] /\ downloaded events = [] /\ writes events = []).
  { clear Ht. induction events as [| e rest IH]; simpl in *; [auto |].
    apply andb_true_iff in Hok as [He Hrest]. destruct (IH Hrest) as [H1 [H2 H3]].
    destruct e; try discriminate; simpl; auto. }
  destruct Hnone as [-> [-> ->]]. now rewrite !app_nil_r.
Qed.

Lemma try_catch_returning_world {L A : Type} (body : M L A) (recover : string -> A)
    (l : L) (w : World) :
  snd (try_catch body (fun e => ret (recover e)) l w) = snd (body l w).
Proof. unfold try_catch. now destruct (body l w) as [[[a | e] l'] w']. Qed.

Lemma bind_ret_world {L A B : Type} (m : M L A) (b : B) (l : L) (w : World) :
  snd (bind m (fun _ => ret b) l w) = snd (m l w).
Proof. unfold bind. now destruct (m l w) as [[[a | e] l'] w']. Qed.

Section WebhookFacts.

Variable newURL : string -> JS.Outcome URL.
Variable telegramConfig : TelegramConfig.t.
Variable platform : Platform.
Variable trim : string -> string.
Variable removeFeed : list Event -> string -> JS.Outcome FeedResult.t.

(** X19. The webhook handler never throws, and its answer tells how the
    command ended: [success: true] with no error when the command ran to its
    end or there was none to run; [success: false] with the message of the
    error otherwise, which is the error the command threw or, for a message
    without sender, the TypeError of reading its name. What the handler did
    to the world is what the command did. *)
Theorem telegram_update_never_throws (update : Update.t) (rssManager : option RSSManager)
    (w : World) :
  let run :=
    handleTelegramUpdate newURL telegramConfig platform trim removeFeed update rssManager tt w in
  (exists (result : HandlerResult.t) (w' : World), run = (JS.Returned result, tt, w'))
  /\ run
     = match Update.message update with
       | Some message =>
           match Message.text message with
           | Some rawText =>
               if String.eqb rawText "" then (JS.Returned handled, tt, w)
               else
                 match Message.from message with
                 | Some sender =>
                     if String.prefix "/" (trim rawText) then
                       let command :=
                         runCommand newURL telegramConfig platform removeFeed
                           (Message.chat_id message) (trim rawText) sender rssManager tt w in
                       (JS.Returned (verdict (fst (fst command))), tt, snd command)
                     else (JS.Returned handled, tt, w)
                 | None =>
                     (JS.Returned (failed (cannotRead "undefined" "username")), tt, w)
                 end
           | None => (JS.Returned handled, tt, w)
           end
       | None => (JS.Returned handled, tt, w)
       end.
Proof.
  intros run.
  assert (Hrun : run
     = match Update.message update with
       | Some message =>
           match Message.text message with
           | Some rawText =>
               if String.eqb rawText "" then (JS.Returned handled, tt, w)
               else
                 match Message.from message with
                 | Some sender =>
                     if String.prefix "/" (trim rawText) then
                       let command :=
                         runCommand newURL telegramConfig platform removeFeed
                           (Message.chat_id message) (trim rawText) sender rssManager tt w in
                       (JS.Returned (verdict (fst (fst command))), tt, snd command)
                     else (JS.Returned handled, tt, w)
                 | None =>
                     (JS.Returned (failed (cannotRead "undefined" "username")), tt, w)
                 end
           | None => (JS.Returned handled, tt, w)
           end
       | None => (JS.Returned handled, tt, w)
       end).
  { subst run. unfold handleTelegramUpdate, try_catch.
    destruct (Update.message update) as [message |]; [| reflexivity].
    destruct (Message.text message) as [rawText |]; [| reflexivity].
    destruct (String.eqb rawText ""); [reflexivity |].
    destruct (Message.from message) as [sender |]; [| reflexivity].
    unfold bind, when.
    destruct (String.prefix "/" (trim rawText)); [| reflexivity].
    cbv zeta.
    destruct (runCommand newURL telegramConfig platform removeFeed
                (Message.chat_id message) (trim rawText) sender rssManager tt w)
      as [[[[] | e] []] w']; reflexivity. }
  split; [| exact Hrun].
  rewrite Hrun.
  destruct (Update.message update) as [message |]; [| now do 2 eexists].
  destruct (Message.text message) as [rawText |]; [| now do 2 eexists].
  destruct (String.eqb rawText ""); [now do 2 eexists |].
  destruct (Message.from message) as [sender |]; [| now do 2 eexists].
  destruct (String.prefix "/" (trim rawText)); now do 2 eexists.
Qed.

(** X20. An update without a message, without text, or whose trimmed text
    does not start with a slash, has no effect at all. *)
Theorem plain_text_is_ignored (update : Update.t) (rssManager : option RSSManager)
    (w : World) :
  match Update.message update with
  | Some message =>
      match Message.text message with
      | Some rawText => rawText = "" \/ String.prefix "/" (trim rawText) = false
      | None => True
      end
  | None => True
  end ->
  snd (handleTelegramUpdate newURL telegramConfig platform trim removeFeed
         update rssManager tt w)
  = w.
Proof.
  intros Hplain. unfold handleTelegramUpdate. rewrite try_catch_returning_world.
  destruct (Update.message update) as [message |]; [| reflexivity].
  destruct (Message.text message) as [rawText |]; [| reflexivity].
  destruct (String.eqb rawText "") eqn:Hempty; [reflexivity |].
  destruct Hplain as [-> | Hslash]; [discriminate |].
  destruct (Message.from message) as [sender |]; [| reflexivity].
  rewrite Hslash. reflexivity.
Qed.

(** X21. The footprint of [/rss]: it never downloads and never writes the
    progress store, and it hands a feed to [addFeed] in one case only, the
    sub-command [add] (in any letter case) with a URL that holds the word
    sitemap; then it hands over that URL, once. *)
Theorem rss_command_footprint (chatId : string) (args : list string) (manager : RSSManager)
    (w : World) :
  let w' :=
    snd (handleRSSCommand newURL telegramConfig platform removeFeed
           chatId args (Some manager) tt w) in
  kv w' = kv w
  /\ writes (trace w') = writes (trace w)
  /\ downloaded (trace w') = downloaded (trace w)
  /\ inspected (trace w') = inspected (trace w) ++ feedToAdd args.
Proof.
  intros w'. subst w'.
  assert (Hquiet : forall (m : M unit unit),
            quiet benign m -> feedToAdd args = [] ->
            let w' := snd (m tt w) in
            kv w' = kv w
            /\ writes (trace w') = writes (trace w)
            /\ downloaded (trace w') = downloaded (trace w)
            /\ inspected (trace w') = inspected (trace w) ++ feedToAdd args).
  { intros m Hm Hnone. destruct (extends_benign _ _ (Hm tt w)) as [H1 [H2 [H3 H4]]].
    rewrite Hnone, app_nil_r. auto. }
  unfold handleRSSCommand.
  destruct args as [| first rest].
  { apply Hquiet; [| reflexivity].
    apply (quiet_weaken notification benign); [exact notification_benign |].
    apply sendMessage_quiet. }
  destruct (String.eqb (JS.toLowerCase first) "list") eqn:Hlist.
  { apply Hquiet.
    - repeat first
        [ apply (quiet_weaken notification benign);
          [exact notification_benign | apply sendMessage_quiet]
        | quiet_step ].
    - apply String.eqb_eq in Hlist. simpl. rewrite Hlist. now destruct rest. }
  destruct (String.eqb (JS.toLowerCase first) "add") eqn:Hadd.
  - destruct rest as [| url rest].
    { apply Hquiet; [| reflexivity].
      apply (quiet_weaken notification benign); [exact notification_benign |].
      apply sendMessage_quiet. }
    destruct (includes_text "sitemap" (JS.toLowerCase url)) eqn:Hsitemap; cbn [negb]; cbv iota.
    + assert (Hfeed : feedToAdd (first :: url :: rest) = [url])
        by (simpl; now rewrite Hadd, Hsitemap).
      rewrite Hfeed.
      match goal with
      | |- context [bind (invoke ?e ?oracle) ?k tt w] =>
          assert (Hk : forall a, quiet benign (k a));
          [ intros result; cbv beta;
            repeat first
              [ apply (quiet_weaken notification benign);
                [exact notification_benign | apply sendMessage_quiet]
              | apply (quiet_weaken ancillary benign);
                [exact ancillary_benign | apply sendUpdateNotification_quiet]
              | quiet_step ]
          | pose proof (after_invoke benign e oracle k tt w Hk) as Hext ]
      end.
      destruct (extends_benign _ _ Hext) as [H1 [H2 [H3 H4]]].
      simpl in H1, H2, H3, H4.
      rewrite inspected_app in H2. rewrite downloaded_app in H3. rewrite writes_app in H4.
      simpl in H2, H3, H4. rewrite app_nil_r in H3, H4. auto.
    + apply Hquiet.
      * apply (quiet_weaken notification benign); [exact notification_benign |].
        apply sendMessage_quiet.
      * simpl. now rewrite Hadd, Hsitemap.
  - assert (Hnone : feedToAdd (first :: rest) = [])
      by (simpl; rewrite Hadd; now destruct rest).
    apply Hquiet; [| exact Hnone].
    repeat first
      [ apply (quiet_weaken notification benign);
        [exact notification_benign | apply sendMessage_quiet]
      | quiet_step ].
Qed.

(** X22. A message whose command word is [/news], in any letter case and
    with or without arguments, runs the manual digest: the webhook leaves the
    world exactly as [handleNewsCommand] for that chat does. *)
Theorem news_command_runs_digest (message : Message.t) (rawText : string) (sender : Sender.t)
    (manager : RSSManager) (w : World) :
  Message.text message = Some rawText ->
  rawText <> "" ->
  Message.from message = Some sender ->
  String.prefix "/" (trim rawText) = true ->
  JS.toLowerCase (hd "" (JS.split " " (trim rawText))) = "/news" ->
  snd (handleTelegramUpdate newURL telegramConfig platform trim removeFeed
         {| Update.message := Some message |} (Some manager) tt w)
  = snd (handleNewsCommand newURL telegramConfig platform
           (Message.chat_id message) manager tt w).
Proof.
  intros Htext Hne Hfrom Hslash Hcommand.
  unfold handleTelegramUpdate. rewrite try_catch_returning_world. simpl.
  rewrite Htext, Hfrom, Hslash.
  replace (String.eqb rawText "") with false by (symmetry; now apply String.eqb_neq).
  rewrite bind_ret_world. unfold when, runCommand. rewrite Hcommand. reflexivity.
Qed.

End WebhookFacts.

Lemma telegram_update_never_throws_witness :
  handleTelegramUpdate PlainURL.parse sampleConfig offlinePlatform trimBlanks sampleRemoveFeed
    (sampleUpdate " /Help me") None tt emptyWorld
  = (JS.Returned (failed "HTTP 502: Bad Gateway"), tt,
     record (TelegramSendMessage "chat" (helpMessage None)) emptyWorld).
Proof.
  exact (proj2 (telegram_update_never_throws PlainURL.parse sampleConfig offlinePlatform
                  trimBlanks sampleRemoveFeed (sampleUpdate " /Help me") None emptyWorld)).
Defined.

Lemma plain_text_is_ignored_witness :
  snd (handleTelegramUpdate PlainURL.parse sampleConfig samplePlatform trimBlanks
         sampleRemoveFeed (sampleUpdate "  hello there ")
         (Some (sampleManager sampleFeeds [])) tt emptyWorld)
  = emptyWorld.
Proof.
  apply (plain_text_is_ignored PlainURL.parse sampleConfig samplePlatform trimBlanks
           sampleRemoveFeed (sampleUpdate "  hello there ")
           (Some (sampleManager sampleFeeds [])) emptyWorld).
  right. reflexivity.
Defined.

Lemma news_command_runs_digest_witness :
  snd (handleTelegramUpdate PlainURL.parse sampleConfig samplePlatform trimBlanks
         sampleRemoveFeed
         {| Update.message :=
              Some {| Message.text := Some " /News now ";
                      Message.chat_id := "chat";
                      Message.from := Some {| Sender.username := None;
                                              Sender.id := "1";
                                              Sender.first_name := None |} |} |}
         (Some (sampleManager sampleFeeds [])) tt emptyWorld)
  = snd (handleNewsCommand PlainURL.parse sampleConfig samplePlatform
           (Message.chat_id
              {| Message.text := Some " /News now ";
                 Message.chat_id := "chat";
                 Message.from := Some {| Sender.username := None;
                                         Sender.id := "1";
                                         Sender.first_name := None |} |})
           (sampleManager sampleFeeds []) tt emptyWorld).
Proof.
  apply (news_command_runs_digest PlainURL.parse sampleConfig samplePlatform trimBlanks
           sampleRemoveFeed
           {| Message.text := Some " /News now ";
              Message.chat_id := "chat";
              Message.from := Some {| Sender.username := None;
                                      Sender.id := "1";
                                      Sender.first_name := None |} |}
           " /News now "
           {| Sender.username := None; Sender.id := "1"; Sender.first_name := None |}
           (sampleManager sampleFeeds []) emptyWorld).
  - reflexivity.
  - discriminate.
  - reflexivity.
  - reflexivity.
  - reflexivity.
Defined.

(** ** Pauses *)



Lemma pauses_nonneg (history : list Event) : 0 <= pauses history.
Proof. unfold pauses, len. lia. Qed.








Section PassPauses.

Variable newURL : string -> JS.Outcome URL.
Variable telegramConfig : TelegramConfig.t.
Variable platform : Platform.





End PassPauses.
